(** * Feature construction for span-extraction QA (dataset.py)

    A shallow embedding of the feature builder of [dataset.py]: the
    span aligner, the max-context resolver, the sliding-window loop, the
    feature assembler, the example constructor and validator, and the
    numbering pass of the batch driver.

    Python integers are [Z]; indices that only ever come out of [range]
    over a length are [nat].  Dictionaries are [gmap]s.  A Python
    exception is the [None] of an [option] result. *)

From Stdlib Require Import ZArith QArith Lia Ascii String.
From Stdlib Require Import Floats.SpecFloat Floats.PrimFloat Floats.FloatOps.
From stdpp Require Import base option list strings gmap.

Open Scope Z_scope.

(** ** Python list and string primitives *)

Module Py.

(** [''.join(ts)] *)
Definition join (ts : list string) : string := String.concat EmptyString ts.

(** [l[a:b]] for in-range, non-negative [a] and [b]. *)
Definition slice {A} (l : list A) (a b : nat) : list A :=
take (b - a)%nat (drop a l).

(** [range(a, b)] *)
Definition range (a b : nat) : list nat := seq a (b - a)%nat.

(** [range(hi, lo - 1, -1)]: from [hi] down to [lo], both included. *)
Definition range_down (hi lo : nat) : list nat := rev (seq lo (S hi - lo)%nat).

(** [range(n)] for a Python integer [n]: empty when [n <= 0]. *)
Definition zrange (n : Z) : list Z := Z.of_nat <$> seq 0 (Z.to_nat n).

(** [len(l)] as a Python integer. *)
Definition len {A} (l : list A) : Z := Z.of_nat (length l).

(** Normalisation of one bound of a slice over a sequence of length [n]:
  negative bounds count from the end, and the result is clamped. *)
Definition clamp (n i : Z) : Z :=
if i <? 0 then Z.max 0 (n + i) else Z.min i n.

(** [s[a:b]] with Python's treatment of negative and out-of-range bounds. *)
Definition zslice {A} (l : list A) (a b : Z) : list A :=
slice l (Z.to_nat (clamp (len l) a)) (Z.to_nat (clamp (len l) b)).

(** [l.index(x)]: position of the first occurrence, [None] for ValueError. *)
Fixpoint index (l : list Z) (x : Z) : option Z :=
match l with
| [] => None
| y :: l' => if Z.eqb y x then Some 0 else Z.succ <$> index l' x
end.

(** [s[a:b]] on a string. *)
Definition str_slice (s : string) (a b : Z) : string :=
let n := Z.of_nat (String.length s) in
let a' := clamp n a in
let b' := clamp n b in
String.substring (Z.to_nat a') (Z.to_nat (b' - a')) s.

(** Truth value of an optional string: [None] and the empty string are false. *)
Definition truthy (s : option string) : bool :=
match s with
| None => false
| Some s => negb (String.eqb s EmptyString)
end.

(** [sub in s] on strings. *)
Definition contains (sub s : string) : bool :=
  match String.index 0 sub s with
  | Some _ => true
  | None => false
  end.

(** A [for] loop over [l] whose body may raise. *)
Fixpoint for_each {S A} (body : S -> A -> option S) (st : S) (l : list A) : option S :=
  match l with
  | [] => Some st
  | x :: l' => st' ← body st x; for_each body st' l'
  end.

End Py.

(** ** Span aligner: [_improve_answer_span] *)

(** The test of line 34. *)
Definition span_matches (doc_tokens answer_tokens : list string) (new_start new_end : nat) : bool :=
  bool_decide (Py.join (Py.slice doc_tokens new_start (new_end + 1)) = Py.join answer_tokens).

(** The inner loop, over the remaining values of [new_end]. *)
Fixpoint scan_ends (doc_tokens answer_tokens : list string) (new_start : nat)
    (ends : list nat) : option (nat * nat) :=
  match ends with
  | [] => None
  | new_end :: ends' =>
      if span_matches doc_tokens answer_tokens new_start new_end
      then Some (new_start, new_end)
      else scan_ends doc_tokens answer_tokens new_start ends'
  end.

(** The outer loop, over the remaining values of [new_start]. *)
Fixpoint scan_starts (doc_tokens answer_tokens : list string)
    (starts : list nat) : option (nat * nat) :=
  match starts with
  | [] => None
  | new_start :: starts' =>
      match scan_ends doc_tokens answer_tokens new_start
              (Py.range_down (length doc_tokens - 1) new_start) with
      | Some r => Some r
      | None => scan_starts doc_tokens answer_tokens starts'
      end
  end.

Definition _improve_answer_span (doc_tokens answer_tokens : list string)
    (input_start input_end : Z) : Z * Z :=
  match scan_starts doc_tokens answer_tokens (Py.range 0 (length doc_tokens)) with
  | Some (new_start, new_end) => (Z.of_nat new_start, Z.of_nat new_end)
  | None => (input_start, input_end)
  end.

(** ** Examples: [AlibabaExample] and [AlibabaProcessor._create_examples] *)

(** One entry of [qa["answers"]]. *)
Module Answer.
Record t := mk { text : string; answer_start : Z }.
End Answer.

Module AlibabaExample.

Record t := mk {
  qas_id : Z;
  question_text : option string;
  context_text : string;
  answer_text : option string;
  title : string;
  is_impossible : bool;
  is_challenge : bool;
  answers : list Answer.t;
  start_position : Z;
  end_position : Z;
}.

(** [__init__], lines 544-569.  With an answer text and no start
    character the addition of line 567 raises TypeError. *)
Definition __init__ (qas_id : Z) (question_text : option string)
    (context_text : string) (answer_text : option string)
    (start_position_character : option Z) (title : string)
    (answers : list Answer.t) (is_impossible is_challenge : bool) : option t :=
  if negb is_impossible && Py.truthy answer_text then
    start ← start_position_character;
    Some (mk qas_id question_text context_text answer_text title
            is_impossible is_challenge answers
            start
            (start + Z.of_nat (String.length (default EmptyString answer_text)) - 1))
  else
    Some (mk qas_id question_text context_text answer_text title
            is_impossible is_challenge answers 0 0).

End AlibabaExample.

(** The raw dataset, as [json.load] returns it. *)
Module Raw.
Record qa := mk_qa {
  id : Z;
  question : option string;
  is_challenge : bool;
  is_impossible : bool;
  answers : list Answer.t;
}.
Record paragraph := mk_paragraph { context : string; qas : list qa }.
Record entry := mk_entry { title : string; paragraphs : list paragraph }.
End Raw.

Module Processor.

(** The local variables of [_create_examples] that the loop updates. *)
Record state := mk_state {
  examples : list AlibabaExample.t;
  invalid_examples : list Z;
  max_context_len : Z;
  max_question_len : Z;
  max_answer_len : Z;
}.

Definition init_state : state := mk_state [] [] 0 0 0.

(** [max(l)] of a list of integers; ValueError on the empty list. *)
Definition max_list (l : list Z) : option Z :=
  match l with
  | [] => None
  | x :: l' => Some (fold_left Z.max l' x)
  end.

(** Lines 466-492: the example built from one [qa].  [qa["answers"][0]]
    raises IndexError on an empty list. *)
Definition build_example (is_training : bool) (title context_text : string)
    (qa : Raw.qa) : option AlibabaExample.t :=
  '(answer_text, start_position_character, answers) ←
    (if negb (Raw.is_impossible qa) then
       if is_training then
         answer ← head (Raw.answers qa);
         Some (Some (Answer.text answer), Some (Answer.answer_start answer), [])
       else Some (None, None, Raw.answers qa)
     else Some (None, None, []));
  AlibabaExample.__init__ (Raw.id qa) (Raw.question qa) context_text answer_text
    start_position_character title answers (Raw.is_impossible qa) (Raw.is_challenge qa).

(** The condition of lines 497-498. *)
Definition answer_mismatch (is_training : bool) (example : AlibabaExample.t) : bool :=
  is_training && negb (AlibabaExample.is_impossible example) &&
  negb (bool_decide
          (Some (Py.str_slice (AlibabaExample.context_text example)
                   (AlibabaExample.start_position example)
                   (AlibabaExample.end_position example + 1))
           = AlibabaExample.answer_text example)).

Definition str_len (s : option string) : Z :=
  Z.of_nat (String.length (default EmptyString s)).

(** Lines 494-511. *)
Definition record_example (is_training : bool) (st : state)
    (example : AlibabaExample.t) : option state :=
  if negb (Py.truthy (AlibabaExample.question_text example)) then
    Some (mk_state (examples st)
            (invalid_examples st ++ [AlibabaExample.qas_id example])
            (max_context_len st) (max_question_len st) (max_answer_len st))
  else if answer_mismatch is_training example then
    Some (mk_state (examples st)
            (invalid_examples st ++ [AlibabaExample.qas_id example])
            (max_context_len st) (max_question_len st) (max_answer_len st))
  else
    let max_context_len' :=
      Z.max (max_context_len st)
            (Z.of_nat (String.length (AlibabaExample.context_text example))) in
    let max_question_len' :=
      Z.max (max_question_len st) (str_len (AlibabaExample.question_text example)) in
    max_answer_len' ←
      (if negb (AlibabaExample.is_impossible example) then
         if is_training then
           Some (Z.max (max_answer_len st) (str_len (AlibabaExample.answer_text example)))
         else
           m ← max_list ((fun a => Z.of_nat (String.length (Answer.text a)))
                           <$> AlibabaExample.answers example);
           Some (Z.max (max_answer_len st) m)
       else Some (max_answer_len st));
    Some (mk_state (examples st ++ [example]) (invalid_examples st)
            max_context_len' max_question_len' max_answer_len').

(** The three nested loops. *)
Fixpoint qas_loop (is_training : bool) (title context_text : string)
    (st : state) (qas : list Raw.qa) : option state :=
  match qas with
  | [] => Some st
  | qa :: qas' =>
      example ← build_example is_training title context_text qa;
      st' ← record_example is_training st example;
      qas_loop is_training title context_text st' qas'
  end.

Fixpoint paragraphs_loop (is_training : bool) (title : string)
    (st : state) (paragraphs : list Raw.paragraph) : option state :=
  match paragraphs with
  | [] => Some st
  | paragraph :: paragraphs' =>
      st' ← qas_loop is_training title (Raw.context paragraph) st (Raw.qas paragraph);
      paragraphs_loop is_training title st' paragraphs'
  end.

Fixpoint entries_loop (is_training : bool) (st : state)
    (input_data : list Raw.entry) : option state :=
  match input_data with
  | [] => Some st
  | entry :: input_data' =>
      st' ← paragraphs_loop is_training (Raw.title entry) st (Raw.paragraphs entry);
      entries_loop is_training st' input_data'
  end.

(** The state in which [_create_examples] reaches its [return]. *)
Definition run (input_data : list Raw.entry) (set_type : string) : option state :=
  let is_training := bool_decide (set_type = "train"%string) in
  entries_loop is_training init_state input_data.

Definition _create_examples (input_data : list Raw.entry) (set_type : string)
    : option (list AlibabaExample.t) :=
  examples <$> run input_data set_type.

(** Every [qa] of the input with the title and the context it is read
    under, in the order of the loops. *)
Definition all_qas (input_data : list Raw.entry) : list (string * string * Raw.qa) :=
  entry ← input_data;
  paragraph ← Raw.paragraphs entry;
  (fun qa => (Raw.title entry, Raw.context paragraph, qa)) <$> Raw.qas paragraph.

(** An example is rejected: its question is empty or missing, or, in
    training mode for a possible example, the characters of the context
    from its start to its end position are not its answer text. *)
Definition rejected (is_training : bool) (example : AlibabaExample.t) : Prop :=
  AlibabaExample.question_text example = None \/
  AlibabaExample.question_text example = Some EmptyString \/
  (is_training = true /\ AlibabaExample.is_impossible example = false /\
   Some (Py.str_slice (AlibabaExample.context_text example)
           (AlibabaExample.start_position example)
           (AlibabaExample.end_position example + 1))
   <> AlibabaExample.answer_text example).

(** The two skipping branches of lines 494-502, as one test. *)
Definition rejectedb (is_training : bool) (example : AlibabaExample.t) : bool :=
  negb (Py.truthy (AlibabaExample.question_text example)) ||
  answer_mismatch is_training example.

(** The [qa]s of the paragraphs of one entry. *)
Definition paragraph_qas (title : string) (paragraphs : list Raw.paragraph)
    : list (string * string * Raw.qa) :=
  paragraph ← paragraphs;
  (fun qa => (title, Raw.context paragraph, qa)) <$> Raw.qas paragraph.

(** The examples built from a list of [qa]s under their titles and
    contexts. *)
Definition built (is_training : bool) (qas : list (string * string * Raw.qa))
    (exs : list AlibabaExample.t) : Prop :=
  Forall2 (fun '(t, c, qa) ex => build_example is_training t c qa = Some ex) qas exs.

(** The examples that pass both tests, and the ids of those that do not. *)
Definition kept (is_training : bool) (exs : list AlibabaExample.t)
    : list AlibabaExample.t :=
  filter (fun ex => rejectedb is_training ex = false) exs.

Definition skipped (is_training : bool) (exs : list AlibabaExample.t) : list Z :=
  AlibabaExample.qas_id <$> filter (fun ex => rejectedb is_training ex = true) exs.

(** The loops, started in [st] on [qa]s that build [exs], end in [st']. *)
Definition loop_result (is_training : bool) (st st' : state)
    (exs : list AlibabaExample.t) : Prop :=
  examples st' = examples st ++ kept is_training exs /\
  invalid_examples st' = invalid_examples st ++ skipped is_training exs.

(** A small dataset: an empty question, a well-annotated question, and an
    answer annotated one character too far to the right. *)
Definition sample_data : list Raw.entry :=
  [Raw.mk_entry "t"
     [Raw.mk_paragraph "The quick brown fox jumps."
        [Raw.mk_qa 1 (Some EmptyString) false false [Answer.mk "brown fox" 10];
         Raw.mk_qa 2 (Some "what") false false [Answer.mk "brown fox" 10];
         Raw.mk_qa 3 (Some "what") false false [Answer.mk "brown fox" 11]]]]%string.

(** An answerable [qa] with an empty question and no answer, followed by
    a well-annotated one. *)
Definition unanswered_data : list Raw.entry :=
  [Raw.mk_entry "t"
     [Raw.mk_paragraph "The quick brown fox jumps."
        [Raw.mk_qa 1 (Some EmptyString) false false [];
         Raw.mk_qa 2 (Some "what") false false [Answer.mk "brown fox" 10]]]]%string.

End Processor.

(** ** Max-context resolver *)

(** The score of line 52 is a Python float.  Its arithmetic is kept
    abstract: the conversion of an integer operand, [+], [*], the literal
    [0.01] and the comparison [>]. *)
Class ScoreArith (F : Type) := {
  of_int : Z -> F;
  fadd : F -> F -> F;
  fmul : F -> F -> F;
  f001 : F;
  fgt : F -> F -> bool;
}.

(** Exact rational arithmetic, one model of the score arithmetic. *)
#[export] Instance Q_ScoreArith : ScoreArith Q := {|
  of_int := inject_Z;
  fadd := Qplus;
  fmul := Qmult;
  f001 := 1 # 100;
  fgt := fun a b => negb (Qle_bool a b);
|}.

(** Binary64 arithmetic, the arithmetic of Python floats, as the IEEE 754
    specification of the standard library gives it: 53 bits of mantissa,
    infinities at exponent 1024, rounding to nearest with ties to even.
    An integer operand is converted to the nearest double; one that is
    too large for a double, which Python refuses to convert
    (OverflowError), becomes an infinity. *)
Definition float_of_int (z : Z) : spec_float := binary_normalize 53 1024 z 0 false.

(** The literal [0.01]: the double nearest to it, [0x1.47ae147ae147bp-7]. *)
Definition float_001 : spec_float := S754_finite false 5764607523034235 (-59).

#[export] Instance Float_ScoreArith : ScoreArith spec_float := {|
  of_int := float_of_int;
  fadd := SFadd 53 1024;
  fmul := SFmul 53 1024;
  f001 := float_001;
  fgt := fun a b => SFltb b a;
|}.

(** A double that is a number (not NaN) of sign [s]. *)
Definition has_sign (s : bool) (x : spec_float) : Prop :=
  match x with
  | S754_zero s' | S754_infinity s' | S754_finite s' _ _ => s' = s
  | S754_nan => False
  end.

(** A window as the attribute-access resolver reads it. *)
Module DocSpan.
Record t := mk { start : Z; length : Z }.
End DocSpan.

(** [enumerate(l)], counting from [k]. *)
Definition enumerate_from {A} (k : nat) (l : list A) : list (nat * A) :=
  zip (seq k (length l)) l.

Section MaxContext.
Context {F : Type} `{ScoreArith F}.

(** [best_score], [best_span_index]; [None] is Python's [None]. *)
Definition best_state : Type := option F * option nat.

(** Lines 50-52 (and 72-74). *)
Definition span_score (start length position : Z) : F :=
  let end_ := start + length - 1 in
  let num_left_context := position - start in
  let num_right_context := end_ - position in
  fadd (of_int (Z.min num_left_context num_right_context)) (fmul f001 (of_int length)).

(** One iteration of the loop body, lines 45-55 (and 67-77), once the
    start and the length of the span have been read. *)
Definition max_context_step (position : Z) (st : best_state)
    (span_index : nat) (start length : Z) : best_state :=
  let end_ := start + length - 1 in
  if position <? start then st
  else if position >? end_ then st
  else
    let score := span_score start length position in
    if match fst st with None => true | Some best_score => fgt score best_score end
    then (Some score, Some span_index)
    else st.

(** The loop of [_check_is_max_context]. *)
Fixpoint check_loop (position : Z) (st : best_state)
    (spans : list (nat * DocSpan.t)) : best_state :=
  match spans with
  | [] => st
  | (span_index, doc_span) :: spans' =>
      check_loop position
        (max_context_step position st span_index
           (DocSpan.start doc_span) (DocSpan.length doc_span))
        spans'
  end.

(** [cur_span_index == best_span_index] *)
Definition index_eq (cur_span_index : nat) (best_span_index : option nat) : bool :=
  match best_span_index with
  | None => false
  | Some b => Nat.eqb cur_span_index b
  end.

Definition _check_is_max_context (doc_spans : list DocSpan.t)
    (cur_span_index : nat) (position : Z) : bool :=
  let '(best_score, best_span_index) :=
    check_loop position (None, None) (enumerate_from 0 doc_spans) in
  index_eq cur_span_index best_span_index.

(** The loop of [_new_check_is_max_context]: a window is a dict, and a
    missing key raises KeyError. *)
Fixpoint new_check_loop (position : Z) (st : best_state)
    (spans : list (nat * gmap string Z)) : option best_state :=
  match spans with
  | [] => Some st
  | (span_index, doc_span) :: spans' =>
      start ← doc_span !! "start"%string;
      length ← doc_span !! "length"%string;
      new_check_loop position
        (max_context_step position st span_index start length) spans'
  end.

Definition _new_check_is_max_context (doc_spans : list (gmap string Z))
    (cur_span_index : nat) (position : Z) : option bool :=
  '(best_score, best_span_index) ←
    new_check_loop position (None, None) (enumerate_from 0 doc_spans);
  Some (index_eq cur_span_index best_span_index).

End MaxContext.

(** A score that the loop can compute: the score of some window at a
    position that it covers. *)
Definition is_score {F} `{ScoreArith F} (x : F) : Prop :=
  exists start length position,
    start <= position <= start + length - 1 /\ x = span_score start length position.

(** What the comparison [>] satisfies on the scores that occur (they are
    numbers, never NaN): a strict weak order. *)
Class ScoreOrder (F : Type) `{ScoreArith F} := {
  fgt_irrefl : forall a, is_score a -> fgt a a = false;
  fgt_trans : forall a b c, is_score a -> is_score b -> is_score c ->
    fgt a b = true -> fgt b c = true -> fgt a c = true;
  fgt_negtrans : forall a b c, is_score a -> is_score b -> is_score c ->
    fgt a b = false -> fgt b c = false -> fgt a c = false;
}.

(** The same window presented as a dict. *)
Definition span_as_dict (doc_span : DocSpan.t) : gmap string Z :=
  {[ "start"%string := DocSpan.start doc_span;
     "length"%string := DocSpan.length doc_span ]}.

(** A dict carries the start and the length of a window. *)
Definition presents (d : gmap string Z) (doc_span : DocSpan.t) : Prop :=
  d !! "start"%string = Some (DocSpan.start doc_span) /\
  d !! "length"%string = Some (DocSpan.length doc_span).

(** [position] lies in the window. *)
Definition covers (doc_span : DocSpan.t) (position : Z) : Prop :=
  DocSpan.start doc_span <= position <= DocSpan.start doc_span + DocSpan.length doc_span - 1.

(** The score of a window at a position. *)
Definition score_of {F} `{ScoreArith F} (doc_span : DocSpan.t) (position : Z) : F :=
  span_score (DocSpan.start doc_span) (DocSpan.length doc_span) position.

(** [b] is the first window, in list order, attaining the highest score among
    the windows that cover [position]: no covering window scores higher, and
    every covering window before it scores strictly lower. *)
Definition first_best {F} `{ScoreArith F} (spans : list DocSpan.t) (position : Z)
    (b : nat) : Prop :=
  exists sb, spans !! b = Some sb /\ covers sb position /\
    (forall w s, spans !! w = Some s -> covers s position ->
       fgt (score_of (F:=F) s position) (score_of sb position) = false) /\
    (forall w s, (w < b)%nat -> spans !! w = Some s -> covers s position ->
       fgt (score_of (F:=F) sb position) (score_of s position) = true).

(** The score of a window at a position as the resolver's contract words
    it: [min(position - start, start + length - 1 - position)
    + 0.01 * length], evaluated in the score arithmetic. *)
Definition score_by_spec {F} `{ScoreArith F} (window : DocSpan.t) (position : Z) : F :=
  fadd (of_int (Z.min (position - DocSpan.start window)
                      (DocSpan.start window + DocSpan.length window - 1 - position)))
       (fmul f001 (of_int (DocSpan.length window))).

(** Window number [b] covers [position], no covering window has a score
    above its score, and every covering window before it in the list has
    a score strictly below: [b] is the first window to attain the highest
    score. *)
Definition first_highest {F} `{ScoreArith F} (windows : list DocSpan.t) (position : Z)
    (b : nat) : Prop :=
  exists wb, windows !! b = Some wb /\
    DocSpan.start wb <= position <= DocSpan.start wb + DocSpan.length wb - 1 /\
    (forall k w, windows !! k = Some w ->
       DocSpan.start w <= position <= DocSpan.start w + DocSpan.length w - 1 ->
       fgt (score_by_spec (F:=F) w position) (score_by_spec wb position) = false) /\
    (forall k w, (k < b)%nat -> windows !! k = Some w ->
       DocSpan.start w <= position <= DocSpan.start w + DocSpan.length w - 1 ->
       fgt (score_by_spec (F:=F) wb position) (score_by_spec w position) = true).

(** What the loop has established after the windows [seen]. *)
Definition best_inv {F} `{ScoreArith F} (seen : list DocSpan.t) (position : Z)
    (st : option F * option nat) : Prop :=
  match st with
  | (None, None) => forall w s, seen !! w = Some s -> ~ covers s position
  | (Some sc, Some b) =>
      first_best (F:=F) seen position b /\
      (forall sb, seen !! b = Some sb -> sc = score_of sb position)
  | _ => False
  end.

(** The slice [doc_tokens[s..e]] (both ends included) concatenates to the
    concatenation of the answer tokens. *)
Definition spells (doc_tokens answer_tokens : list string) (s e : nat) : Prop :=
  Py.join (Py.slice doc_tokens s (e + 1)) = Py.join answer_tokens.

(** ** The tokenizer, an external collaborator *)

(** What [encode_plus] returns; a missing [overflowing_tokens] key is [None]. *)
Module Encoding.
Record t := mk {
  input_ids : list Z;
  attention_mask : list Z;
  token_type_ids : list Z;
  overflowing_tokens : option (list Z);
}.
End Encoding.

(** The second sequence given to [encode_plus]: the tokens of the context
    for the first window, the overflowing ids of the previous window for
    the later ones. *)
Inductive pair_input :=
| Tokens (ts : list string)
| Ids (ids : list Z).

Definition pair_len (p : pair_input) : Z :=
  match p with
  | Tokens ts => Py.len ts
  | Ids ids => Py.len ids
  end.

(** The operations and attributes of the tokenizer that the feature
    builder uses.  [encode] is called with [add_special_tokens=False,
    truncation=True] and takes the text and [max_length]; [encode_plus] is
    called with [truncation='only_second', padding="max_length"] and
    takes the query, the second sequence, [max_length] and [stride];
    [type_name] is [str(type(tokenizer))]. *)
Module Tokenizer.
Record t := mk {
  tokenize : string -> list string;
  encode : option string -> Z -> list Z;
  encode_plus : list Z -> pair_input -> Z -> Z -> Encoding.t;
  convert_ids_to_tokens : list Z -> list string;
  get_special_tokens_mask : list Z -> list Z;
  max_len : Z;
  max_len_single_sentence : Z;
  max_len_sentences_pair : Z;
  pad_token_id : Z;
  cls_token_id : Z;
  padding_side : string;
  type_name : string;
}.
End Tokenizer.

(** ** Features *)

Module AlibabaFeatures.
Record t := mk {
  input_ids : list Z;
  attention_mask : list Z;
  token_type_ids : list Z;
  cls_index : Z;
  p_mask : list Z;
  example_index : Z;
  unique_id : Z;
  paragraph_len : Z;
  token_is_max_context : gmap Z bool;
  tokens : list string;
  token_to_orig_map : gmap Z Z;
  start_position : Z;
  end_position : Z;
  is_impossible : bool;
  qas_id : Z;
}.

(** The assignments of lines 310-311. *)
Definition set_ids (example_index unique_id : Z) (f : t) : t :=
  mk (input_ids f) (attention_mask f) (token_type_ids f) (cls_index f) (p_mask f)
     example_index unique_id (paragraph_len f) (token_is_max_context f) (tokens f)
     (token_to_orig_map f) (start_position f) (end_position f) (is_impossible f)
     (qas_id f).
End AlibabaFeatures.

(** ** Windows: the dicts collected in [spans] *)

Module Span.
Record t := mk {
  input_ids : list Z;
  attention_mask : list Z;
  token_type_ids : list Z;
  overflowing_tokens : option (list Z);
  paragraph_len : Z;
  tokens : list string;
  token_to_orig_map : gmap Z Z;
  truncated_query_with_special_tokens_length : Z;
  token_is_max_context : gmap Z bool;
  start : Z;
  length : Z;
}.

(** [span["token_is_max_context"][index] = is_max_context] *)
Definition set_max_context (index : Z) (is_max_context : bool) (sp : t) : t :=
  mk (input_ids sp) (attention_mask sp) (token_type_ids sp) (overflowing_tokens sp)
     (paragraph_len sp) (tokens sp) (token_to_orig_map sp)
     (truncated_query_with_special_tokens_length sp)
     (<[index := is_max_context]> (token_is_max_context sp))
     (start sp) (length sp).

(** The window without its [token_is_max_context] entries. *)
Definition erase (sp : t) : t :=
  mk (input_ids sp) (attention_mask sp) (token_type_ids sp) (overflowing_tokens sp)
     (paragraph_len sp) (tokens sp) (token_to_orig_map sp)
     (truncated_query_with_special_tokens_length sp) ∅ (start sp) (length sp).

(** The integer-valued entries of the dict, which are all that
    [_new_check_is_max_context] reads. *)
Definition as_dict (sp : t) : gmap string Z :=
  {[ "start"%string := start sp;
     "length"%string := length sp;
     "paragraph_len"%string := paragraph_len sp;
     "truncated_query_with_special_tokens_length"%string :=
       truncated_query_with_special_tokens_length sp ]}.

(** The window as the attribute-access resolver would read it. *)
Definition doc_span (sp : t) : DocSpan.t := DocSpan.mk (start sp) (length sp).
End Span.

(** ** numpy operations on the mask *)

Module Np.

(** [a[from:] = v] *)
Definition fill_from (a : list Z) (from : Z) (v : Z) : list Z :=
  let k := Z.to_nat (Py.clamp (Py.len a) from) in
  take k a ++ replicate (length a - k) v.

(** [a[i] = v] for a non-negative [i]; IndexError when out of bounds. *)
Definition set_at (a : list Z) (i : nat) (v : Z) : option (list Z) :=
  if decide (i < length a)%nat then Some (<[i := v]> a) else None.

(** [a[indices] = v] for an array of indices. *)
Fixpoint set_all (a : list Z) (indices : list nat) (v : Z) : option (list Z) :=
  match indices with
  | [] => Some a
  | i :: indices' => a' ← set_at a i v; set_all a' indices' v
  end.

(** The indices at which [test] holds, counting from [k]. *)
Fixpoint where_from (test : Z -> bool) (k : nat) (l : list Z) : list nat :=
  match l with
  | [] => []
  | x :: l' => (if test x then [k] else []) ++ where_from test (S k) l'
  end.

(** [np.where(np.array(l) == x)] *)
Definition where_eq (l : list Z) (x : Z) : list nat := where_from (Z.eqb x) 0 l.

(** [np.asarray(l).nonzero()] *)
Definition nonzero (l : list Z) : list nat := where_from (fun x => negb (Z.eqb x 0)) 0 l.

End Np.

(** ** The feature builder: [convert_example_to_features] *)

Section Convert.
Context {F : Type} `{ScoreArith F}.
Variable tokenizer : Tokenizer.t.

(** Lines 107-111. *)
Definition sequence_added_tokens : Z :=
  if Py.contains "roberta" (Tokenizer.type_name tokenizer)
     || Py.contains "camembert" (Tokenizer.type_name tokenizer)
  then Tokenizer.max_len tokenizer - Tokenizer.max_len_single_sentence tokenizer + 1
  else Tokenizer.max_len tokenizer - Tokenizer.max_len_single_sentence tokenizer.

(** Line 113. *)
Definition sequence_pair_added_tokens : Z :=
  Tokenizer.max_len tokenizer - Tokenizer.max_len_sentences_pair tokenizer.

Section Windows.
Variables (doc_tokens : list string) (truncated_query : list Z).
Variables (max_seq_length doc_stride : Z).

(** Lines 140-143, for the window that will be number [n_spans]. *)
Definition build_token_to_orig_map (paragraph_len n_spans : Z) : gmap Z Z :=
  foldl (fun token_to_orig_map i =>
           let index := Py.len truncated_query + sequence_added_tokens + i in
           <[index := n_spans * doc_stride + i]> token_to_orig_map)
        ∅ (Py.zrange paragraph_len).

(** Lines 117-151: the dict that one iteration appends to [spans]. *)
Definition make_span (spans : list Span.t) (span_doc_tokens : pair_input) : Span.t :=
  let encoded_dict :=
    Tokenizer.encode_plus tokenizer truncated_query span_doc_tokens max_seq_length
      (max_seq_length - doc_stride - Py.len truncated_query - sequence_pair_added_tokens) in
  let paragraph_len :=
    Z.min (Py.len doc_tokens - Py.len spans * doc_stride)
          (max_seq_length - Py.len truncated_query - sequence_pair_added_tokens) in
  let non_padded_ids :=
    match Py.index (Encoding.input_ids encoded_dict) (Tokenizer.pad_token_id tokenizer) with
    | Some k => take (Z.to_nat k) (Encoding.input_ids encoded_dict)
    | None => Encoding.input_ids encoded_dict
    end in
  let tokens := Tokenizer.convert_ids_to_tokens tokenizer non_padded_ids in
  let token_to_orig_map := build_token_to_orig_map paragraph_len (Py.len spans) in
  Span.mk (Encoding.input_ids encoded_dict) (Encoding.attention_mask encoded_dict)
    (Encoding.token_type_ids encoded_dict) (Encoding.overflowing_tokens encoded_dict)
    paragraph_len tokens token_to_orig_map
    (Py.len truncated_query + sequence_added_tokens)
    ∅
    (Py.len spans * doc_stride)
    paragraph_len.

(** The [while] loop of lines 116-158.  [fuel] bounds the number of
    iterations; [None] is a loop that has not stopped within it. *)
Fixpoint slicing_loop (fuel : nat) (spans : list Span.t) (span_doc_tokens : pair_input)
    : option (list Span.t) :=
  if decide (Py.len spans * doc_stride < Py.len doc_tokens) then
    match fuel with
    | O => None
    | S fuel' =>
        let span := make_span spans span_doc_tokens in
        let spans' := spans ++ [span] in
        match Span.overflowing_tokens span with
        | None => Some spans'
        | Some [] => Some spans'
        | Some (o :: ov) => slicing_loop fuel' spans' (Ids (o :: ov))
        end
    end
  else Some spans.

(** Lines 162-168: one iteration of the inner loop. *)
Definition mark_token (doc_span_index : nat) (spans : list Span.t) (j : Z)
    : option (list Span.t) :=
  is_max_context ←
    _new_check_is_max_context (Span.as_dict <$> spans) doc_span_index
      (Z.of_nat doc_span_index * doc_stride + j);
  sp ← spans !! doc_span_index;
  let index :=
    if bool_decide (Tokenizer.padding_side tokenizer = "left"%string) then j
    else Span.truncated_query_with_special_tokens_length sp + j in
  Some (<[doc_span_index := Span.set_max_context index is_max_context sp]> spans).

(** Lines 160-168. *)
Definition mark_span (spans : list Span.t) (doc_span_index : nat) : option (list Span.t) :=
  sp ← spans !! doc_span_index;
  Py.for_each (mark_token doc_span_index) spans (Py.zrange (Span.paragraph_len sp)).

Definition mark_all (spans : list Span.t) : option (list Span.t) :=
  Py.for_each mark_span spans (seq 0 (length spans)).

(** Lines 174-185. *)
Definition compute_p_mask (span : Span.t) (cls_index : Z) : option (list Z) :=
  let p_mask := replicate (length (Span.token_type_ids span)) 1 in
  let p_mask := Np.fill_from p_mask (Py.len truncated_query + sequence_added_tokens) 0 in
  let pad_token_indices :=
    Np.where_eq (Span.input_ids span) (Tokenizer.pad_token_id tokenizer) in
  let special_token_indices :=
    Np.nonzero (Tokenizer.get_special_tokens_mask tokenizer (Span.input_ids span)) in
  p_mask ← Np.set_all p_mask pad_token_indices 1;
  p_mask ← Np.set_all p_mask special_token_indices 1;
  Np.set_at p_mask (Z.to_nat cls_index) 0.

(** Lines 187-208: [start_position], [end_position], [span_is_impossible].
    The token positions of the answer exist only in training mode for a
    possible example. *)
Definition relocate (example_is_impossible is_training : bool)
    (tok_position : option (Z * Z)) (span : Span.t) (cls_index : Z)
    : option (Z * Z * bool) :=
  let span_is_impossible := example_is_impossible in
  if is_training && negb span_is_impossible then
    '(tok_start_position, tok_end_position) ← tok_position;
    let doc_start := Span.start span in
    let doc_end := Span.start span + Span.length span - 1 in
    let out_of_span :=
      negb ((tok_start_position >=? doc_start) && (tok_end_position <=? doc_end)) in
    if out_of_span then Some (cls_index, cls_index, true)
    else
      let doc_offset := Py.len truncated_query + sequence_added_tokens in
      Some (tok_start_position - doc_start + doc_offset,
            tok_end_position - doc_start + doc_offset,
            span_is_impossible)
  else Some (0, 0, span_is_impossible).

(** Lines 169-227: the body of the loop over [spans]. *)
Definition make_feature (example : AlibabaExample.t) (is_training : bool)
    (tok_position : option (Z * Z)) (span : Span.t) : option AlibabaFeatures.t :=
  cls_index ← Py.index (Span.input_ids span) (Tokenizer.cls_token_id tokenizer);
  p_mask ← compute_p_mask span cls_index;
  '(start_position, end_position, span_is_impossible) ←
    relocate (AlibabaExample.is_impossible example) is_training tok_position span cls_index;
  Some (AlibabaFeatures.mk (Span.input_ids span) (Span.attention_mask span)
          (Span.token_type_ids span) cls_index p_mask 0 0 (Span.paragraph_len span)
          (Span.token_is_max_context span) (Span.tokens span)
          (Span.token_to_orig_map span) start_position end_position
          span_is_impossible (AlibabaExample.qas_id example)).

End Windows.

(** Lines 94-98. *)
Definition answer_token_span (example : AlibabaExample.t) (is_training : bool)
    (doc_tokens : list string) : option (option (Z * Z)) :=
  if is_training && negb (AlibabaExample.is_impossible example) then
    answer_text ← AlibabaExample.answer_text example;
    let answer_tokens := Tokenizer.tokenize tokenizer answer_text in
    Some (Some (_improve_answer_span doc_tokens answer_tokens
                  (AlibabaExample.start_position example)
                  (AlibabaExample.end_position example)))
  else Some None.

(** The windows of an example, before the max-context pass. *)
Definition example_spans (fuel : nat) (example : AlibabaExample.t)
    (max_seq_length doc_stride max_query_length : Z) : option (list Span.t) :=
  let doc_tokens := Tokenizer.tokenize tokenizer (AlibabaExample.context_text example) in
  let truncated_query :=
    Tokenizer.encode tokenizer (AlibabaExample.question_text example) max_query_length in
  slicing_loop doc_tokens truncated_query max_seq_length doc_stride fuel [] (Tokens doc_tokens).

Definition convert_example_to_features (fuel : nat) (example : AlibabaExample.t)
    (max_seq_length doc_stride max_query_length : Z) (is_training : bool)
    : option (list AlibabaFeatures.t) :=
  let doc_tokens := Tokenizer.tokenize tokenizer (AlibabaExample.context_text example) in
  tok_position ← answer_token_span example is_training doc_tokens;
  let truncated_query :=
    Tokenizer.encode tokenizer (AlibabaExample.question_text example) max_query_length in
  spans ← example_spans fuel example max_seq_length doc_stride max_query_length;
  spans ← mark_all doc_stride spans;
  mapM (make_feature truncated_query example is_training tok_position) spans.

End Convert.

(** ** The batch driver: [convert_examples_to_features] *)

(** [new_features], [unique_id], [example_index]. *)
Definition numbering : Type := list AlibabaFeatures.t * Z * Z.

(** Lines 309-313. *)
Definition number_feature (example_index : Z)
    (st : list AlibabaFeatures.t * Z) (example_feature : AlibabaFeatures.t)
    : list AlibabaFeatures.t * Z :=
  let '(new_features, unique_id) := st in
  (new_features ++ [AlibabaFeatures.set_ids example_index unique_id example_feature],
   unique_id + 1).

(** Lines 307-314. *)
Definition number_example (st : numbering) (example_features : list AlibabaFeatures.t)
    : numbering :=
  let '(new_features, unique_id, example_index) := st in
  match example_features with
  | [] => st
  | _ =>
      let '(new_features', unique_id') :=
        foldl (number_feature example_index) (new_features, unique_id) example_features in
      (new_features', unique_id', example_index + 1)
  end.

(** Lines 301-315. *)
Definition number_features (features : list (list AlibabaFeatures.t))
    : list AlibabaFeatures.t :=
  (foldl number_example ([], 1000000000, 0) features).1.1.

(** With [return_dataset=False].  The pool maps the examples in order. *)
Definition convert_examples_to_features {F : Type} `{ScoreArith F}
    (tokenizer : Tokenizer.t) (fuel : nat) (examples : list AlibabaExample.t)
    (max_seq_length doc_stride max_query_length : Z) (is_training : bool)
    : option (list AlibabaFeatures.t) :=
  features ← mapM (fun example =>
                     convert_example_to_features (F:=F) tokenizer fuel example
                       max_seq_length doc_stride max_query_length is_training)
                  examples;
  Some (number_features features).

(** ** A character-level tokenizer with simple truncation

    One instance of the tokenizer interface, used to run the feature
    builder on concrete inputs: a token is one character, [CLS] = 101,
    [SEP] = 102, [PAD] = 0, a pair is laid out as
    [CLS] query [SEP] context [SEP] and padded to [max_length] on the
    declared side.  When the pair is too long the context is truncated to
    the budget and the last [stride + removed] context ids are reported
    as overflowing. *)
Module Toy.

Definition char_id (c : ascii) : Z := 1000 + Z.of_nat (nat_of_ascii c).

Definition token_id (t : string) : Z :=
  match t with
  | String c _ => char_id c
  | EmptyString => 100
  end.

Definition id_token (i : Z) : string :=
  if i =? 101 then "[CLS]"
  else if i =? 102 then "[SEP]"
  else if i =? 0 then "[PAD]"
  else if i <? 1000 then "[UNK]"
  else String (ascii_of_nat (Z.to_nat (i - 1000))) EmptyString.

Definition tokenize (s : string) : list string :=
  (fun c => String c EmptyString) <$> list_ascii_of_string s.

Definition encode (text : option string) (max_length : Z) : list Z :=
  take (Z.to_nat max_length) (char_id <$> list_ascii_of_string (default EmptyString text)).

Definition is_special (i : Z) : bool := (i =? 0) || (i =? 101) || (i =? 102).

Definition get_special_tokens_mask (ids : list Z) : list Z :=
  (fun i => if is_special i then 1 else 0) <$> ids.

Definition pair_ids (p : pair_input) : list Z :=
  match p with
  | Tokens ts => token_id <$> ts
  | Ids ids => ids
  end.

Definition encode_plus (side : string) (query : list Z) (pair : pair_input)
    (max_length stride : Z) : Encoding.t :=
  let ctx := pair_ids pair in
  let budget := max_length - Py.len query - 3 in
  let removed := Py.len ctx - budget in
  let kept := if removed <=? 0 then ctx else take (Z.to_nat budget) ctx in
  let overflow :=
    if removed <=? 0 then []
    else drop (Z.to_nat (Py.len ctx - Z.min (Py.len ctx) (stride + removed))) ctx in
  let body := [101] ++ query ++ [102] ++ kept ++ [102] in
  let types := replicate (length query + 2) 0 ++ replicate (length kept + 1) 1 in
  let pad := (Z.to_nat max_length - length body)%nat in
  if bool_decide (side = "left"%string) then
    Encoding.mk (replicate pad 0 ++ body) (replicate pad 0 ++ replicate (length body) 1)
      (replicate pad 0 ++ types) (Some overflow)
  else
    Encoding.mk (body ++ replicate pad 0) (replicate (length body) 1 ++ replicate pad 0)
      (types ++ replicate pad 0) (Some overflow).

Definition tokenizer (side : string) : Tokenizer.t :=
  Tokenizer.mk tokenize encode (encode_plus side) (fmap id_token) get_special_tokens_mask
    512 510 509 0 101 side "BertTokenizer".

End Toy.

(** ** Assumptions on the tokenizer *)

(** Simple truncation of the second sequence: a pair that fits the budget
    of [max_length] minus the query and the pair's special tokens reports
    no overflow; a longer one reports as overflowing its last
    [stride + removed] ids (all of them when that exceeds its length). *)
Definition simple_truncation (tokenizer : Tokenizer.t) : Prop :=
  forall query pair max_length stride,
    let n := pair_len pair in
    let budget := max_length - Py.len query - sequence_pair_added_tokens tokenizer in
    let overflow :=
      Encoding.overflowing_tokens
        (Tokenizer.encode_plus tokenizer query pair max_length stride) in
    (n <= budget -> overflow = None \/ overflow = Some []) /\
    (budget < n ->
     exists ov, overflow = Some ov /\
                Py.len ov = Z.max 0 (Z.min n (stride + (n - budget)))).

(** The window [sp] contains the context position [p]. *)
Definition in_window (sp : Span.t) (p : Z) : Prop :=
  Span.start sp <= p < Span.start sp + Span.length sp.

(** Every window made so far is full and leaves tokens behind it. *)
Definition full_windows (doc_stride n budget : Z) (spans : list Span.t) : Prop :=
  forall i sp, spans !! i = Some sp ->
    Span.start sp = Z.of_nat i * doc_stride /\ Span.length sp = budget /\
    budget < n - Z.of_nat i * doc_stride.

(** The windows of a context of [n] tokens at the end of the loop: window
    [i] starts at [i * doc_stride] with the length of line 129, all but
    the last are full, and the last one ends where the context ends. *)
Definition sliced (doc_stride n budget : Z) (spans : list Span.t) : Prop :=
  (forall i sp, spans !! i = Some sp ->
     Span.start sp = Z.of_nat i * doc_stride /\
     Span.length sp = Z.min (n - Z.of_nat i * doc_stride) budget) /\
  (forall i sp, spans !! i = Some sp -> (S i < length spans)%nat -> Span.length sp = budget) /\
  (0 < n -> exists sp, last spans = Some sp /\ Span.start sp + Span.length sp = n) /\
  (n = 0 -> spans = []).

(** ** Positions in the numbered output *)

(** The number of features of the examples before example [j]. *)
Definition offset (features : list (list AlibabaFeatures.t)) (j : nat) : nat :=
  length (concat (take j features)).

(** The number of examples before example [j] that have a feature. *)
Definition rank (features : list (list AlibabaFeatures.t)) (j : nat) : Z :=
  Z.of_nat (length (filter (fun l => l <> []) (take j features))).

(** What the numbering loop has established after the feature lists [fs]. *)
Definition numbered_inv (fs : list (list AlibabaFeatures.t)) (st : numbering) : Prop :=
  let '(new_features, unique_id, example_index) := st in
  unique_id = 1000000000 + Py.len new_features /\
  example_index = rank fs (length fs) /\
  length new_features = offset fs (length fs) /\
  (forall k f, new_features !! k = Some f ->
     AlibabaFeatures.unique_id f = 1000000000 + Z.of_nat k) /\
  (forall k f, new_features !! k = Some f ->
     AlibabaFeatures.example_index f < example_index) /\
  (forall k1 k2 f1 f2, (k1 <= k2)%nat ->
     new_features !! k1 = Some f1 -> new_features !! k2 = Some f2 ->
     AlibabaFeatures.example_index f1 <= AlibabaFeatures.example_index f2) /\
  (forall j l i f0, fs !! j = Some l -> l !! i = Some f0 ->
     new_features !! (offset fs j + i)%nat
     = Some (AlibabaFeatures.set_ids (rank fs j)
               (1000000000 + Z.of_nat (offset fs j + i)) f0)).

(** ** Sample inputs for the batch driver *)

(** A feature with nothing in it but the id of its example. *)
Definition blank_feature (qas_id : Z) : AlibabaFeatures.t :=
  AlibabaFeatures.mk [] [] [] 0 [] 0 0 0 ∅ [] ∅ 0 0 false qas_id.

(** Two unanswerable questions, the first one on an empty context. *)
Definition gap_data : list Raw.entry :=
  [Raw.mk_entry "t"
     [Raw.mk_paragraph EmptyString [Raw.mk_qa 7 (Some "abc") false true []];
      Raw.mk_paragraph "xy" [Raw.mk_qa 8 (Some "abc") false true []]]]%string.

(** ** Sample inputs for the feature builder *)

(** An unanswerable question, as [_create_examples] builds it. *)
Definition impossible_example : AlibabaExample.t :=
  AlibabaExample.mk 7 (Some "abc"%string) "xy"%string None "t"%string true false [] 0 0.

(** What a test of the positions reads off a feature. *)
Definition positions_of (f : AlibabaFeatures.t) : Z * Z * Z * bool :=
  (AlibabaFeatures.cls_index f, AlibabaFeatures.start_position f,
   AlibabaFeatures.end_position f, AlibabaFeatures.is_impossible f).

(** The tokenizer with another declared padding side. *)
Definition with_padding_side (side : string) (tokenizer : Tokenizer.t) : Tokenizer.t :=
  Tokenizer.mk (Tokenizer.tokenize tokenizer) (Tokenizer.encode tokenizer)
    (Tokenizer.encode_plus tokenizer) (Tokenizer.convert_ids_to_tokens tokenizer)
    (Tokenizer.get_special_tokens_mask tokenizer) (Tokenizer.max_len tokenizer)
    (Tokenizer.max_len_single_sentence tokenizer)
    (Tokenizer.max_len_sentences_pair tokenizer) (Tokenizer.pad_token_id tokenizer)
    (Tokenizer.cls_token_id tokenizer) side (Tokenizer.type_name tokenizer).

(** The mask as the specification words it: every position 1, then the
    positions of the context tokens 0, then the pad and the special
    positions 1 again, and last the CLS position 0. *)
Definition p_mask_by_spec (n : nat) (context_positions pad_positions special_positions : list nat)
    (cls_index : nat) : option (list Z) :=
  let p_mask := replicate n 1 in
  p_mask ← Np.set_all p_mask context_positions 0;
  p_mask ← Np.set_all p_mask pad_positions 1;
  p_mask ← Np.set_all p_mask special_positions 1;
  Np.set_at p_mask cls_index 0.

(** The token span [ts .. te] of the answer lies inside the window. *)
Definition gold_inside (sp : Span.t) (ts te : Z) : Prop :=
  Span.start sp <= ts /\ te <= Span.start sp + Span.length sp - 1.

(** ** Windows read back from dicts *)

(** The window that a dict carrying both keys presents. *)
Definition window_of_dict (d : gmap string Z) : DocSpan.t :=
  DocSpan.mk (default 0 (d !! "start"%string)) (default 0 (d !! "length"%string)).

(** The dict lacks one of the two keys that the resolver reads. *)
Definition lacks_key (d : gmap string Z) : Prop :=
  d !! "start"%string = None \/ d !! "length"%string = None.

(** The index that the loop holds is the index of a window seen so far
    that covers the position. *)
Definition index_inv {F : Type} (seen : list DocSpan.t) (position : Z)
    (st : option F * option nat) : Prop :=
  match st.2 with
  | None => True
  | Some b => exists sp, seen !! b = Some sp /\ covers sp position
  end.

(** ** What the slicing loop keeps *)

(** Every window of the list was made by an iteration that saw the windows
    before it, and was started inside the context. *)
Definition made_by_loop (tokenizer : Tokenizer.t) (doc_tokens : list string)
    (truncated_query : list Z) (max_seq_length doc_stride : Z)
    (spans : list Span.t) : Prop :=
  forall k sp, spans !! k = Some sp ->
    Z.of_nat k * doc_stride < Py.len doc_tokens /\
    exists span_doc_tokens,
      sp = make_span tokenizer doc_tokens truncated_query max_seq_length doc_stride
             (take k spans) span_doc_tokens.

(** ** What the max-context pass writes *)

(** The window with another [token_is_max_context] map. *)
Definition with_max_context (m : gmap Z bool) (sp : Span.t) : Span.t :=
  Span.mk (Span.input_ids sp) (Span.attention_mask sp) (Span.token_type_ids sp)
    (Span.overflowing_tokens sp) (Span.paragraph_len sp) (Span.tokens sp)
    (Span.token_to_orig_map sp) (Span.truncated_query_with_special_tokens_length sp)
    m (Span.start sp) (Span.length sp).

(** The key of the first context token of a window in its
    [token_is_max_context] map (lines 163-167 with [j = 0]). *)
Definition key_base (tokenizer : Tokenizer.t) (sp : Span.t) : Z :=
  if bool_decide (Tokenizer.padding_side tokenizer = "left"%string) then 0
  else Span.truncated_query_with_special_tokens_length sp.

(** The map of window number [i] after its inner loop, when the windows
    of the list are [windows]. *)
Definition marked_map {F : Type} `{ScoreArith F} (tokenizer : Tokenizer.t) (doc_stride : Z)
    (windows : list DocSpan.t) (i : nat) (sp : Span.t) (m : gmap Z bool) (js : list Z)
    : gmap Z bool :=
  foldl (fun m j =>
           <[key_base tokenizer sp + j :=
               _check_is_max_context (F:=F) windows i (Z.of_nat i * doc_stride + j)]> m)
        m js.

Definition marked_span {F : Type} `{ScoreArith F} (tokenizer : Tokenizer.t) (doc_stride : Z)
    (windows : list DocSpan.t) (i : nat) (sp : Span.t) : Span.t :=
  with_max_context
    (marked_map (F:=F) tokenizer doc_stride windows i sp (Span.token_is_max_context sp)
       (Py.zrange (Span.paragraph_len sp)))
    sp.

(** The loop holds an index exactly when it holds a score, and it holds
    none only while no window seen so far covers the position. *)
Definition covered_inv {F : Type} (seen : list DocSpan.t) (position : Z)
    (st : option F * option nat) : Prop :=
  (st.1 = None <-> st.2 = None) /\
  (st.2 = None -> forall w sp, seen !! w = Some sp -> ~ covers sp position).

(** ** More sample inputs *)

(** An answerable question on a context of twelve tokens. *)
Definition long_example : AlibabaExample.t :=
  AlibabaExample.mk 8 (Some "abc"%string) "uvwxyzuvwxyz"%string (Some "wx"%string)
    "t"%string false false [] 2 3.

(** ** A well-formed tokenizer *)

(** Every encoding has as many token type ids as input ids and holds the
    CLS token, and the special-tokens mask of a sequence has its length. *)
Definition well_formed (tokenizer : Tokenizer.t) : Prop :=
  (forall query pair max_length stride,
     let e := Tokenizer.encode_plus tokenizer query pair max_length stride in
     length (Encoding.token_type_ids e) = length (Encoding.input_ids e) /\
     Tokenizer.cls_token_id tokenizer ∈ Encoding.input_ids e) /\
  (forall ids, length (Tokenizer.get_special_tokens_mask tokenizer ids) = length ids).

(** ** When [_create_examples] raises *)

(** A [qa] on which the loop body raises: it is answerable and has no
    answer, and either the mode is training ([qa["answers"][0]], line 476)
    or its question is not empty ([max] of an empty list, line 511). *)
Definition raises (is_training : bool) (qa : Raw.qa) : bool :=
  negb (Raw.is_impossible qa)
  && bool_decide (Raw.answers qa = [])
  && (is_training || Py.truthy (Raw.question qa)).

(** The loop body for one [qa]: lines 466-511. *)
Definition qa_step (is_training : bool) (title context_text : string)
    (st : Processor.state) (qa : Raw.qa) : option Processor.state :=
  example ← Processor.build_example is_training title context_text qa;
  Processor.record_example is_training st example.

(** What [_create_examples] guarantees of an example that it returns. *)
Definition accepted (is_training : bool) (example : AlibabaExample.t) : Prop :=
  Py.truthy (AlibabaExample.question_text example) = true /\
  (is_training = true -> AlibabaExample.is_impossible example = false ->
   exists answer_text,
     AlibabaExample.answer_text example = Some answer_text /\
     Py.str_slice (AlibabaExample.context_text example)
       (AlibabaExample.start_position example)
       (AlibabaExample.end_position example + 1) = answer_text) /\
  (is_training = false ->
   AlibabaExample.answer_text example = None /\
   AlibabaExample.start_position example = 0 /\
   AlibabaExample.end_position example = 0).

(** * Properties *)

(** ** Span aligner *)

Example improve_answer_span_ex1 :
  _improve_answer_span ["a"; "b"; "c"; "b"; "c"]%string ["b"; "c"]%string 7 9 = (1, 2).
Proof. vm_compute. reflexivity. Qed.

Example improve_answer_span_ex2 :
  _improve_answer_span ["ab"%string; EmptyString; "c"%string] ["a"; "b"]%string 7 9 = (0, 1).
Proof. vm_compute. reflexivity. Qed.

Example improve_answer_span_ex3 :
  _improve_answer_span ["a"; "b"]%string ["c"]%string 7 9 = (7, 9).
Proof. vm_compute. reflexivity. Qed.

Section SpanAligner.
Variables doc_tokens answer_tokens : list string.

Local Abbreviation spells := (spells doc_tokens answer_tokens).

Lemma span_matches_spells s e :
  span_matches doc_tokens answer_tokens s e = true <-> spells s e.
Proof. unfold span_matches, spells. apply bool_decide_eq_true. Qed.

Lemma span_matches_not_spells s e :
  span_matches doc_tokens answer_tokens s e = false <-> ~ spells s e.
Proof. unfold span_matches, spells. apply bool_decide_eq_false. Qed.

Lemma rev_seq_S lo k : rev (seq lo (S k)) = (lo + k)%nat :: rev (seq lo k).
Proof. rewrite seq_S, rev_app_distr. reflexivity. Qed.

(** The inner loop over [lo + k - 1, ..., lo] stops at the highest match. *)
Lemma scan_ends_down_Some s lo k r :
  scan_ends doc_tokens answer_tokens s (rev (seq lo k)) = Some r ->
  exists e, r = (s, e) /\ (lo <= e < lo + k)%nat /\ spells s e /\
            forall e', (e < e' < lo + k)%nat -> ~ spells s e'.
Proof.
  induction k as [|k IH]; [discriminate|].
  rewrite rev_seq_S. simpl.
  destruct (span_matches doc_tokens answer_tokens s (lo + k)) eqn:Hm.
  - intros [= <-]. exists (lo + k)%nat.
    apply span_matches_spells in Hm. repeat split; auto; lia.
  - intros Hr. destruct (IH Hr) as (e & -> & Hb & He & Hmax).
    exists e. repeat split; auto; try lia.
    intros e' He'. destruct (decide (e' = lo + k)%nat) as [->|Hne].
    + now apply span_matches_not_spells.
    + apply Hmax. lia.
Qed.

Lemma scan_ends_down_None s lo k :
  scan_ends doc_tokens answer_tokens s (rev (seq lo k)) = None ->
  forall e, (lo <= e < lo + k)%nat -> ~ spells s e.
Proof.
  induction k as [|k IH]; [intros _ e; lia|].
  rewrite rev_seq_S. simpl.
  destruct (span_matches doc_tokens answer_tokens s (lo + k)) eqn:Hm; [discriminate|].
  intros Hr e He. destruct (decide (e = lo + k)%nat) as [->|Hne].
  - now apply span_matches_not_spells.
  - apply IH; [assumption|lia].
Qed.

(** The ends visited for a start [s] below the length are [s .. len-1]. *)
Lemma range_down_ends s :
  (s < length doc_tokens)%nat ->
  Py.range_down (length doc_tokens - 1) s = rev (seq s (length doc_tokens - s)).
Proof. intros Hs. unfold Py.range_down. do 2 f_equal. lia. Qed.

(** The outer loop over [a, ..., a + k - 1] stops at the lowest start
    that has a match. *)
Lemma scan_starts_up_Some a k r :
  (a + k <= length doc_tokens)%nat ->
  scan_starts doc_tokens answer_tokens (seq a k) = Some r ->
  exists s e, r = (s, e) /\ (a <= s < a + k)%nat /\ (s <= e < length doc_tokens)%nat /\
    spells s e /\
    (forall e', (e < e' < length doc_tokens)%nat -> ~ spells s e') /\
    (forall s' e', (a <= s' < s)%nat -> (s' <= e' < length doc_tokens)%nat -> ~ spells s' e').
Proof.
  revert a. induction k as [|k IH]; intros a Hk; [discriminate|].
  simpl. rewrite range_down_ends by lia.
  destruct (scan_ends _ _ a _) as [r'|] eqn:Hin.
  - intros [= <-]. apply scan_ends_down_Some in Hin as (e & -> & Hb & He & Hmax).
    exists a, e. repeat split; auto; try lia.
    intros e' He'. apply Hmax. lia.
  - intros Hr. apply IH in Hr as (s & e & -> & Hs & Hb & He & Hmax & Hmin); [|lia].
    exists s, e. repeat split; auto; try lia.
    intros s' e' Hs' He'. destruct (decide (s' = a)) as [->|Hne].
    + apply (scan_ends_down_None _ _ _ Hin). lia.
    + apply Hmin; lia.
Qed.

Lemma scan_starts_up_None a k :
  (a + k <= length doc_tokens)%nat ->
  scan_starts doc_tokens answer_tokens (seq a k) = None ->
  forall s e, (a <= s < a + k)%nat -> (s <= e < length doc_tokens)%nat -> ~ spells s e.
Proof.
  revert a. induction k as [|k IH]; intros a Hk; [intros _ s e; lia|].
  simpl. rewrite range_down_ends by lia.
  destruct (scan_ends _ _ a _) as [r'|] eqn:Hin; [discriminate|].
  intros Hr s e Hs He. destruct (decide (s = a)) as [->|Hne].
  - apply (scan_ends_down_None _ _ _ Hin). lia.
  - apply (IH (S a)); auto; lia.
Qed.

(** C2. When some slice [doc_tokens[s..e]] concatenates to the
    concatenation of [answer_tokens], [_improve_answer_span] returns the
    pair with the smallest such start and, for that start, the largest
    matching end, and the returned slice spells the answer; when no
    slice matches it returns the fallback pair unchanged. *)
Theorem improve_answer_span_first_match (input_start input_end : Z) :
  ((exists s e, (s <= e < length doc_tokens)%nat /\ spells s e) ->
   exists s0 e0,
     _improve_answer_span doc_tokens answer_tokens input_start input_end
       = (Z.of_nat s0, Z.of_nat e0) /\
     (s0 <= e0 < length doc_tokens)%nat /\
     spells s0 e0 /\
     (forall s e, (s <= e < length doc_tokens)%nat -> spells s e -> (s0 <= s)%nat) /\
     (forall e, (s0 <= e < length doc_tokens)%nat -> spells s0 e -> (e <= e0)%nat))
  /\
  ((forall s e, (s <= e < length doc_tokens)%nat -> ~ spells s e) ->
   _improve_answer_span doc_tokens answer_tokens input_start input_end
     = (input_start, input_end)).
Proof.
  unfold _improve_answer_span, Py.range. rewrite Nat.sub_0_r.
  destruct (scan_starts _ _ _) as [[s0 e0]|] eqn:Hscan.
  - apply scan_starts_up_Some in Hscan as (s & e & [= -> ->] & Hs & Hb & He & Hmax & Hmin);
      [|lia].
    split.
    + intros _. exists s, e. repeat split; auto; try lia.
      * intros s' e' Hb' Hsp. destruct (decide (s <= s')%nat); [assumption|].
        exfalso. apply (Hmin s' e'); auto; lia.
      * intros e' Hb' Hsp. destruct (decide (e' <= e)%nat); [assumption|].
        exfalso. apply (Hmax e'); auto; lia.
    + intros Hno. exfalso. apply (Hno s e); auto.
  - split.
    + intros (s & e & Hb & Hsp). exfalso.
      apply (scan_starts_up_None 0 (length doc_tokens)) with (s := s) (e := e); auto; lia.
    + reflexivity.
Qed.

End SpanAligner.

Lemma improve_answer_span_first_match_witness :
  exists s0 e0,
    _improve_answer_span ["a"; "b"; "c"; "b"; "c"]%string ["b"; "c"]%string 7 9
      = (Z.of_nat s0, Z.of_nat e0) /\
    (s0 <= e0 < 5)%nat /\
    spells ["a"; "b"; "c"; "b"; "c"]%string ["b"; "c"]%string s0 e0.
Proof.
  destruct (improve_answer_span_first_match
              ["a"; "b"; "c"; "b"; "c"]%string ["b"; "c"]%string 7 9) as [Hfound _].
  destruct Hfound as (s0 & e0 & Heq & Hb & Hsp & _).
  - exists 1%nat, 2%nat. split; [simpl; lia | reflexivity].
  - exists s0, e0. auto.
Defined.

(** ** Max-context resolver *)

Lemma Q_fgt_spec (a b : Q) : fgt a b = true <-> (b < a)%Q.
Proof.
  simpl. rewrite negb_true_iff, <- not_true_iff_false, Qle_bool_iff.
  split; [apply Qnot_le_lt | apply Qlt_not_le].
Qed.

Lemma Q_fgt_spec_false (a b : Q) : fgt a b = false <-> (a <= b)%Q.
Proof. simpl. rewrite negb_false_iff. apply Qle_bool_iff. Qed.

#[export] Instance Q_ScoreOrder : ScoreOrder Q.
Proof.
  split.
  - intros a _. apply Q_fgt_spec_false, Qle_refl.
  - intros a b c _ _ _. rewrite !Q_fgt_spec. intros Hab Hbc. eapply Qlt_trans; eauto.
  - intros a b c _ _ _. rewrite !Q_fgt_spec_false. intros Hab Hbc. eapply Qle_trans; eauto.
Qed.

(** *** Binary64 scores *)

(** The constant of the model is the double that the literal denotes. *)
Lemma float_001_literal : Prim2SF 0x1.47ae147ae147bp-7%float = float_001.
Proof. vm_compute. reflexivity. Qed.

(** The comparison of doubles is a strict order, and a number lies on one
    side at least of two ordered doubles. *)
Lemma SFltb_irrefl x : SFltb x x = false.
Proof.
  unfold SFltb, SFcompare. destruct x as [[]|[]| |[] m e]; try reflexivity;
    rewrite Z.compare_refl, Pos.compare_cont_refl; reflexivity.
Qed.

Lemma SFltb_finite s1 m1 e1 s2 m2 e2 :
  SFltb (S754_finite s1 m1 e1) (S754_finite s2 m2 e2) = true <->
  (s1 = true /\ s2 = false) \/
  (s1 = false /\ s2 = false /\ (e1 < e2 \/ (e1 = e2 /\ (m1 < m2)%positive))) \/
  (s1 = true /\ s2 = true /\ (e2 < e1 \/ (e1 = e2 /\ (m2 < m1)%positive))).
Proof.
  unfold SFltb, SFcompare.
  change (Pos.compare_cont Eq m1 m2) with (Pos.compare m1 m2).
  destruct s1, s2; destruct (Z.compare_spec e1 e2); destruct (Pos.compare_spec m1 m2);
    simpl; split; intros Hx; try discriminate; try reflexivity;
    try (subst; intuition (try discriminate; try lia)).
Qed.

Local Ltac sf_cases :=
  repeat match goal with
         | H : SFltb (S754_finite _ _ _) (S754_finite _ _ _) = true |- _ =>
             apply SFltb_finite in H
         | |- SFltb (S754_finite _ _ _) (S754_finite _ _ _) = true =>
             apply SFltb_finite
         | |- SFltb (S754_finite _ _ _) (S754_finite _ _ _) = true \/ _ =>
             rewrite !SFltb_finite
         | |- _ \/ SFltb (S754_finite _ _ _) (S754_finite _ _ _) = true =>
             rewrite !SFltb_finite
         end.

Lemma SFltb_trans x y z : SFltb x y = true -> SFltb y z = true -> SFltb x z = true.
Proof.
  destruct x as [sx|sx| |sx mx ex], y as [sy|sy| |sy my ey], z as [sz|sz| |sz mz ez];
    intros Hxy Hyz; try discriminate; sf_cases;
    try (destruct sx); try (destruct sy); try (destruct sz);
    try discriminate; try reflexivity;
    try (simpl in *; intuition (try discriminate; try lia)).
Qed.

Lemma SFltb_between x y z :
  y <> S754_nan -> SFltb x z = true -> SFltb x y = true \/ SFltb y z = true.
Proof.
  destruct x as [sx|sx| |sx mx ex], y as [sy|sy| |sy my ey], z as [sz|sz| |sz mz ez];
    intros Hy Hxz; try discriminate; try congruence; sf_cases;
    try (destruct sx); try (destruct sy); try (destruct sz);
    try discriminate; try (left; reflexivity); try (right; reflexivity);
    try (simpl in *; intuition (try discriminate; try lia)).
Qed.

Lemma shr_1_nonneg mrs : 0 <= shr_m mrs -> 0 <= shr_m (shr_1 mrs).
Proof.
  destruct mrs as [m r s]. simpl. intros Hm.
  destruct m as [|[p|p|]|p]; simpl; lia.
Qed.

Lemma iter_shr_1_nonneg p :
  forall mrs, 0 <= shr_m mrs -> 0 <= shr_m (SpecFloat.iter_pos shr_1 p mrs).
Proof.
  induction p as [p IH|p IH|]; intros mrs Hm; simpl.
  - apply IH, IH, shr_1_nonneg, Hm.
  - apply IH, IH, Hm.
  - apply shr_1_nonneg, Hm.
Qed.

Lemma shr_fexp_nonneg prec emax m e l :
  0 <= m -> 0 <= shr_m (fst (shr_fexp prec emax m e l)).
Proof.
  intros Hm. unfold shr_fexp, shr.
  assert (H0 : 0 <= shr_m (shr_record_of_loc m l)) by (destruct l as [|[]]; exact Hm).
  destruct (fexp prec emax (Zdigits2 m + e) - e); simpl; auto using iter_shr_1_nonneg.
Qed.

Lemma round_nearest_even_nonneg m l : 0 <= m -> 0 <= round_nearest_even m l.
Proof.
  intros Hm. unfold round_nearest_even.
  destruct l as [|[]]; try destruct (Z.even m); lia.
Qed.

(** Rounding a non-negative mantissa gives a number of the sign asked,
    never NaN. *)
Lemma binary_round_aux_has_sign prec emax sx mx ex lx :
  0 <= mx -> has_sign sx (binary_round_aux prec emax sx mx ex lx).
Proof.
  intros Hm. unfold binary_round_aux.
  pose proof (shr_fexp_nonneg prec emax mx ex lx Hm) as H1.
  destruct (shr_fexp prec emax mx ex lx) as [mrs' e']. simpl in H1.
  pose proof (shr_fexp_nonneg prec emax _ e' loc_Exact
                (round_nearest_even_nonneg _ (loc_of_shr_record mrs') H1)) as H2.
  destruct (shr_fexp prec emax _ e' loc_Exact) as [mrs'' e'']. simpl in H2.
  destruct (shr_m mrs'') as [|m|m]; [reflexivity| |lia].
  destruct (e'' <=? emax - prec); reflexivity.
Qed.

Lemma binary_round_has_sign prec emax sx mx ex :
  has_sign sx (binary_round prec emax sx mx ex).
Proof.
  unfold binary_round. destruct (shl_align _ _ _) as [mz ez].
  apply binary_round_aux_has_sign. lia.
Qed.

Lemma float_of_int_has_sign z : 0 <= z -> has_sign false (float_of_int z).
Proof.
  intros Hz. unfold float_of_int, binary_normalize.
  destruct z as [|p|p]; [reflexivity|apply binary_round_has_sign|lia].
Qed.

Lemma SFmul_001_has_sign y : has_sign false y -> has_sign false (SFmul 53 1024 float_001 y).
Proof.
  destruct y as [s|s| |s m e]; simpl; intros Hy; try contradiction; subst; try reflexivity.
  apply (binary_round_aux_has_sign 53 1024 false). lia.
Qed.

Lemma SFadd_has_sign x y :
  has_sign false x -> has_sign false y -> has_sign false (SFadd 53 1024 x y).
Proof.
  destruct x as [sx|sx| |sx mx ex], y as [sy|sy| |sy my ey]; simpl;
    intros Hx Hy; try contradiction; subst; try reflexivity.
  unfold binary_normalize, cond_Zopp.
  destruct (Z.pos _ + Z.pos _) eqn:Hsum; [reflexivity|apply binary_round_has_sign|lia].
Qed.

Lemma has_sign_not_nan s x : has_sign s x -> x <> S754_nan.
Proof. intros Hx ->. exact Hx. Qed.

(** The score of a window at a position that it covers is a non-negative
    double or [+inf], never NaN: both operands of the sum are
    non-negative. *)
Lemma float_score_has_sign (x : spec_float) : is_score x -> has_sign false x.
Proof.
  intros (start & length & position & Hc & ->). unfold span_score.
  cbn [of_int fadd fmul f001 Float_ScoreArith].
  apply SFadd_has_sign; [apply float_of_int_has_sign; lia|].
  apply SFmul_001_has_sign, float_of_int_has_sign. lia.
Qed.

#[export] Instance Float_ScoreOrder : ScoreOrder spec_float.
Proof.
  split.
  - intros a _. apply SFltb_irrefl.
  - intros a b c _ _ _ Hab Hbc. exact (SFltb_trans c b a Hbc Hab).
  - intros a b c _ Hb _ Hab Hbc. cbn [fgt Float_ScoreArith] in *.
    destruct (SFltb c a) eqn:Hca; [|reflexivity].
    destruct (SFltb_between c b a) as [Hx|Hx]; [|exact Hca| |]; [|congruence|congruence].
    eapply has_sign_not_nan, float_score_has_sign, Hb.
Qed.

Section MaxContextFacts.
Context {F : Type} `{ScoreOrder F}.

Lemma enumerate_from_cons {A} k (x : A) l :
  enumerate_from k (x :: l) = (k, x) :: enumerate_from (S k) l.
Proof. reflexivity. Qed.

(** The dict-access loop computes what the attribute-access loop does,
    and raises no KeyError, on dicts that carry start and length. *)
Lemma new_check_loop_presents position dicts doc_spans :
  Forall2 presents dicts doc_spans ->
  forall k st,
    new_check_loop position st (enumerate_from k dicts)
    = Some (check_loop position st (enumerate_from k doc_spans)).
Proof.
  induction 1 as [|d sp dicts doc_spans [Hs Hl] _ IH]; intros k st; [reflexivity|].
  rewrite !enumerate_from_cons. simpl. rewrite Hs, Hl. simpl. apply IH.
Qed.

Lemma new_check_presents position dicts doc_spans cur_span_index :
  Forall2 presents dicts doc_spans ->
  _new_check_is_max_context dicts cur_span_index position
  = Some (_check_is_max_context doc_spans cur_span_index position).
Proof.
  intros HP. unfold _new_check_is_max_context, _check_is_max_context.
  rewrite (new_check_loop_presents position _ _ HP). simpl.
  destruct (check_loop _ _ _) as [bs bi]. reflexivity.
Qed.

Lemma score_of_is_score sp position :
  covers sp position -> is_score (score_of (F:=F) sp position).
Proof. intros Hc. eexists _, _, _. split; [exact Hc|reflexivity]. Qed.

Lemma covers_dec_step position st i sp :
  max_context_step position st i (DocSpan.start sp) (DocSpan.length sp)
  = if decide (covers sp position)
    then if match fst st with
            | None => true
            | Some best_score => fgt (score_of sp position) best_score
            end
         then (Some (score_of sp position), Some i) else st
    else st.
Proof.
  unfold max_context_step, covers, score_of.
  destruct (Z.ltb_spec position (DocSpan.start sp)).
  { rewrite decide_False by lia. reflexivity. }
  rewrite Z.gtb_ltb.
  destruct (Z.ltb_spec (DocSpan.start sp + DocSpan.length sp - 1) position).
  { rewrite decide_False by lia. reflexivity. }
  rewrite decide_True by lia. reflexivity.
Qed.

(** One more window keeps the invariant. *)
Lemma best_inv_step seen position st sp :
  best_inv seen position st ->
  best_inv (seen ++ [sp]) position
    (max_context_step position st (length seen) (DocSpan.start sp) (DocSpan.length sp)).
Proof.
  intros Hinv. rewrite covers_dec_step.
  destruct st as [[sc|] [b|]]; simpl in *; try contradiction.
  - destruct Hinv as [(sb & Hb & Hcb & Hmax & Hfirst) Hsc].
    pose proof (lookup_lt_Some _ _ _ Hb) as Hlt.
    rewrite (Hsc _ Hb) in *.
    assert (Hkeep : first_best (F:=F) (seen ++ [sp]) position b /\
              (forall sb0, (seen ++ [sp]) !! b = Some sb0 -> score_of sb position = score_of sb0 position)
              \/ ~ (covers sp position /\ fgt (score_of (F:=F) sp position) (score_of sb position) = false)).
    { destruct (decide (covers sp position /\ fgt (score_of (F:=F) sp position) (score_of sb position) = false))
        as [[Hc Hf]|Hn]; [left|right; exact Hn].
      split.
      - exists sb. split; [by rewrite lookup_app_l|]. split; [assumption|]. split.
        + intros w s Hw Hc'. apply lookup_app_Some in Hw as [Hw|[Hge Hw]].
          * eauto.
          * apply list_lookup_singleton_Some in Hw as [_ <-]. exact Hf.
        + intros w s Hwb Hw Hc'. rewrite lookup_app_l in Hw by lia. eauto.
      - intros sb0. rewrite lookup_app_l by lia. rewrite Hb. by intros [= <-]. }
    destruct (decide (covers sp position)) as [Hc|Hc].
    + destruct (fgt (score_of sp position) (score_of sb position)) eqn:Hgt.
      * simpl. split.
        -- exists sp. split; [by rewrite lookup_app_r, Nat.sub_diag|].
           split; [assumption|]. split.
           ++ intros w s Hw Hc'. apply lookup_app_Some in Hw as [Hw|[Hge Hw]].
              ** destruct (fgt (score_of s position) (score_of sp position)) eqn:Hgt'; [|reflexivity].
                 rewrite <- (Hmax w s Hw Hc'). symmetry.
                   eapply (fgt_trans _ (score_of sp position)); eauto using score_of_is_score.
              ** apply list_lookup_singleton_Some in Hw as [_ <-].
                   by apply fgt_irrefl, score_of_is_score.
           ++ intros w s Hw' Hw Hc'. rewrite lookup_app_l in Hw by lia.
              destruct (fgt (score_of sp position) (score_of s position)) eqn:Hgt'; [reflexivity|].
              rewrite <- Hgt. symmetry.
                eapply (fgt_negtrans _ (score_of s position)); eauto using score_of_is_score.
        -- intros sb0. rewrite lookup_app_r, Nat.sub_diag by lia. by intros [= <-].
      * destruct Hkeep as [Hk|Hn]; [exact Hk|]. exfalso. apply Hn. by split.
    + destruct Hkeep as [Hk|Hn]; [exact Hk|].
      destruct (decide (covers sp position /\ fgt (score_of (F:=F) sp position) (score_of sb position) = false))
        as [[Hc' _]|_]; [contradiction|].
      split.
      * exists sb. split; [by rewrite lookup_app_l|]. split; [assumption|]. split.
        -- intros w s Hw Hc'. apply lookup_app_Some in Hw as [Hw|[Hge Hw]]; [eauto|].
           apply list_lookup_singleton_Some in Hw as [_ <-]. contradiction.
        -- intros w s Hwb Hw Hc'. rewrite lookup_app_l in Hw by lia. eauto.
      * intros sb0. rewrite lookup_app_l by lia. rewrite Hb. by intros [= <-].
  - destruct (decide (covers sp position)) as [Hc|Hc]; simpl.
    + split.
      * exists sp. split; [by rewrite lookup_app_r, Nat.sub_diag|].
        split; [assumption|]. split.
        -- intros w s Hw Hc'. apply lookup_app_Some in Hw as [Hw|[Hge Hw]].
           ++ exfalso. eapply Hinv; eauto.
           ++ apply list_lookup_singleton_Some in Hw as [_ <-].
                by apply fgt_irrefl, score_of_is_score.
        -- intros w s Hw' Hw Hc'. rewrite lookup_app_l in Hw by lia.
           exfalso. eapply Hinv; eauto.
      * intros sb0. rewrite lookup_app_r, Nat.sub_diag by lia. by intros [= <-].
    + intros w s Hw. apply lookup_app_Some in Hw as [Hw|[Hge Hw]]; [eauto|].
      by apply list_lookup_singleton_Some in Hw as [_ <-].
Qed.

Lemma check_loop_inv position rest :
  forall seen st,
    best_inv seen position st ->
    best_inv (seen ++ rest) position
      (check_loop position st (enumerate_from (length seen) rest)).
Proof.
  induction rest as [|sp rest IH]; intros seen st Hinv.
  - by rewrite app_nil_r.
  - rewrite enumerate_from_cons. simpl.
    rewrite cons_middle, app_assoc.
    replace (S (length seen)) with (length (seen ++ [sp]))
      by (rewrite length_app; simpl; lia).
    apply IH, best_inv_step, Hinv.
Qed.

Lemma check_loop_result doc_spans position :
  best_inv doc_spans position
    (check_loop position (None, None) (enumerate_from 0 doc_spans)).
Proof.
  apply (check_loop_inv position doc_spans [] (None, None)).
  intros w s Hw. by rewrite lookup_nil in Hw.
Qed.

(** The attribute-access resolver: the owner of a covered position is the
    first best window, and an uncovered position has no owner. *)
Lemma check_is_max_context_spec doc_spans position :
  ((exists w sp, doc_spans !! w = Some sp /\ covers sp position) ->
   exists b, first_best (F:=F) doc_spans position b /\
     forall w, _check_is_max_context doc_spans w position = bool_decide (w = b))
  /\
  ((forall w sp, doc_spans !! w = Some sp -> ~ covers sp position) ->
   forall w, _check_is_max_context (F:=F) doc_spans w position = false).
Proof.
  pose proof (check_loop_result doc_spans position) as Hinv.
  unfold _check_is_max_context.
  destruct (check_loop _ _ _) as [[sc|] [b|]]; simpl in Hinv; try contradiction.
  - destruct Hinv as [Hfb _]. split.
    + intros _. exists b. split; [assumption|]. intros w. simpl.
      destruct (Nat.eqb_spec w b) as [->|Hne].
      * by rewrite bool_decide_eq_true_2.
      * by rewrite bool_decide_eq_false_2.
    + intros Hno. exfalso. destruct Hfb as (sb & Hb & Hc & _). eapply Hno; eauto.
  - split.
    + intros (w & sp & Hw & Hc). exfalso. eapply Hinv; eauto.
    + reflexivity.
Qed.

(** The score of the loop is the score of the contract. *)
Lemma score_of_by_spec sp position :
  score_of (F:=F) sp position = score_by_spec sp position.
Proof. reflexivity. Qed.

Lemma first_best_highest doc_spans position b :
  first_best (F:=F) doc_spans position b -> first_highest (F:=F) doc_spans position b.
Proof.
  intros (sb & Hb & Hc & Hmax & Hfirst). exists sb.
  split; [exact Hb|]. split; [exact Hc|]. split.
  - intros k w Hk Hw. rewrite <- !score_of_by_spec. exact (Hmax k w Hk Hw).
  - intros k w Hlt Hk Hw. rewrite <- !score_of_by_spec. exact (Hfirst k w Hlt Hk Hw).
Qed.

(** C4. For a position covered by some window
    ([start <= position <= start + length - 1]), exactly one window index
    makes [_new_check_is_max_context] return true: the index of the first
    window, in list order, that attains the highest score
    [min(position - start, start + length - 1 - position) + 0.01 * length]
    among the covering windows.  For a position that no window covers,
    every window index returns false.  The score is evaluated in the
    arithmetic of the code; the statement holds for every arithmetic whose
    [>] is a strict weak order on the scores, as the comparison of doubles
    is. *)
Theorem max_context_owner_unique
    (windows : list (gmap string Z)) (doc_spans : list DocSpan.t) (position : Z) :
  Forall2 presents windows doc_spans ->
  ((exists w sp, doc_spans !! w = Some sp /\
      DocSpan.start sp <= position <= DocSpan.start sp + DocSpan.length sp - 1) ->
   exists b, (b < length windows)%nat /\
     first_highest (F:=F) doc_spans position b /\
     forall w, _new_check_is_max_context windows w position = Some (bool_decide (w = b)))
  /\
  ((forall w sp, doc_spans !! w = Some sp ->
      ~ DocSpan.start sp <= position <= DocSpan.start sp + DocSpan.length sp - 1) ->
   forall w, _new_check_is_max_context (F:=F) windows w position = Some false).
Proof.
  intros HP. destruct (check_is_max_context_spec doc_spans position) as [Hcov Hunc].
  split.
  - intros Hex. destruct (Hcov Hex) as (b & Hfb & Hb). exists b.
    split; [|split; [by apply first_best_highest|]].
    + destruct Hfb as (sb & Hlk & _). apply lookup_lt_Some in Hlk.
      by rewrite (Forall2_length _ _ _ HP).
    + intros w. by rewrite (new_check_presents position _ _ w HP), Hb.
  - intros Hno w. by rewrite (new_check_presents position _ _ w HP), Hunc.
Qed.

End MaxContextFacts.

(** C10. On the same start and length data, presented as attributes
    to [_check_is_max_context] and as dict entries to
    [_new_check_is_max_context], the two resolvers return the same
    boolean for every window index and position. *)
Theorem check_is_max_context_agree {F : Type} `{ScoreArith F}
    (windows : list (gmap string Z)) (doc_spans : list DocSpan.t)
    (cur_span_index : nat) (position : Z) :
  Forall2 presents windows doc_spans ->
  _new_check_is_max_context (F:=F) windows cur_span_index position
  = Some (_check_is_max_context doc_spans cur_span_index position).
Proof. apply new_check_presents. Qed.

Lemma presents_span_as_dict doc_spans :
  Forall2 presents (span_as_dict <$> doc_spans) doc_spans.
Proof.
  induction doc_spans as [|sp l IH]; constructor; [|exact IH].
  split; reflexivity.
Qed.

Lemma check_is_max_context_agree_witness :
  _new_check_is_max_context (F:=Q)
    (span_as_dict <$> [DocSpan.mk 0 4; DocSpan.mk 2 4]) 1 3
  = Some (_check_is_max_context (F:=Q) [DocSpan.mk 0 4; DocSpan.mk 2 4] 1 3).
Proof.
  apply (check_is_max_context_agree (F:=Q)
           (span_as_dict <$> [DocSpan.mk 0 4; DocSpan.mk 2 4])
           [DocSpan.mk 0 4; DocSpan.mk 2 4] 1 3).
  apply presents_span_as_dict.
Defined.

Lemma max_context_owner_unique_witness :
  exists b, (b < 2)%nat /\
    first_highest (F:=spec_float) [DocSpan.mk 9 13; DocSpan.mk 10 113] 10 b /\
    forall w, _new_check_is_max_context (F:=spec_float)
                (span_as_dict <$> [DocSpan.mk 9 13; DocSpan.mk 10 113]) w 10
              = Some (bool_decide (w = b)).
Proof.
  destruct (max_context_owner_unique (F:=spec_float)
              (span_as_dict <$> [DocSpan.mk 9 13; DocSpan.mk 10 113])
              [DocSpan.mk 9 13; DocSpan.mk 10 113] 10
              (presents_span_as_dict _)) as [Hcov _].
  destruct Hcov as (b & Hlt & Hfh & Hb).
  - exists 0%nat, (DocSpan.mk 9 13). split; [reflexivity|]. simpl; lia.
  - exists b. split; [exact Hlt|]. split; [exact Hfh | exact Hb].
Defined.

Example max_context_ex1 :
  _new_check_is_max_context (F:=Q)
    (span_as_dict <$> [DocSpan.mk 0 4; DocSpan.mk 2 4]) 1 3 = Some true.
Proof. vm_compute. reflexivity. Qed.

(** A tie keeps the window that was scored first. *)
Example max_context_tie :
  _new_check_is_max_context (F:=Q)
    (span_as_dict <$> [DocSpan.mk 0 5; DocSpan.mk 0 5]) 0 2 = Some true /\
  _new_check_is_max_context (F:=Q)
    (span_as_dict <$> [DocSpan.mk 0 5; DocSpan.mk 0 5]) 1 2 = Some false.
Proof. vm_compute. split; reflexivity. Qed.

(** ** Examples *)

Example example_init_ex1 :
  AlibabaExample.__init__ 7 (Some "who"%string) "The quick brown fox jumps."%string
    (Some "brown fox"%string) (Some 10) "t"%string [] false false
  = Some (AlibabaExample.mk 7 (Some "who"%string) "The quick brown fox jumps."%string
            (Some "brown fox"%string) "t"%string false false [] 10 18).
Proof. reflexivity. Qed.

Lemma truthy_Some_nonempty (a : string) : a <> EmptyString -> Py.truthy (Some a) = true.
Proof.
  intros Ha. simpl. apply negb_true_iff. by apply String.eqb_neq.
Qed.

(** C9. An example constructed with [is_impossible = false] and a
    non-empty answer text has [start_position = start_position_character]
    and [end_position = start_position_character + len(answer_text) - 1];
    an impossible example, and an example with no answer text ([None] or
    the empty string), has both positions 0. *)
Theorem example_char_span (qas_id : Z) (question_text : option string)
    (context_text : string) (answer_text : option string)
    (start_position_character : option Z) (title : string)
    (answers : list Answer.t) (is_impossible is_challenge : bool) :
  (forall a c,
     is_impossible = false -> answer_text = Some a -> a <> EmptyString ->
     start_position_character = Some c ->
     exists ex,
       AlibabaExample.__init__ qas_id question_text context_text answer_text
         start_position_character title answers is_impossible is_challenge = Some ex /\
       AlibabaExample.start_position ex = c /\
       AlibabaExample.end_position ex = c + Z.of_nat (String.length a) - 1)
  /\
  (is_impossible = true \/ answer_text = None \/ answer_text = Some EmptyString ->
   exists ex,
     AlibabaExample.__init__ qas_id question_text context_text answer_text
       start_position_character title answers is_impossible is_challenge = Some ex /\
     AlibabaExample.start_position ex = 0 /\
     AlibabaExample.end_position ex = 0).
Proof.
  unfold AlibabaExample.__init__. split.
  - intros a c -> -> Ha ->. rewrite (truthy_Some_nonempty a Ha). simpl.
    eexists. repeat split.
  - intros [-> | [-> | ->]].
    + simpl. eexists. repeat split.
    + rewrite andb_false_r. eexists. repeat split.
    + rewrite andb_false_r. eexists. repeat split.
Qed.

Lemma example_char_span_witness :
  exists ex,
    AlibabaExample.__init__ 7 (Some "who"%string) "The quick brown fox jumps."%string
      (Some "brown fox"%string) (Some 10) "t"%string [] false false = Some ex /\
    AlibabaExample.start_position ex = 10 /\
    AlibabaExample.end_position ex = 18.
Proof.
  destruct (example_char_span 7 (Some "who"%string) "The quick brown fox jumps."%string
              (Some "brown fox"%string) (Some 10) "t"%string [] false false) as [Hspan _].
  apply (Hspan "brown fox"%string 10); [reflexivity | reflexivity | discriminate | reflexivity].
Defined.

(** ** Example validation *)

Section CreateExamples.
Variable is_training : bool.

Import Processor.

Local Abbreviation built := (Processor.built is_training).
Local Abbreviation kept := (Processor.kept is_training).
Local Abbreviation skipped := (Processor.skipped is_training).
Local Abbreviation loop_result := (Processor.loop_result is_training).

Lemma rejectedb_rejected ex :
  rejectedb is_training ex = true <-> rejected is_training ex.
Proof.
  unfold rejectedb, rejected, answer_mismatch.
  rewrite orb_true_iff, negb_true_iff, !andb_true_iff, !negb_true_iff,
    bool_decide_eq_false.
  split.
  - intros [Hq | [[Ht Hi] Hne]]; [|by right; right].
    destruct (AlibabaExample.question_text ex) as [q|]; [|by left].
    right; left. simpl in Hq. apply negb_false_iff, String.eqb_eq in Hq. by subst.
  - intros [Hq | [Hq | (Ht & Hi & Hne)]]; [left; by rewrite Hq ..|by right].
Qed.

(** One [qa]: the example is built and then either kept or recorded as
    invalid, and no exception is raised unless the [qa] is answerable,
    has no answer, and its answers are read: in training mode, or with a
    non-empty question. *)
Lemma record_step title context_text qa st :
  ~ (Raw.is_impossible qa = false /\ Raw.answers qa = [] /\
     (is_training = true \/ Py.truthy (Raw.question qa) = true)) ->
  exists ex st',
    build_example is_training title context_text qa = Some ex /\
    record_example is_training st ex = Some st' /\
    examples st' = examples st ++ (if rejectedb is_training ex then [] else [ex]) /\
    invalid_examples st' =
      invalid_examples st ++
      (if rejectedb is_training ex then [AlibabaExample.qas_id ex] else []).
Proof.
  intros Hok.
  assert (Hb : exists ex, build_example is_training title context_text qa = Some ex /\
             AlibabaExample.is_impossible ex = Raw.is_impossible qa /\
             AlibabaExample.question_text ex = Raw.question qa /\
             (is_training = false -> Raw.is_impossible qa = false ->
              AlibabaExample.answers ex = Raw.answers qa)).
  { unfold build_example, AlibabaExample.__init__.
    destruct (Raw.is_impossible qa) eqn:Hi; simpl.
    - eexists; repeat split; congruence.
    - destruct is_training; simpl.
      + destruct (Raw.answers qa) as [|a l]; [exfalso; apply Hok; auto|]. simpl.
        destruct (negb (Answer.text a =? EmptyString)%string);
        (eexists; split; [reflexivity|]; split; [reflexivity|];
         split; [reflexivity|discriminate]).
      + eexists; repeat split. }
  destruct Hb as (ex & Hb & Himp & Hq & Hansw). exists ex.
  unfold record_example, rejectedb.
  destruct (Py.truthy (AlibabaExample.question_text ex)) eqn:Htr; simpl.
  2:{ eexists; repeat split; [exact Hb | by rewrite app_nil_r]. }
  destruct (answer_mismatch is_training ex); simpl.
  { eexists; repeat split; [exact Hb | by rewrite app_nil_r]. }
  rewrite Himp. destruct (Raw.is_impossible qa) eqn:Hi; simpl.
  { eexists; repeat split; [exact Hb | by rewrite app_nil_r]. }
  destruct is_training eqn:Ht; simpl.
  { eexists; repeat split; [exact Hb | by rewrite app_nil_r]. }
  rewrite Hansw by reflexivity.
  destruct (Raw.answers qa) as [|a l].
  { exfalso. apply Hok. rewrite <- Hq. auto. }
  simpl. eexists; repeat split; [exact Hb | by rewrite app_nil_r].
Qed.

Lemma kept_cons ex exs :
  kept (ex :: exs) = (if rejectedb is_training ex then [] else [ex]) ++ kept exs.
Proof.
  unfold Processor.kept. rewrite filter_cons.
  destruct (rejectedb is_training ex); [rewrite decide_False | rewrite decide_True]; done.
Qed.

Lemma skipped_cons ex exs :
  skipped (ex :: exs) =
  (if rejectedb is_training ex then [AlibabaExample.qas_id ex] else []) ++ skipped exs.
Proof.
  unfold Processor.skipped. rewrite filter_cons.
  destruct (rejectedb is_training ex); [rewrite decide_True | rewrite decide_False]; done.
Qed.

Lemma kept_app l1 l2 : kept (l1 ++ l2) = kept l1 ++ kept l2.
Proof. apply filter_app. Qed.

Lemma skipped_app l1 l2 : skipped (l1 ++ l2) = skipped l1 ++ skipped l2.
Proof. unfold Processor.skipped. by rewrite filter_app, fmap_app. Qed.

Lemma loop_result_app st st' st'' exs1 exs2 :
  loop_result st st' exs1 -> loop_result st' st'' exs2 ->
  loop_result st st'' (exs1 ++ exs2).
Proof.
  intros [He1 Hi1] [He2 Hi2]. split.
  - by rewrite He2, He1, kept_app, app_assoc.
  - by rewrite Hi2, Hi1, skipped_app, app_assoc.
Qed.

Lemma qas_loop_spec title context_text qas :
  Forall (fun qa => ~ (Raw.is_impossible qa = false /\ Raw.answers qa = [] /\
                       (is_training = true \/ Py.truthy (Raw.question qa) = true)))
    qas ->
  forall st, exists exs st',
    built ((fun qa => (title, context_text, qa)) <$> qas) exs /\
    qas_loop is_training title context_text st qas = Some st' /\
    loop_result st st' exs.
Proof.
  induction 1 as [|qa qas Hqa _ IH]; intros st.
  - exists [], st. split; [constructor|]. split; [reflexivity|].
    split; simpl; by rewrite app_nil_r.
  - destruct (record_step title context_text qa st Hqa) as (ex & st1 & Hb & Hr & He & Hi).
    destruct (IH st1) as (exs & st' & Hbs & Hl & Hres).
    exists (ex :: exs), st'. split; [by constructor|]. split.
    + simpl. rewrite Hb. simpl. rewrite Hr. simpl. exact Hl.
    + apply (loop_result_app st st1 st' [ex] exs); [|exact Hres].
      split; [rewrite kept_cons | rewrite skipped_cons]; simpl; by rewrite app_nil_r.
Qed.

Lemma paragraphs_loop_spec title paragraphs :
  Forall (fun '(_, _, qa) =>
            ~ (Raw.is_impossible qa = false /\ Raw.answers qa = [] /\
               (is_training = true \/ Py.truthy (Raw.question qa) = true)))
    (paragraph_qas title paragraphs) ->
  forall st, exists exs st',
    built (paragraph_qas title paragraphs) exs /\
    paragraphs_loop is_training title st paragraphs = Some st' /\
    loop_result st st' exs.
Proof.
  induction paragraphs as [|p ps IH]; intros Hall st.
  - exists [], st. split; [constructor|]. split; [reflexivity|].
    split; simpl; by rewrite app_nil_r.
  - unfold paragraph_qas in Hall. simpl in Hall. apply Forall_app in Hall as [Hp Hps].
    rewrite Forall_fmap in Hp.
    destruct (qas_loop_spec title (Raw.context p) (Raw.qas p) Hp st)
      as (exs1 & st1 & Hb1 & Hl1 & Hr1).
    destruct (IH Hps st1) as (exs2 & st' & Hb2 & Hl2 & Hr2).
    exists (exs1 ++ exs2), st'. split; [|split].
    + unfold paragraph_qas. simpl. by apply Forall2_app.
    + simpl. rewrite Hl1. simpl. exact Hl2.
    + by apply (loop_result_app st st1 st').
Qed.

Lemma entries_loop_spec input_data :
  Forall (fun '(_, _, qa) =>
            ~ (Raw.is_impossible qa = false /\ Raw.answers qa = [] /\
               (is_training = true \/ Py.truthy (Raw.question qa) = true)))
    (all_qas input_data) ->
  forall st, exists exs st',
    built (all_qas input_data) exs /\
    entries_loop is_training st input_data = Some st' /\
    loop_result st st' exs.
Proof.
  induction input_data as [|e es IH]; intros Hall st.
  - exists [], st. split; [constructor|]. split; [reflexivity|].
    split; simpl; by rewrite app_nil_r.
  - unfold all_qas in Hall. simpl in Hall. apply Forall_app in Hall as [He Hes].
    destruct (paragraphs_loop_spec (Raw.title e) (Raw.paragraphs e) He st)
      as (exs1 & st1 & Hb1 & Hl1 & Hr1).
    destruct (IH Hes st1) as (exs2 & st' & Hb2 & Hl2 & Hr2).
    exists (exs1 ++ exs2), st'. split; [|split].
    + unfold all_qas. simpl. by apply Forall2_app.
    + simpl. rewrite Hl1. simpl. exact Hl2.
    + by apply (loop_result_app st st1 st').
Qed.

End CreateExamples.

(** ** Window slicer *)

Lemma len_app {A} (l1 l2 : list A) : Py.len (l1 ++ l2) = Py.len l1 + Py.len l2.
Proof. unfold Py.len. rewrite length_app. lia. Qed.

Lemma len_nonneg {A} (l : list A) : 0 <= Py.len l.
Proof. unfold Py.len. lia. Qed.

Section WindowCoverage.
Variable tokenizer : Tokenizer.t.
Variables (doc_tokens : list string) (truncated_query : list Z).
Variables (max_seq_length doc_stride : Z).

Local Abbreviation n := (Py.len doc_tokens).
Local Abbreviation budget :=
  (max_seq_length - Py.len truncated_query - sequence_pair_added_tokens tokenizer).
Local Abbreviation loop :=
  (slicing_loop tokenizer doc_tokens truncated_query max_seq_length doc_stride).
Local Abbreviation new_span :=
  (make_span tokenizer doc_tokens truncated_query max_seq_length doc_stride).

Hypothesis Htrunc : simple_truncation tokenizer.
Hypothesis Hstride : 0 < doc_stride <= budget.

Local Abbreviation fullw := (full_windows doc_stride n budget).
Local Abbreviation slicedw := (sliced doc_stride n budget).

Lemma new_span_start spans sdt :
  Span.start (new_span spans sdt) = Py.len spans * doc_stride.
Proof. reflexivity. Qed.

Lemma new_span_length spans sdt :
  Span.length (new_span spans sdt) = Z.min (n - Py.len spans * doc_stride) budget.
Proof. reflexivity. Qed.

Lemma new_span_overflow spans sdt :
  Span.overflowing_tokens (new_span spans sdt)
  = Encoding.overflowing_tokens
      (Tokenizer.encode_plus tokenizer truncated_query sdt max_seq_length
         (max_seq_length - doc_stride - Py.len truncated_query
          - sequence_pair_added_tokens tokenizer)).
Proof. reflexivity. Qed.

(** The last iteration: the rest of the context fits the budget. *)
Lemma sliced_last spans sdt :
  fullw spans ->
  0 < n - Py.len spans * doc_stride <= budget ->
  slicedw (spans ++ [new_span spans sdt]).
Proof.
  intros Hfull Hfit. unfold sliced. repeat split.
  - apply lookup_app_Some in H as [Hi|[Hge Hi]].
    + by destruct (Hfull _ _ Hi) as (Hs & _ & _).
    + apply list_lookup_singleton_Some in Hi as [Hi <-].
      assert (i = length spans) as -> by lia. apply new_span_start.
  - apply lookup_app_Some in H as [Hi|[Hge Hi]].
    + destruct (Hfull _ _ Hi) as (_ & Hl & Hlt). lia.
    + apply list_lookup_singleton_Some in Hi as [Hi <-].
      assert (i = length spans) as -> by lia. apply new_span_length.
  - intros i sp Hi Hlt. rewrite length_app in Hlt. simpl in Hlt.
    rewrite lookup_app_l in Hi by lia. by destruct (Hfull _ _ Hi) as (_ & Hl & _).
  - intros _. exists (new_span spans sdt). split; [apply last_snoc|].
    rewrite new_span_start, new_span_length. lia.
  - intros Hn. exfalso. pose proof (len_nonneg spans). nia.
Qed.

Lemma slicing_loop_done fuel spans sdt :
  ~ Py.len spans * doc_stride < n -> loop fuel spans sdt = Some spans.
Proof. intros Hn. destruct fuel; simpl; by rewrite decide_False. Qed.

Lemma slicing_loop_step fuel spans sdt :
  Py.len spans * doc_stride < n ->
  loop (S fuel) spans sdt
  = match Span.overflowing_tokens (new_span spans sdt) with
    | None => Some (spans ++ [new_span spans sdt])
    | Some [] => Some (spans ++ [new_span spans sdt])
    | Some (o :: ov) => loop fuel (spans ++ [new_span spans sdt]) (Ids (o :: ov))
    end.
Proof. intros Hn. simpl. by rewrite decide_True. Qed.

Lemma sliced_nil : n = 0 -> slicedw [].
Proof. intros Hn. repeat split; intros; try done; lia. Qed.

Lemma slicing_loop_sliced fuel :
  forall spans sdt,
    fullw spans ->
    pair_len sdt = n - Py.len spans * doc_stride ->
    (0 < n - Py.len spans * doc_stride \/ (spans = [] /\ n = 0)) ->
    n - Py.len spans * doc_stride <= Z.of_nat fuel ->
    exists spans', loop fuel spans sdt = Some spans' /\ slicedw spans'.
Proof.
  induction fuel as [|fuel IH]; intros spans sdt Hfull Hlen Hpos Hfuel.
  { destruct Hpos as [Hpos|[-> Hn]]; [lia|].
    exists []. split; [|by apply sliced_nil].
    apply slicing_loop_done. change (Py.len (@nil Span.t)) with 0. lia. }
  destruct Hpos as [Hpos|[-> Hn]].
  2:{ exists []. split; [|by apply sliced_nil].
      apply slicing_loop_done. change (Py.len (@nil Span.t)) with 0. lia. }
  rewrite slicing_loop_step by lia.
  destruct (Htrunc truncated_query sdt max_seq_length
              (max_seq_length - doc_stride - Py.len truncated_query
               - sequence_pair_added_tokens tokenizer)) as [Hfit Hover].
  rewrite new_span_overflow.
  destruct (decide (n - Py.len spans * doc_stride <= budget)) as [Hle|Hgt].
  - exists (spans ++ [new_span spans sdt]). split.
    + destruct Hfit as [-> | ->]; [lia|reflexivity|reflexivity].
    + apply sliced_last; [assumption|lia].
  - destruct Hover as (ov & -> & Hov); [lia|].
    destruct ov as [|o ov].
    { exfalso. change (Py.len (@nil Z)) with 0 in Hov. lia. }
    apply IH.
    + intros i sp Hi. apply lookup_app_Some in Hi as [Hi|[Hge Hi]];
        [by apply Hfull|].
      apply list_lookup_singleton_Some in Hi as [Hi <-].
      assert (i = length spans) as -> by lia.
      rewrite new_span_start, new_span_length. fold (Py.len spans).
      repeat split; lia.
    + rewrite len_app. unfold pair_len. rewrite Hov.
      change (Py.len [new_span spans sdt]) with 1. lia.
    + left. rewrite len_app. change (Py.len [new_span spans sdt]) with 1. lia.
    + rewrite len_app. change (Py.len [new_span spans sdt]) with 1. lia.
Qed.

(** Every context position lies in a window of a sliced context. *)
Lemma sliced_covers spans p :
  slicedw spans -> 0 <= p < n ->
  exists i sp, spans !! i = Some sp /\ in_window sp p.
Proof.
  intros (Hshape & Hfullw & Hlast & _) Hp.
  destruct Hlast as (spl & Hspl & Hend); [lia|].
  assert (Hne : (0 < length spans)%nat).
  { destruct spans; [discriminate|simpl; lia]. }
  rewrite last_lookup in Hspl.
  set (i := Z.to_nat (p / doc_stride)).
  assert (Hi : Z.of_nat i * doc_stride <= p < (Z.of_nat i + 1) * doc_stride).
  { unfold i. rewrite Z2Nat.id by (apply Z.div_pos; lia).
    pose proof (Z.mul_div_le p doc_stride) as H1.
    pose proof (Z.mul_succ_div_gt p doc_stride) as H2. lia. }
  destruct (decide (S i < length spans)%nat) as [Hlt|Hge].
  - destruct (lookup_lt_is_Some_2 spans i) as [sp Hsp]; [lia|].
    exists i, sp. split; [assumption|].
    destruct (Hshape _ _ Hsp) as [Hs _]. pose proof (Hfullw _ _ Hsp Hlt) as Hl.
    unfold in_window. lia.
  - exists (pred (length spans)), spl. split; [assumption|].
    destruct (Hshape _ _ Hspl) as [Hs _]. unfold in_window.
    assert (Z.of_nat (pred (length spans)) <= Z.of_nat i) by lia.
    nia.
Qed.

End WindowCoverage.

Lemma toy_simple_truncation side : simple_truncation (Toy.tokenizer side).
Proof.
  intros query pair max_length stride n budget overflow.
  assert (Hn : n = Py.len (Toy.pair_ids pair)).
  { unfold n, pair_len, Toy.pair_ids, Py.len. destruct pair; [by rewrite length_fmap|done]. }
  assert (Hov : overflow =
    Some (if Py.len (Toy.pair_ids pair) - budget <=? 0 then []
          else drop (Z.to_nat (Py.len (Toy.pair_ids pair)
                               - Z.min (Py.len (Toy.pair_ids pair))
                                   (stride + (Py.len (Toy.pair_ids pair) - budget))))
                 (Toy.pair_ids pair))).
  { unfold overflow. simpl. unfold Toy.encode_plus. by destruct (bool_decide _). }
  rewrite Hov, <- Hn. split.
  - intros Hle. right. destruct (Z.leb_spec (n - budget) 0); [done|lia].
  - intros Hlt. destruct (Z.leb_spec (n - budget) 0); [lia|].
    eexists. split; [reflexivity|]. unfold Py.len at 1. rewrite length_drop.
    fold (Py.len (Toy.pair_ids pair)) in *. unfold Py.len in *. lia.
Qed.

(** C5, amended. With a tokenizer that truncates simply, and a
    positive [doc_stride] that does not exceed the context budget
    [max_seq_length - len(truncated_query) - sequence_pair_added_tokens],
    the slicing loop stops with windows [k] of start [k * doc_stride] and
    length [min(len(doc_tokens) - k * doc_stride, budget)] whose ranges
    cover every position of [0, len(doc_tokens))], and the last window
    ends at [len(doc_tokens)]. *)
Theorem windows_cover_context (tokenizer : Tokenizer.t) (doc_tokens : list string)
    (truncated_query : list Z) (max_seq_length doc_stride : Z) (fuel : nat) :
  simple_truncation tokenizer ->
  0 < doc_stride
    <= max_seq_length - Py.len truncated_query - sequence_pair_added_tokens tokenizer ->
  Py.len doc_tokens <= Z.of_nat fuel ->
  exists spans,
    slicing_loop tokenizer doc_tokens truncated_query max_seq_length doc_stride
      fuel [] (Tokens doc_tokens) = Some spans /\
    (forall k sp, spans !! k = Some sp ->
       Span.start sp = Z.of_nat k * doc_stride /\
       Span.length sp =
         Z.min (Py.len doc_tokens - Z.of_nat k * doc_stride)
               (max_seq_length - Py.len truncated_query
                - sequence_pair_added_tokens tokenizer)) /\
    (forall p, 0 <= p < Py.len doc_tokens ->
       exists k sp, spans !! k = Some sp /\ in_window sp p) /\
    (0 < Py.len doc_tokens ->
     exists sp, last spans = Some sp /\
                Span.start sp + Span.length sp = Py.len doc_tokens).
Proof.
  intros Htrunc Hstride Hfuel.
  destruct (slicing_loop_sliced tokenizer doc_tokens truncated_query max_seq_length
              doc_stride Htrunc Hstride fuel [] (Tokens doc_tokens))
    as (spans & Hloop & Hsliced).
  - intros i sp Hi. by rewrite lookup_nil in Hi.
  - change (Py.len (@nil Span.t)) with 0. simpl. lia.
  - change (Py.len (@nil Span.t)) with 0. pose proof (len_nonneg doc_tokens).
    destruct (decide (Py.len doc_tokens = 0)); [right; by split|left; lia].
  - change (Py.len (@nil Span.t)) with 0. lia.
  - exists spans. split; [exact Hloop|]. split; [|split].
    + apply Hsliced.
    + intros p Hp.
      eapply sliced_covers; [exact Hstride | exact Hsliced | exact Hp].
    + apply Hsliced.
Qed.

Lemma windows_cover_context_witness :
  exists spans,
    slicing_loop (Toy.tokenizer "right") (Toy.tokenize "uvwxyzuvwxyz")
      (Toy.encode (Some "abc"%string) 64) 10 3 12 []
      (Tokens (Toy.tokenize "uvwxyzuvwxyz")) = Some spans /\
    (forall p, 0 <= p < 12 -> exists k sp, spans !! k = Some sp /\ in_window sp p).
Proof.
  destruct (windows_cover_context (Toy.tokenizer "right") (Toy.tokenize "uvwxyzuvwxyz")
              (Toy.encode (Some "abc"%string) 64) 10 3 12)
    as (spans & Hloop & _ & Hcover & _).
  - apply toy_simple_truncation.
  - vm_compute. split; [reflexivity | discriminate].
  - vm_compute. discriminate.
  - exists spans. split; [exact Hloop | exact Hcover].
Defined.

(** The starts and lengths of a list of windows. *)
Example windows_stride_3 :
  fmap (M:=option) (fmap (M:=list) (fun sp => (Span.start sp, Span.length sp)))
    (slicing_loop (Toy.tokenizer "right") (Toy.tokenize "uvwxyzuvwxyz")
       (Toy.encode (Some "abc"%string) 64) 10 3 12 []
       (Tokens (Toy.tokenize "uvwxyzuvwxyz")))
  = Some [(0, 4); (3, 4); (6, 4); (9, 3)].
Proof. vm_compute. reflexivity. Qed.

(** C5 as stated fails: [doc_stride = 6] is positive and below
    [max_seq_length = 10], but with a query of three tokens the budget is
    4, so the two windows (0, 4) and (6, 4) leave positions 4 and 5 of
    the twelve context tokens uncovered. *)
Lemma window_coverage_counterexample :
  0 < 6 < 10 /\
  exists spans,
    slicing_loop (Toy.tokenizer "right") (Toy.tokenize "uvwxyzuvwxyz")
      (Toy.encode (Some "abc"%string) 64) 10 6 12 []
      (Tokens (Toy.tokenize "uvwxyzuvwxyz")) = Some spans /\
    (fun sp => (Span.start sp, Span.length sp)) <$> spans = [(0, 4); (6, 4)] /\
    0 <= 4 < Py.len (Toy.tokenize "uvwxyzuvwxyz") /\
    (forall sp, sp ∈ spans -> ~ in_window sp 4) /\
    Py.len (Toy.tokenize "uvwxyzuvwxyz") = 12.
Proof.
  split; [lia|]. eexists. split; [vm_compute; reflexivity|].
  split; [reflexivity|]. split; [vm_compute; split; [discriminate|reflexivity]|].
  split; [|reflexivity].
  intros sp Hin. apply list_elem_of_In in Hin. unfold in_window.
  destruct Hin as [<-|[<-|[]]]; simpl; lia.
Qed.

(** ** Batch driver *)

Lemma number_feature_fold example_index l :
  forall new_features unique_id,
    foldl (number_feature example_index) (new_features, unique_id) l
    = (new_features ++
         imap (fun i f => AlibabaFeatures.set_ids example_index (unique_id + Z.of_nat i) f) l,
       unique_id + Py.len l).
Proof.
  induction l as [|f l IH]; intros nf uid.
  - simpl. rewrite app_nil_r. unfold Py.len. simpl. f_equal. lia.
  - simpl. rewrite IH. rewrite <- app_assoc. simpl. f_equal.
    + do 2 f_equal.
      * f_equal. lia.
      * apply imap_ext. intros i x _. simpl. f_equal. lia.
    + unfold Py.len. simpl. lia.
Qed.

Lemma take_snoc_le {A} (fs : list A) (l : A) j :
  (j <= length fs)%nat -> take j (fs ++ [l]) = take j fs.
Proof. intros Hj. by rewrite take_app_le. Qed.

Lemma offset_snoc_le fs l j : (j <= length fs)%nat -> offset (fs ++ [l]) j = offset fs j.
Proof. intros Hj. unfold offset. by rewrite take_snoc_le. Qed.

Lemma rank_snoc_le fs l j : (j <= length fs)%nat -> rank (fs ++ [l]) j = rank fs j.
Proof. intros Hj. unfold rank. by rewrite take_snoc_le. Qed.

Lemma offset_snoc fs l :
  offset (fs ++ [l]) (length (fs ++ [l])) = (offset fs (length fs) + length l)%nat.
Proof.
  unfold offset. rewrite !firstn_all, concat_app, length_app. simpl.
  by rewrite app_nil_r.
Qed.

Lemma rank_snoc fs l :
  rank (fs ++ [l]) (length (fs ++ [l]))
  = rank fs (length fs) + (if decide (l = []) then 0 else 1).
Proof.
  unfold rank. rewrite !firstn_all, filter_app, length_app, filter_cons, filter_nil.
  destruct (decide (l = [])) as [->|Hne].
  - rewrite decide_False by (intros Hc; by apply Hc). simpl. lia.
  - rewrite decide_True by done. simpl. lia.
Qed.

Lemma offset_lt fs j l i :
  fs !! j = Some l -> (i < length l)%nat -> (offset fs j + i < offset fs (length fs))%nat.
Proof.
  intros Hj Hi. unfold offset. rewrite firstn_all.
  rewrite <- (take_drop_middle fs j l Hj) at 2.
  rewrite concat_app, length_app. simpl. rewrite length_app. lia.
Qed.

Lemma number_example_nonempty new_features unique_id example_index l :
  l <> [] ->
  number_example (new_features, unique_id, example_index) l
  = (new_features ++
       imap (fun i f => AlibabaFeatures.set_ids example_index (unique_id + Z.of_nat i) f) l,
     unique_id + Py.len l, example_index + 1).
Proof.
  intros Hl. destruct l as [|f l]; [done|].
  unfold number_example. by rewrite number_feature_fold.
Qed.

Lemma lookup_snoc_Some {A} (fs : list A) (l x : A) j :
  (fs ++ [l]) !! j = Some x ->
  (fs !! j = Some x /\ (j < length fs)%nat) \/ (j = length fs /\ x = l).
Proof.
  intros Hj. apply lookup_app_Some in Hj as [Hj|[Hge Hj]].
  - left. split; [assumption|]. by apply lookup_lt_Some in Hj.
  - right. apply list_lookup_singleton_Some in Hj as [Hj <-]. split; [lia|done].
Qed.

Local Ltac split_inv :=
  refine (conj _ (conj _ (conj _ (conj _ (conj _ (conj _ _)))))).

(** One more example keeps the invariant of the numbering loop. *)
Lemma numbered_inv_step fs st l :
  numbered_inv fs st -> numbered_inv (fs ++ [l]) (number_example st l).
Proof.
  destruct st as [[nf uid] ei].
  intros (Huid & Hei & Hlen & Hid & Hlt & Hmono & Hat).
  destruct (decide (l = [])) as [->|Hne].
  - simpl. split_inv.
    + exact Huid.
    + rewrite rank_snoc, decide_True by done. lia.
    + rewrite offset_snoc. simpl. lia.
    + exact Hid.
    + exact Hlt.
    + exact Hmono.
    + intros j l i f0 Hj Hi. apply lookup_snoc_Some in Hj as [[Hj Hjlt]|[-> ->]].
      * rewrite offset_snoc_le, rank_snoc_le by lia. eauto.
      * by rewrite lookup_nil in Hi.
  - rewrite number_example_nonempty by done.
    set (g := fun (i : nat) f => AlibabaFeatures.set_ids ei (uid + Z.of_nat i) f).
    assert (Hnew : forall k f, (nf ++ imap g l) !! k = Some f ->
              (nf !! k = Some f /\ (k < length nf)%nat) \/
              (exists i f0, k = (length nf + i)%nat /\ l !! i = Some f0 /\ f = g i f0)).
    { intros k f Hk. apply lookup_app_Some in Hk as [Hk|[Hge Hk]].
      - left. split; [assumption|]. by apply lookup_lt_Some in Hk.
      - right. rewrite list_lookup_imap in Hk.
        destruct (l !! (k - length nf)%nat) as [f0|] eqn:Hl0; [|done].
        simpl in Hk. injection Hk as <-. exists (k - length nf)%nat, f0.
        split; [lia|done]. }
    simpl. split_inv.
    + rewrite len_app. unfold Py.len. rewrite length_imap. fold (Py.len l).
      unfold Py.len in *. lia.
    + rewrite rank_snoc, decide_False by done. lia.
    + rewrite offset_snoc, length_app, length_imap. lia.
    + intros k f Hk. destruct (Hnew k f Hk) as [[Hk' _]|(i & f0 & -> & _ & ->)].
      * eauto.
      * simpl. unfold Py.len in Huid. lia.
    + intros k f Hk. destruct (Hnew k f Hk) as [[Hk' _]|(i & f0 & -> & _ & ->)].
      * specialize (Hlt k f Hk'). lia.
      * simpl. lia.
    + intros k1 k2 f1 f2 Hle Hk1 Hk2.
      destruct (Hnew k1 f1 Hk1) as [[Hk1' Hb1]|(i1 & g1 & -> & _ & ->)];
        destruct (Hnew k2 f2 Hk2) as [[Hk2' Hb2]|(i2 & g2 & -> & _ & ->)].
      * eauto.
      * specialize (Hlt k1 f1 Hk1'). simpl. lia.
      * lia.
      * simpl. lia.
    + intros j l0 i f0 Hj Hi. apply lookup_snoc_Some in Hj as [[Hj Hjlt]|[-> ->]].
      * rewrite offset_snoc_le, rank_snoc_le by lia.
        rewrite lookup_app_l; [eauto|].
        rewrite Hlen. eapply offset_lt; [exact Hj|]. by apply lookup_lt_Some in Hi.
      * rewrite offset_snoc_le, rank_snoc_le by lia.
        rewrite <- Hlen, <- Hei.
        rewrite lookup_app_r by lia.
        replace (length nf + i - length nf)%nat with i by lia.
        rewrite list_lookup_imap, Hi. simpl. unfold g. do 2 f_equal.
        unfold Py.len in Huid. lia.
Qed.

Lemma number_loop_inv fs :
  numbered_inv fs (foldl number_example ([], 1000000000, 0) fs).
Proof.
  induction fs as [|l fs IH] using rev_ind.
  - simpl. split_inv; done.
  - rewrite foldl_snoc. by apply numbered_inv_step.
Qed.


Lemma filter_Forall_id {A} (P : A -> Prop) `{forall x, Decision (P x)} (l : list A) :
  Forall P l -> filter P l = l.
Proof.
  induction 1 as [|x l Hx _ IH]; [done|].
  by rewrite filter_cons, decide_True, IH.
Qed.

(** When every earlier example has a feature, the rank is the position. *)
Lemma rank_all_nonempty fs j :
  (j <= length fs)%nat ->
  (forall j' l, (j' < j)%nat -> fs !! j' = Some l -> l <> []) ->
  rank fs j = Z.of_nat j.
Proof.
  intros Hj Hall. unfold rank. f_equal.
  rewrite filter_Forall_id; [rewrite length_take; lia|].
  apply Forall_lookup. intros i l Hi.
  apply lookup_take_Some in Hi as [Hi Hlt]. eauto.
Qed.

(** C7, amended. The [k]-th returned feature has [unique_id]
    1000000000 + k, so the ids increase strictly from the fixed base in
    output order; [example_index] is non-decreasing along the output;
    feature [i] of input example [j] is returned, in input order, with
    [example_index] the number of earlier examples that have at least one
    feature, which is [j] when no earlier example has an empty feature
    list. *)
Theorem numbering_ids (features : list (list AlibabaFeatures.t)) :
  (forall k f, number_features features !! k = Some f ->
     AlibabaFeatures.unique_id f = 1000000000 + Z.of_nat k) /\
  (forall k1 k2 f1 f2, (k1 <= k2)%nat ->
     number_features features !! k1 = Some f1 ->
     number_features features !! k2 = Some f2 ->
     AlibabaFeatures.example_index f1 <= AlibabaFeatures.example_index f2) /\
  (forall j l i f0, features !! j = Some l -> l !! i = Some f0 ->
     number_features features !! (offset features j + i)%nat
     = Some (AlibabaFeatures.set_ids (rank features j)
               (1000000000 + Z.of_nat (offset features j + i)) f0)) /\
  length (number_features features) = length (concat features) /\
  (forall j, (j <= length features)%nat ->
     (forall j' l, (j' < j)%nat -> features !! j' = Some l -> l <> []) ->
     rank features j = Z.of_nat j).
Proof.
  pose proof (number_loop_inv features) as Hinv.
  unfold number_features.
  destruct (foldl number_example ([], 1000000000, 0) features) as [[nf uid] ei].
  destruct Hinv as (_ & _ & Hlen & Hid & _ & Hmono & Hat). simpl.
  split; [exact Hid|]. split; [exact Hmono|]. split; [exact Hat|].
  split; [|apply rank_all_nonempty].
  rewrite Hlen. unfold offset. by rewrite firstn_all.
Qed.

Lemma numbering_ids_witness :
  number_features [[blank_feature 1; blank_feature 2]; []; [blank_feature 3]] !! 2%nat
  = Some (AlibabaFeatures.set_ids 1 1000000002 (blank_feature 3)).
Proof.
  destruct (numbering_ids [[blank_feature 1; blank_feature 2]; []; [blank_feature 3]])
    as (_ & _ & Hat & _).
  apply (Hat 2%nat [blank_feature 3] 0%nat (blank_feature 3)); reflexivity.
Defined.

(** C7 as stated fails: the example on the empty context has no
    window and so no feature, the guard of line 307 skips it without
    counting it, and the feature of the second example, at position 1 of
    the input, carries [example_index] 0. *)
Lemma example_index_counterexample :
  exists ex_a ex_b f,
    Processor._create_examples gap_data "dev" = Some [ex_a; ex_b] /\
    convert_examples_to_features (F:=Q) (Toy.tokenizer "right") 10 [ex_a; ex_b]
      12 4 64 false = Some [f] /\
    AlibabaFeatures.qas_id f = AlibabaExample.qas_id ex_b /\
    AlibabaExample.qas_id ex_a <> AlibabaExample.qas_id ex_b /\
    AlibabaFeatures.example_index f = 0.
Proof.
  do 3 eexists. split; [vm_compute; reflexivity|].
  split; [vm_compute; reflexivity|].
  split; [reflexivity|]. split; [discriminate|reflexivity].
Qed.

(** ** Feature assembler *)

(** C1 at a left-padded input. In training mode the window of an
    unanswerable example gets [start_position = end_position = 0] and
    [is_impossible = true], while its [cls_index] is 4: the positions are
    not the CLS position. *)
Theorem impossible_example_positions :
  fmap (M:=option) (fmap (M:=list) positions_of)
    (convert_example_to_features (F:=Q) (Toy.tokenizer "left") 10 impossible_example
       12 4 64 true)
  = Some [(4, 0, 0, true)].
Proof. vm_compute. reflexivity. Qed.

(** C3 at a left-padded input. The keys of [token_to_orig_map] are
    [len(truncated_query) + sequence_added_tokens + i] = 5, 6 under left
    padding exactly as under right padding, while the keys of
    [token_is_max_context] are 0, 1 under left padding and 5, 6 under
    right padding. *)
Theorem token_to_orig_map_keys_left_padding :
  fmap (M:=option)
    (fmap (M:=list) (fun f => (AlibabaFeatures.token_to_orig_map f,
                               AlibabaFeatures.token_is_max_context f)))
    (convert_example_to_features (F:=Q) (Toy.tokenizer "left") 10 impossible_example
       12 4 64 true)
  = Some [({[5 := 0; 6 := 1]}, {[0 := true; 1 := true]})] /\
  fmap (M:=option)
    (fmap (M:=list) (fun f => (AlibabaFeatures.token_to_orig_map f,
                               AlibabaFeatures.token_is_max_context f)))
    (convert_example_to_features (F:=Q) (Toy.tokenizer "right") 10 impossible_example
       12 4 64 true)
  = Some [({[5 := 0; 6 := 1]}, {[5 := true; 6 := true]})].
Proof. split; vm_compute; reflexivity. Qed.

(** C6 at a left-padded input. Positions 5, 6 and 7 of the sequence
    hold the three query tokens, positions 9 and 10 the two context
    tokens; the mask is 0 at the query tokens too, and so differs from the
    mask that clears the context positions only. *)
Theorem p_mask_left_padding :
  fmap (M:=option)
    (fmap (M:=list) (fun f => (AlibabaFeatures.input_ids f, AlibabaFeatures.p_mask f)))
    (convert_example_to_features (F:=Q) (Toy.tokenizer "left") 10 impossible_example
       12 4 64 true)
  = Some [([0; 0; 0; 0; 101; 1097; 1098; 1099; 102; 1120; 1121; 102],
           [1; 1; 1; 1; 0; 0; 0; 0; 1; 0; 0; 1])] /\
  Toy.encode (AlibabaExample.question_text impossible_example) 64 = [1097; 1098; 1099] /\
  Toy.pair_ids (Tokens (Toy.tokenize (AlibabaExample.context_text impossible_example)))
    = [1120; 1121] /\
  p_mask_by_spec 12 [9; 10]%nat [0; 1; 2; 3]%nat [0; 1; 2; 3; 4; 8; 11]%nat 4
  = Some [1; 1; 1; 1; 0; 1; 1; 1; 1; 0; 0; 1].
Proof. repeat split; vm_compute; reflexivity. Qed.

(** *** The token-to-original map *)

Lemma elem_of_zrange (n i : Z) : i ∈ Py.zrange n <-> 0 <= i < n.
Proof.
  unfold Py.zrange. rewrite list_elem_of_fmap. split.
  - intros (k & -> & Hk). apply elem_of_seq in Hk. lia.
  - intros Hi. exists (Z.to_nat i). split; [lia|]. apply elem_of_seq. lia.
Qed.

Lemma foldl_insert_shift_lookup (a b : Z) (l : list Z) :
  forall (m : gmap Z Z) (key : Z),
    foldl (fun m i => <[a + i := b + i]> m) m l !! key
    = if decide (key - a ∈ l) then Some (b + (key - a)) else m !! key.
Proof.
  induction l as [|x l IH]; intros m key; cbn [foldl].
  - destruct (decide (key - a ∈ [])) as [Hin|_]; [|done].
    by apply elem_of_nil in Hin.
  - rewrite IH. destruct (decide (key - a ∈ l)) as [Hin|Hnin].
    + rewrite decide_True; [done|]. by right.
    + destruct (decide (key - a = x)) as [Heq|Hne].
      * rewrite decide_True by (rewrite Heq; left).
        replace (a + x) with key by lia. rewrite lookup_insert_eq. f_equal. lia.
      * rewrite decide_False.
        -- rewrite lookup_insert_ne by lia. done.
        -- intros Hc. apply elem_of_cons in Hc as [Hc|Hc]; contradiction.
Qed.

(** Lines 140-143: the map sends local index
    [len(truncated_query) + sequence_added_tokens + i] to the context
    position [n_spans * doc_stride + i] for [0 <= i < paragraph_len], and
    has no other key. *)
Lemma build_token_to_orig_map_lookup tokenizer truncated_query doc_stride
    paragraph_len n_spans key :
  build_token_to_orig_map tokenizer truncated_query doc_stride paragraph_len n_spans !! key
  = if decide (0 <= key - (Py.len truncated_query + sequence_added_tokens tokenizer)
               < paragraph_len)
    then Some (n_spans * doc_stride
               + (key - (Py.len truncated_query + sequence_added_tokens tokenizer)))
    else None.
Proof.
  unfold build_token_to_orig_map.
  rewrite (foldl_insert_shift_lookup
             (Py.len truncated_query + sequence_added_tokens tokenizer)
             (n_spans * doc_stride)).
  destruct (decide (key - _ ∈ Py.zrange paragraph_len)) as [Hin|Hnin].
  - apply elem_of_zrange in Hin. by rewrite decide_True.
  - rewrite elem_of_zrange in Hnin. by rewrite decide_False.
Qed.

(** The map of the window that the loop appends as number [len(spans)]. *)
Lemma make_span_token_to_orig_map tokenizer doc_tokens truncated_query
    max_seq_length doc_stride spans sdt i :
  let sp := make_span tokenizer doc_tokens truncated_query max_seq_length doc_stride
              spans sdt in
  0 <= i < Span.paragraph_len sp ->
  Span.token_to_orig_map sp
    !! (Py.len truncated_query + sequence_added_tokens tokenizer + i)
  = Some (Span.start sp + i).
Proof.
  intros sp Hi. unfold sp in *. simpl in *.
  rewrite build_token_to_orig_map_lookup, decide_True by lia. f_equal. lia.
Qed.

(** The declared padding side plays no part in the map. *)
Lemma build_token_to_orig_map_padding_side side tokenizer truncated_query doc_stride
    paragraph_len n_spans :
  build_token_to_orig_map (with_padding_side side tokenizer) truncated_query doc_stride
    paragraph_len n_spans
  = build_token_to_orig_map tokenizer truncated_query doc_stride paragraph_len n_spans.
Proof. reflexivity. Qed.

(** *** The max-context pass leaves the windows in place *)

Lemma for_each_invariant {S A} (P : S -> Prop) (body : S -> A -> option S) l :
  (forall s x s', P s -> body s x = Some s' -> P s') ->
  forall st st', P st -> Py.for_each body st l = Some st' -> P st'.
Proof.
  intros Hbody. induction l as [|x l IH]; intros st st' Hst; simpl.
  - by intros [= <-].
  - destruct (body st x) as [s1|] eqn:Hb; [|done]. simpl. eauto.
Qed.

Lemma erase_set_max_context index b sp :
  Span.erase (Span.set_max_context index b sp) = Span.erase sp.
Proof. reflexivity. Qed.

Section MarkAll.
Context {F : Type} `{ScoreArith F}.
Variables (tokenizer : Tokenizer.t) (doc_stride : Z).

Lemma mark_token_erase i spans j spans' :
  mark_token (F:=F) tokenizer doc_stride i spans j = Some spans' ->
  Span.erase <$> spans' = Span.erase <$> spans.
Proof.
  unfold mark_token. intros Hm.
  destruct (_new_check_is_max_context _ _ _) as [b|]; [|done]. simpl in Hm.
  destruct (spans !! i) as [sp|] eqn:Hsp; [|done]. simpl in Hm.
  injection Hm as <-. rewrite list_fmap_insert, erase_set_max_context.
  apply list_insert_id. by rewrite list_lookup_fmap, Hsp.
Qed.

Lemma mark_span_erase spans i spans' :
  mark_span (F:=F) tokenizer doc_stride spans i = Some spans' ->
  Span.erase <$> spans' = Span.erase <$> spans.
Proof.
  unfold mark_span. destruct (spans !! i) as [sp|]; [|done]. simpl.
  apply (for_each_invariant (fun s => Span.erase <$> s = Span.erase <$> spans));
    [|done].
  intros s x s' Hs Hb. apply mark_token_erase in Hb. congruence.
Qed.

Lemma mark_all_erase spans spans' :
  mark_all (F:=F) tokenizer doc_stride spans = Some spans' ->
  Span.erase <$> spans' = Span.erase <$> spans.
Proof.
  unfold mark_all.
  apply (for_each_invariant (fun s => Span.erase <$> s = Span.erase <$> spans));
    [|done].
  intros s x s' Hs Hb. apply mark_span_erase in Hb. congruence.
Qed.

End MarkAll.

(** *** Relocation of the answer span *)

Section Relocation.
Context {F : Type} `{ScoreArith F}.
Variable tokenizer : Tokenizer.t.

(** Lines 187-208 in training mode: an unanswerable example keeps the
    initial positions 0; for an answerable one the window is either marked
    impossible at the CLS position or gets the relocated span. *)
Lemma relocate_training truncated_query example_is_impossible tok_position span cls_index :
  (example_is_impossible = true ->
   relocate tokenizer truncated_query example_is_impossible true tok_position span cls_index
   = Some (0, 0, true)) /\
  (example_is_impossible = false ->
   forall ts te, tok_position = Some (ts, te) ->
     (~ gold_inside span ts te ->
      relocate tokenizer truncated_query example_is_impossible true tok_position span
        cls_index = Some (cls_index, cls_index, true)) /\
     (gold_inside span ts te ->
      relocate tokenizer truncated_query example_is_impossible true tok_position span
        cls_index
      = Some (ts - Span.start span + (Py.len truncated_query + sequence_added_tokens tokenizer),
              te - Span.start span + (Py.len truncated_query + sequence_added_tokens tokenizer),
              false))).
Proof.
  unfold relocate, gold_inside. split.
  - by intros ->.
  - intros -> ts te ->. simpl.
    destruct (Z.geb_spec ts (Span.start span));
      destruct (Z.leb_spec te (Span.start span + Span.length span - 1)); simpl;
      split; intros Hg; try done; try (exfalso; lia); exfalso; apply Hg; lia.
Qed.

Lemma relocate_erase truncated_query imp is_training tok_position span cls_index :
  relocate tokenizer truncated_query imp is_training tok_position span cls_index
  = relocate tokenizer truncated_query imp is_training tok_position (Span.erase span)
      cls_index.
Proof. reflexivity. Qed.

(** What [make_feature] puts into the feature of a window. *)
Lemma make_feature_Some truncated_query example is_training tok_position span f :
  make_feature tokenizer truncated_query example is_training tok_position span = Some f ->
  Py.index (Span.input_ids span) (Tokenizer.cls_token_id tokenizer)
    = Some (AlibabaFeatures.cls_index f) /\
  compute_p_mask tokenizer truncated_query span (AlibabaFeatures.cls_index f)
    = Some (AlibabaFeatures.p_mask f) /\
  relocate tokenizer truncated_query (AlibabaExample.is_impossible example) is_training
    tok_position span (AlibabaFeatures.cls_index f)
    = Some (AlibabaFeatures.start_position f, AlibabaFeatures.end_position f,
            AlibabaFeatures.is_impossible f) /\
  AlibabaFeatures.token_to_orig_map f = Span.token_to_orig_map span /\
  AlibabaFeatures.token_is_max_context f = Span.token_is_max_context span /\
  AlibabaFeatures.paragraph_len f = Span.paragraph_len span /\
  AlibabaFeatures.qas_id f = AlibabaExample.qas_id example.
Proof.
  unfold make_feature. intros Hf.
  destruct (Py.index _ _) as [cls|] eqn:Hcls; [|done]. simpl in Hf.
  destruct (compute_p_mask tokenizer truncated_query span cls) as [pm|] eqn:Hpm;
    [|done]. simpl in Hf.
  destruct (relocate tokenizer truncated_query (AlibabaExample.is_impossible example)
              is_training tok_position span cls) as [[[sp ep] imp]|] eqn:Hrel; [|done].
  simpl in Hf. injection Hf as <-. simpl. by rewrite Hpm, Hrel.
Qed.

(** The stages of [convert_example_to_features]: the windows of the
    slicing loop, the same windows after the max-context pass, and one
    feature for each of them. *)
Lemma convert_example_stages fuel example max_seq_length doc_stride max_query_length
    is_training features :
  convert_example_to_features (F:=F) tokenizer fuel example max_seq_length doc_stride
    max_query_length is_training = Some features ->
  exists tok_position spans spans',
    answer_token_span tokenizer example is_training
      (Tokenizer.tokenize tokenizer (AlibabaExample.context_text example))
      = Some tok_position /\
    example_spans tokenizer fuel example max_seq_length doc_stride max_query_length
      = Some spans /\
    Span.erase <$> spans' = Span.erase <$> spans /\
    Forall2 (fun sp f =>
               make_feature tokenizer
                 (Tokenizer.encode tokenizer (AlibabaExample.question_text example)
                    max_query_length)
                 example is_training tok_position sp = Some f)
            spans' features.
Proof.
  unfold convert_example_to_features. intros Hc.
  destruct (answer_token_span _ _ _ _) as [tok_position|]; [|done]. simpl in Hc.
  destruct (example_spans _ _ _ _ _ _) as [spans|]; [|done]. simpl in Hc.
  destruct (mark_all _ _ _) as [spans'|] eqn:Hmark; [|done]. simpl in Hc.
  exists tok_position, spans, spans'. repeat split; try done.
  - by apply mark_all_erase in Hmark.
  - by apply mapM_Some_1.
Qed.

(** In training mode every window of the slicing loop gets a feature, in
    order: with the positions 0 and [is_impossible] for an unanswerable
    example; for an answerable one, with the CLS position and
    [is_impossible] when the answer's token span is not inside the window,
    and with the relocated span otherwise. *)
Lemma convert_example_positions fuel example max_seq_length doc_stride max_query_length
    features :
  convert_example_to_features (F:=F) tokenizer fuel example max_seq_length doc_stride
    max_query_length true = Some features ->
  exists spans,
    example_spans tokenizer fuel example max_seq_length doc_stride max_query_length
      = Some spans /\
    length features = length spans /\
    forall k sp f, spans !! k = Some sp -> features !! k = Some f ->
      (AlibabaExample.is_impossible example = true ->
       positions_of f = (AlibabaFeatures.cls_index f, 0, 0, true)) /\
      (AlibabaExample.is_impossible example = false ->
       exists answer_text ts te,
         AlibabaExample.answer_text example = Some answer_text /\
         _improve_answer_span
           (Tokenizer.tokenize tokenizer (AlibabaExample.context_text example))
           (Tokenizer.tokenize tokenizer answer_text)
           (AlibabaExample.start_position example)
           (AlibabaExample.end_position example) = (ts, te) /\
         (~ gold_inside sp ts te ->
          positions_of f = (AlibabaFeatures.cls_index f, AlibabaFeatures.cls_index f,
                            AlibabaFeatures.cls_index f, true)) /\
         (gold_inside sp ts te ->
          let doc_offset :=
            Py.len (Tokenizer.encode tokenizer (AlibabaExample.question_text example)
                      max_query_length)
            + sequence_added_tokens tokenizer in
          positions_of f = (AlibabaFeatures.cls_index f,
                            ts - Span.start sp + doc_offset,
                            te - Span.start sp + doc_offset, false))).
Proof.
  intros Hc.
  apply convert_example_stages in Hc as (tok_position & spans & spans' & Htok & Hsp & Her & Hfs).
  exists spans. split; [exact Hsp|]. split.
  { rewrite <- (Forall2_length _ _ _ Hfs).
    rewrite <- (length_fmap Span.erase spans'), Her. by rewrite length_fmap. }
  intros k sp f Hk Hf.
  destruct (Forall2_lookup_r _ _ _ _ _ Hfs Hf) as (sp' & Hk' & Hmk).
  assert (Hsame : Span.erase sp' = Span.erase sp).
  { apply (f_equal (fun l => l !! k)) in Her.
    rewrite !list_lookup_fmap, Hk, Hk' in Her. simpl in Her. congruence. }
  apply make_feature_Some in Hmk as (_ & _ & Hrel & _).
  rewrite relocate_erase, Hsame, <- relocate_erase in Hrel.
  destruct (relocate_training
              (Tokenizer.encode tokenizer (AlibabaExample.question_text example)
                 max_query_length)
              (AlibabaExample.is_impossible example) tok_position sp
              (AlibabaFeatures.cls_index f)) as [Himp Hposs].
  unfold positions_of. split.
  - intros Hi. rewrite (Himp Hi) in Hrel. by injection Hrel as <- <- <-.
  - intros Hi. unfold answer_token_span in Htok. rewrite Hi in Htok. simpl in Htok.
    destruct (AlibabaExample.answer_text example) as [answer_text|]; [|done].
    simpl in Htok. injection Htok as <-.
    destruct (_improve_answer_span _ _ _ _) as [ts te] eqn:Himprove.
    exists answer_text, ts, te. split; [done|]. split; [done|].
    destruct (Hposs Hi ts te eq_refl) as [Hout Hin]. split.
    + intros Hg. rewrite (Hout Hg) in Hrel. by injection Hrel as <- <- <-.
    + intros Hg. rewrite (Hin Hg) in Hrel. by injection Hrel as <- <- <-.
Qed.

End Relocation.

(** *** The answer mask *)

Lemma set_at_Some a i v a' :
  Np.set_at a i v = Some a' <-> (i < length a)%nat /\ a' = <[i := v]> a.
Proof.
  unfold Np.set_at. destruct (decide (i < length a)%nat); split.
  - by intros [= <-].
  - by intros [_ ->].
  - done.
  - intros [Hi _]. lia.
Qed.

Lemma set_all_lookup idx v :
  forall a a',
    Np.set_all a idx v = Some a' ->
    length a' = length a /\
    Forall (fun i => (i < length a)%nat) idx /\
    forall i, a' !! i = if decide (i ∈ idx) then (fun _ => v) <$> a !! i else a !! i.
Proof.
  induction idx as [|x idx IH]; intros a a'; simpl.
  - intros [= <-]. split; [done|]. split; [constructor|]. intros i.
    destruct (decide (i ∈ [])) as [Hin|_]; [|done]. by apply elem_of_nil in Hin.
  - destruct (Np.set_at a x v) as [a1|] eqn:Hx; [|done]. simpl.
    apply set_at_Some in Hx as [Hlt ->]. intros Ha'.
    apply IH in Ha' as (Hlen & Hall & Hlook). rewrite length_insert in Hlen, Hall.
    split; [done|]. split; [by constructor|]. intros i. rewrite Hlook.
    destruct (decide (i ∈ idx)) as [Hin|Hnin].
    + rewrite decide_True by (by right).
      destruct (decide (i = x)) as [->|Hne].
      * rewrite list_lookup_insert_eq by done.
        destruct (lookup_lt_is_Some_2 a x Hlt) as [y ->]. done.
      * by rewrite list_lookup_insert_ne.
    + destruct (decide (i = x)) as [->|Hne].
      * rewrite decide_True by left. rewrite list_lookup_insert_eq by done.
        destruct (lookup_lt_is_Some_2 a x Hlt) as [y ->]. done.
      * rewrite decide_False.
        -- by rewrite list_lookup_insert_ne.
        -- intros Hc. apply elem_of_cons in Hc as [Hc|Hc]; contradiction.
Qed.

Lemma set_all_is_Some idx v :
  forall a, Forall (fun i => (i < length a)%nat) idx -> is_Some (Np.set_all a idx v).
Proof.
  induction idx as [|x idx IH]; intros a Hall; simpl; [by eexists|].
  apply Forall_cons in Hall as [Hx Hall].
  unfold Np.set_at. rewrite decide_True by done. simpl.
  apply IH. by rewrite length_insert.
Qed.

Lemma fill_from_length a from v : length (Np.fill_from a from v) = length a.
Proof.
  unfold Np.fill_from, Py.clamp, Py.len.
  rewrite length_app, length_take, length_replicate.
  destruct (from <? 0); lia.
Qed.

Lemma fill_from_lookup a from v i :
  (i < length a)%nat ->
  Np.fill_from a from v !! i
  = if decide (Z.to_nat (Py.clamp (Py.len a) from) <= i)%nat then Some v else a !! i.
Proof.
  intros Hi. unfold Np.fill_from.
  set (k := Z.to_nat (Py.clamp (Py.len a) from)).
  assert (Hk : (k <= length a)%nat).
  { unfold k, Py.clamp, Py.len. destruct (Z.ltb_spec from 0); lia. }
  destruct (decide (k <= i)%nat) as [Hle|Hgt].
  - rewrite lookup_app_r by (rewrite length_take; lia).
    rewrite length_take. apply lookup_replicate_2. lia.
  - rewrite lookup_app_l by (rewrite length_take; lia).
    apply lookup_take_lt. lia.
Qed.

(** Lines 181-182: the pad and the special positions are set back to 1,
    the other positions keep their value. *)
Lemma remask_lookup a pads specials p1 p2 :
  Np.set_all a pads 1 = Some p1 ->
  Np.set_all p1 specials 1 = Some p2 ->
  length p2 = length a /\
  Forall (fun i => (i < length a)%nat) pads /\
  Forall (fun i => (i < length a)%nat) specials /\
  forall i x, a !! i = Some x ->
    p2 !! i = Some (if decide (i ∈ specials \/ i ∈ pads) then 1 else x).
Proof.
  intros H1 H2.
  apply set_all_lookup in H1 as (Hl1 & Hf1 & Hk1).
  apply set_all_lookup in H2 as (Hl2 & Hf2 & Hk2).
  rewrite Hl1 in Hl2, Hf2. split; [done|]. split; [done|]. split; [done|].
  intros i x Hi. rewrite Hk2, Hk1.
  destruct (decide (i ∈ specials)) as [Hs|Hs];
    destruct (decide (i ∈ pads)) as [Hp|Hp]; rewrite Hi; simpl.
  - by rewrite decide_True by (by left).
  - by rewrite decide_True by (by left).
  - by rewrite decide_True by (by right).
  - rewrite decide_False; [done|]. by intros [?|?].
Qed.

Lemma remask_is_Some a pads specials :
  Forall (fun i => (i < length a)%nat) pads ->
  Forall (fun i => (i < length a)%nat) specials ->
  exists p1 p2, Np.set_all a pads 1 = Some p1 /\ Np.set_all p1 specials 1 = Some p2.
Proof.
  intros Hp Hs. destruct (set_all_is_Some pads 1 a Hp) as [p1 H1].
  pose proof (set_all_lookup _ _ _ _ H1) as (Hl1 & _ & _).
  destruct (set_all_is_Some specials 1 p1) as [p2 H2]; [by rewrite Hl1|].
  by exists p1, p2.
Qed.

Section AnswerMask.
Variables (tokenizer : Tokenizer.t) (truncated_query : list Z) (span : Span.t).

Local Abbreviation n := (length (Span.token_type_ids span)).
Local Abbreviation pads :=
  (Np.where_eq (Span.input_ids span) (Tokenizer.pad_token_id tokenizer)).
Local Abbreviation specials :=
  (Np.nonzero (Tokenizer.get_special_tokens_mask tokenizer (Span.input_ids span))).
Local Abbreviation doc_offset :=
  (Py.len truncated_query + sequence_added_tokens tokenizer).

(** The mask of lines 174-185, position by position: 0 at the CLS
    position whatever else it is; elsewhere 1 at a pad or special
    position; elsewhere 0 from [doc_offset] on and 1 before it. *)
Lemma compute_p_mask_lookup cls_index p_mask :
  compute_p_mask tokenizer truncated_query span cls_index = Some p_mask ->
  length p_mask = n /\
  (Z.to_nat cls_index < n)%nat /\
  Forall (fun i => (i < n)%nat) pads /\
  Forall (fun i => (i < n)%nat) specials /\
  forall i, (i < n)%nat ->
    p_mask !! i
    = Some (if decide (i = Z.to_nat cls_index) then 0
            else if decide (i ∈ specials \/ i ∈ pads) then 1
            else if decide (Z.to_nat (Py.clamp (Z.of_nat n) doc_offset) <= i)%nat then 0
            else 1).
Proof.
  unfold compute_p_mask. intros Hc.
  destruct (Np.set_all _ pads 1) as [p1|] eqn:H1; [|done]. simpl in Hc.
  destruct (Np.set_all p1 specials 1) as [p2|] eqn:H2; [|done]. simpl in Hc.
  apply set_at_Some in Hc as [Hcls ->].
  destruct (remask_lookup _ _ _ _ _ H1 H2) as (Hlen & Hfp & Hfs & Hlook).
  rewrite fill_from_length, length_replicate in Hlen, Hfp, Hfs.
  rewrite Hlen in Hcls. rewrite length_insert.
  split; [done|]. split; [done|]. split; [done|]. split; [done|].
  intros i Hi. destruct (decide (i = Z.to_nat cls_index)) as [->|Hne].
  - rewrite list_lookup_insert_eq by lia. done.
  - rewrite list_lookup_insert_ne by done.
    apply Hlook. rewrite fill_from_lookup by (by rewrite length_replicate).
    unfold Py.len. rewrite length_replicate.
    destruct (decide (_ <= i)%nat); [done|]. by apply lookup_replicate_2.
Qed.

(** The CLS position is 0 in every mask. *)
Lemma compute_p_mask_cls cls_index p_mask :
  compute_p_mask tokenizer truncated_query span cls_index = Some p_mask ->
  p_mask !! Z.to_nat cls_index = Some 0.
Proof.
  intros Hc. apply compute_p_mask_lookup in Hc as (_ & Hcls & _ & _ & Hlook).
  rewrite (Hlook _ Hcls). by rewrite decide_True.
Qed.

(** When the context tokens sit at [doc_offset ..
    doc_offset + context_len - 1] and every later position holds a pad or
    a special token, as in a right-padded pair, the mask is the one that
    the specification describes. *)
Lemma compute_p_mask_right_padded cls_index p_mask (context_len : nat) :
  compute_p_mask tokenizer truncated_query span cls_index = Some p_mask ->
  0 <= doc_offset ->
  (Z.to_nat doc_offset + context_len <= n)%nat ->
  (forall i, (Z.to_nat doc_offset + context_len <= i < n)%nat ->
             i ∈ specials \/ i ∈ pads) ->
  p_mask_by_spec n (seq (Z.to_nat doc_offset) context_len) pads specials
    (Z.to_nat cls_index) = Some p_mask.
Proof.
  intros Hc Hoff Hfit Htail.
  destruct (compute_p_mask_lookup _ _ Hc) as (Hlen & Hcls & Hfp & Hfs & Hlook).
  unfold p_mask_by_spec.
  destruct (set_all_is_Some (seq (Z.to_nat doc_offset) context_len) 0 (replicate n 1))
    as [q0 H0].
  { apply Forall_forall. intros i Hi. apply elem_of_seq in Hi.
    rewrite length_replicate. lia. }
  rewrite H0. simpl.
  destruct (set_all_lookup _ _ _ _ H0) as (Hl0 & _ & Hk0).
  rewrite length_replicate in Hl0.
  destruct (remask_is_Some q0 pads specials) as (q1 & q2 & H1 & H2);
    [by rewrite Hl0 | by rewrite Hl0 |].
  rewrite H1. simpl. rewrite H2. simpl.
  destruct (remask_lookup _ _ _ _ _ H1 H2) as (Hl2 & _ & _ & Hk2).
  rewrite Hl0 in Hl2.
  unfold Np.set_at. rewrite decide_True by lia. f_equal.
  apply list_eq. intros i.
  destruct (decide (i < n)%nat) as [Hi|Hi].
  2:{ rewrite !lookup_ge_None_2; [done| |]; [|rewrite length_insert]; lia. }
  rewrite (Hlook i Hi).
  destruct (decide (i = Z.to_nat cls_index)) as [->|Hne].
  { by rewrite list_lookup_insert_eq by lia. }
  rewrite list_lookup_insert_ne by done.
  assert (Hq0 : q0 !! i = Some (if decide (i ∈ seq (Z.to_nat doc_offset) context_len)
                                then 0 else 1)).
  { rewrite Hk0, lookup_replicate_2 by done. by destruct (decide _). }
  rewrite (Hk2 _ _ Hq0). f_equal.
  destruct (decide (i ∈ specials \/ i ∈ pads)) as [Hsp|Hsp]; [done|].
  assert (Hk : Z.to_nat (Py.clamp (Z.of_nat n) doc_offset) = Z.to_nat doc_offset).
  { unfold Py.clamp. destruct (Z.ltb_spec doc_offset 0); lia. }
  rewrite Hk.
  destruct (decide (Z.to_nat doc_offset <= i)%nat) as [Hge|Hlt].
  - rewrite decide_True; [done|]. apply elem_of_seq.
    destruct (decide (i < Z.to_nat doc_offset + context_len)%nat); [lia|].
    exfalso. apply Hsp, Htail. lia.
  - rewrite decide_False; [done|]. rewrite elem_of_seq. lia.
Qed.

End AnswerMask.

(** ** From validation to features *)

Lemma number_features_qas_id fs f :
  f ∈ number_features fs ->
  exists l f0, l ∈ fs /\ f0 ∈ l /\ AlibabaFeatures.qas_id f = AlibabaFeatures.qas_id f0.
Proof.
  unfold number_features.
  induction fs as [|l fs IH] using rev_ind.
  - simpl. intros Hf. by apply elem_of_nil in Hf.
  - rewrite foldl_snoc.
    destruct (foldl number_example ([], 1000000000, 0) fs) as [[nf uid] ei].
    simpl in IH.
    assert (Hold : f ∈ nf ->
              exists l0 f0, l0 ∈ fs ++ [l] /\ f0 ∈ l0 /\
                            AlibabaFeatures.qas_id f = AlibabaFeatures.qas_id f0).
    { intros Hf. destruct (IH Hf) as (l0 & f0 & Hl0 & Hf0 & Hq).
      exists l0, f0. split; [|done]. apply elem_of_app. by left. }
    destruct (decide (l = [])) as [->|Hne]; [exact Hold|].
    rewrite number_example_nonempty by done. simpl.
    intros Hf. apply elem_of_app in Hf as [Hf|Hf]; [by apply Hold|].
    apply list_elem_of_lookup in Hf as [i Hi]. rewrite list_lookup_imap in Hi.
    destruct (l !! i) as [f0|] eqn:Hl; [|done]. simpl in Hi. injection Hi as <-.
    exists l, f0. split; [|split; [|done]].
    + apply elem_of_app. right. by left.
    + apply list_elem_of_lookup. by exists i.
Qed.

Lemma convert_example_qas_id {F : Type} `{ScoreArith F} tokenizer fuel example
    max_seq_length doc_stride max_query_length is_training features f :
  convert_example_to_features (F:=F) tokenizer fuel example max_seq_length doc_stride
    max_query_length is_training = Some features ->
  f ∈ features ->
  AlibabaFeatures.qas_id f = AlibabaExample.qas_id example.
Proof.
  intros Hc Hf.
  apply convert_example_stages in Hc as (tp & spans & spans' & _ & _ & _ & Hfs).
  apply list_elem_of_lookup in Hf as [k Hk].
  destruct (Forall2_lookup_r _ _ _ _ _ Hfs Hk) as (sp & _ & Hmk).
  by apply make_feature_Some in Hmk as (_ & _ & _ & _ & _ & _ & Hq).
Qed.

(** Every returned feature carries the [qas_id] of one of the examples
    given to the batch driver. *)
Lemma convert_examples_qas_id {F : Type} `{ScoreArith F} tokenizer fuel examples
    max_seq_length doc_stride max_query_length is_training features f :
  convert_examples_to_features (F:=F) tokenizer fuel examples max_seq_length doc_stride
    max_query_length is_training = Some features ->
  f ∈ features ->
  exists example, example ∈ examples /\
                  AlibabaFeatures.qas_id f = AlibabaExample.qas_id example.
Proof.
  unfold convert_examples_to_features. intros Hc Hf.
  destruct (mapM _ examples) as [fls|] eqn:Hm; [|done]. simpl in Hc.
  injection Hc as <-. apply mapM_Some_1 in Hm.
  apply number_features_qas_id in Hf as (l & f0 & Hl & Hf0 & ->).
  apply list_elem_of_lookup in Hl as [j Hj].
  destruct (Forall2_lookup_r _ _ _ _ _ Hm Hj) as (example & Hex & Hconv).
  exists example. split; [apply list_elem_of_lookup; by exists j|].
  eapply convert_example_qas_id; eauto.
Qed.

(** C8. Unless the call raises (an answerable [qa] without an answer
    whose answers are read: in training mode, or with a non-empty
    question), [_create_examples] returns: every example built from the
    raw data that has an empty or missing question, or that in training
    mode is possible and whose context characters from [start_position]
    to [end_position] differ from its answer text, is left out of the
    returned list and its [qas_id] is appended to the invalid list; the
    loops go on, so the returned list is exactly the other examples in
    input order; and every feature built from the returned list belongs
    to an example that was not rejected. *)
Theorem create_examples_skips_rejected {F : Type} `{ScoreArith F}
    (tokenizer : Tokenizer.t) (fuel : nat) (max_seq_length doc_stride max_query_length : Z)
    (input_data : list Raw.entry) (set_type : string) :
  (forall title context_text qa,
     (title, context_text, qa) ∈ Processor.all_qas input_data ->
     ~ (Raw.is_impossible qa = false /\ Raw.answers qa = [] /\
        (set_type = "train"%string \/ Py.truthy (Raw.question qa) = true))) ->
  exists st exs,
    Processor.run input_data set_type = Some st /\
    Processor._create_examples input_data set_type = Some (Processor.examples st) /\
    Processor.built (bool_decide (set_type = "train"%string))
      (Processor.all_qas input_data) exs /\
    Processor.examples st = Processor.kept (bool_decide (set_type = "train"%string)) exs /\
    Processor.invalid_examples st
      = Processor.skipped (bool_decide (set_type = "train"%string)) exs /\
    (forall ex, ex ∈ exs ->
       (Processor.rejected (bool_decide (set_type = "train"%string)) ex ->
        (ex ∉ Processor.examples st) /\
        (AlibabaExample.qas_id ex ∈ Processor.invalid_examples st)) /\
       (~ Processor.rejected (bool_decide (set_type = "train"%string)) ex ->
        ex ∈ Processor.examples st)) /\
    (forall features f,
       convert_examples_to_features (F:=F) tokenizer fuel (Processor.examples st)
         max_seq_length doc_stride max_query_length
         (bool_decide (set_type = "train"%string)) = Some features ->
       f ∈ features ->
       exists ex, ex ∈ exs /\
         ~ Processor.rejected (bool_decide (set_type = "train"%string)) ex /\
         AlibabaFeatures.qas_id f = AlibabaExample.qas_id ex).
Proof.
  intros Hans. set (is_training := bool_decide (set_type = "train"%string)).
  assert (Hall : Forall (fun '(_, _, qa) =>
                   ~ (Raw.is_impossible qa = false /\ Raw.answers qa = [] /\
                      (is_training = true \/ Py.truthy (Raw.question qa) = true)))
                   (Processor.all_qas input_data)).
  { apply Forall_forall. intros [[t c] qa] Hin (Hi & Ha & Hread).
    apply (Hans t c qa Hin). split; [exact Hi|]. split; [exact Ha|].
    destruct Hread as [Ht|Hq]; [left|by right].
    by apply bool_decide_eq_true in Ht. }
  destruct (entries_loop_spec is_training input_data Hall Processor.init_state)
    as (exs & st & Hb & Hrun & He & Hi).
  simpl in He, Hi.
  exists st, exs. split; [exact Hrun|]. split.
  { unfold Processor._create_examples, Processor.run. fold is_training.
    by rewrite Hrun. }
  split; [exact Hb|]. split; [exact He|]. split; [exact Hi|]. split.
  - intros ex Hex. rewrite He, Hi. unfold Processor.kept, Processor.skipped. split.
    + intros Hrej. apply rejectedb_rejected in Hrej. split.
      * rewrite list_elem_of_filter. intros [Hf _]. congruence.
      * apply list_elem_of_fmap. exists ex. split; [reflexivity|].
        by apply list_elem_of_filter.
    + intros Hnrej. apply list_elem_of_filter. split; [|exact Hex].
      destruct (Processor.rejectedb is_training ex) eqn:Hr; [|reflexivity].
      exfalso. by apply Hnrej, rejectedb_rejected.
  - intros features f Hconv Hf.
    destruct (convert_examples_qas_id _ _ _ _ _ _ _ _ _ Hconv Hf) as (ex & Hex & Hq).
    rewrite He in Hex. apply list_elem_of_filter in Hex as [Hkeep Hex].
    exists ex. split; [exact Hex|]. split; [|exact Hq].
    rewrite <- rejectedb_rejected. congruence.
Qed.

Example create_examples_sample :
  fmap (M:=option) Processor.invalid_examples
    (Processor.run Processor.sample_data "train"%string) = Some [1; 3] /\
  fmap (M:=option) (fmap (M:=list) AlibabaExample.qas_id)
    (Processor._create_examples Processor.sample_data "train"%string) = Some [2].
Proof. vm_compute. split; reflexivity. Qed.

(** Every [qa] of the sample has an answer. *)
Lemma sample_data_answered title context_text qa :
  (title, context_text, qa) ∈ Processor.all_qas Processor.sample_data ->
  Raw.answers qa <> [].
Proof.
  intros Hin. apply list_elem_of_In in Hin. simpl in Hin.
  destruct Hin as [[= <- <- <-]|[[= <- <- <-]|[[= <- <- <-]|[]]]]; discriminate.
Qed.

Lemma create_examples_skips_rejected_witness :
  exists st exs,
    Processor.run Processor.sample_data "train"%string = Some st /\
    Processor.examples st = Processor.kept true exs /\
    Processor.invalid_examples st = Processor.skipped true exs.
Proof.
  destruct (create_examples_skips_rejected (F:=Q) (Toy.tokenizer "right") 20 16 4 64
              Processor.sample_data "train"%string)
    as (st & exs & Hrun & _ & _ & He & Hi & _).
  - intros title context_text qa Hin (_ & Ha & _).
    exact (sample_data_answered title context_text qa Hin Ha).
  - exists st, exs. split; [exact Hrun|]. split; [exact He | exact Hi].
Defined.

(** C8 (counterexample). In training mode an answerable [qa] with an
    empty question and an empty list of answers is not skipped: line 476
    reads [qa["answers"][0]] before the test of line 494 is reached, the
    call raises IndexError, and neither the list of examples nor the
    invalid list is returned, although the next [qa] is well annotated.
    Outside training mode the same [qa] is skipped and recorded, and the
    next one is returned. *)
Theorem create_examples_unanswered_counterexample :
  Processor.run Processor.unanswered_data "train"%string = None /\
  Processor._create_examples Processor.unanswered_data "train"%string = None /\
  fmap (M:=option) Processor.invalid_examples
    (Processor.run Processor.unanswered_data "dev"%string) = Some [1] /\
  fmap (M:=option) (fmap (M:=list) AlibabaExample.qas_id)
    (Processor._create_examples Processor.unanswered_data "dev"%string) = Some [2].
Proof. vm_compute. repeat split; reflexivity. Qed.

(** On these windows the scores of the model are the doubles that the
    machine computes for [0.0 + 0.01 * 113.0] and [1.0 + 0.01 * 13.0]. *)
Example float_score_machine :
  score_by_spec (F:=spec_float) (DocSpan.mk 10 113) 10
  = Prim2SF (0 + 0x1.47ae147ae147bp-7 * 113)%float /\
  score_by_spec (F:=spec_float) (DocSpan.mk 9 13) 10
  = Prim2SF (1 + 0x1.47ae147ae147bp-7 * 13)%float.
Proof. vm_compute. split; reflexivity. Qed.

(** With doubles the score of a window of length 113 at its first token,
    0 + 0.01 * 113, is strictly above the score 1 + 0.01 * 13 of a window
    of length 13 one token inside it, although the two formulas have the
    same exact value: the later window then owns the position, where exact
    arithmetic sees a tie and keeps the earlier one. *)
Example max_context_rounding :
  _new_check_is_max_context (F:=spec_float)
    (span_as_dict <$> [DocSpan.mk 9 13; DocSpan.mk 10 113]) 1 10 = Some true /\
  _new_check_is_max_context (F:=Q)
    (span_as_dict <$> [DocSpan.mk 9 13; DocSpan.mk 10 113]) 0 10 = Some true.
Proof. split; vm_compute; reflexivity. Qed.

(** ** Max-context resolver: errors and edge cases *)

Section MaxContextEdges.
Context {F : Type} `{ScoreArith F}.

Lemma new_check_loop_None position windows :
  forall k st,
    new_check_loop (F:=F) position st (enumerate_from k windows) = None <->
    exists d, d ∈ windows /\ lacks_key d.
Proof.
  induction windows as [|d windows IH]; intros k st.
  - split; [done|]. intros (d & Hd & _). by apply elem_of_nil in Hd.
  - rewrite enumerate_from_cons. cbn [new_check_loop].
    destruct (d !! "start"%string) as [s|] eqn:Hs; simpl.
    + destruct (d !! "length"%string) as [l|] eqn:Hl; simpl.
      * rewrite IH. split.
        -- intros (d' & Hd' & Hlack). exists d'. split; [by right|done].
        -- intros (d' & Hd' & Hlack). apply elem_of_cons in Hd' as [->|Hd'].
           ++ destruct Hlack; congruence.
           ++ by exists d'.
      * split; [|done]. intros _. exists d. split; [left|by right].
    + split; [|done]. intros _. exists d. split; [left|by left].
Qed.

(** The resolver returns no value exactly when a key is missing. *)
Lemma new_check_None_iff (windows : list (gmap string Z))
    (cur_span_index : nat) (position : Z) :
  _new_check_is_max_context (F:=F) windows cur_span_index position = None <->
  exists d, d ∈ windows /\ lacks_key d.
Proof.
  unfold _new_check_is_max_context. rewrite <- (new_check_loop_None position windows 0 (None, None)).
  destruct (new_check_loop _ _ _) as [[bs bi]|]; simpl; split; done.
Qed.

(** The resolver raises KeyError exactly when some window of the list,
    covering the position or not, lacks the key "start" or the key
    "length". *)
Theorem new_check_key_error (windows : list (gmap string Z))
    (cur_span_index : nat) (position : Z) :
  _new_check_is_max_context (F:=F) windows cur_span_index position = None <->
  exists d, d ∈ windows /\ lacks_key d.
Proof. apply new_check_None_iff. Qed.

Lemma index_inv_step seen position st sp :
  index_inv seen position st ->
  index_inv (seen ++ [sp]) position
    (max_context_step position st (length seen) (DocSpan.start sp) (DocSpan.length sp)).
Proof.
  intros Hinv. rewrite covers_dec_step.
  assert (Hkeep : index_inv (seen ++ [sp]) position st).
  { unfold index_inv in *. destruct (st.2) as [b|]; [|done].
    destruct Hinv as (sb & Hb & Hc). exists sb. split; [|done].
    apply lookup_app_l_Some, Hb. }
  destruct (decide (covers sp position)) as [Hc|Hc]; [|done].
  destruct (match st.1 with
            | Some best_score => fgt (score_of sp position) best_score
            | None => true
            end); [|done].
  unfold index_inv. simpl. exists sp. split; [|done].
  by rewrite lookup_app_r, Nat.sub_diag.
Qed.

Lemma check_loop_index_inv position rest :
  forall seen st,
    index_inv seen position st ->
    index_inv (seen ++ rest) position
      (check_loop position st (enumerate_from (length seen) rest)).
Proof.
  induction rest as [|sp rest IH]; intros seen st Hinv.
  - by rewrite app_nil_r.
  - rewrite enumerate_from_cons. simpl.
    rewrite cons_middle, app_assoc.
    replace (S (length seen)) with (length (seen ++ [sp]))
      by (rewrite length_app; simpl; lia).
    apply IH, index_inv_step, Hinv.
Qed.

(** Whatever the score arithmetic, the attribute-access resolver answers
    true only for the index of a window of the list that covers the
    position. *)
Lemma check_true_covers (doc_spans : list DocSpan.t) (cur_span_index : nat)
    (position : Z) :
  _check_is_max_context (F:=F) doc_spans cur_span_index position = true ->
  exists sp, doc_spans !! cur_span_index = Some sp /\ covers sp position.
Proof.
  unfold _check_is_max_context.
  pose proof (check_loop_index_inv position doc_spans [] (None, None) I) as Hinv.
  simpl in Hinv. destruct (check_loop _ _ _) as [bs [b|]]; simpl; [|done].
  intros Heq. apply Nat.eqb_eq in Heq as ->. exact Hinv.
Qed.

Lemma presents_window_of_dict windows :
  (forall d, d ∈ windows -> ~ lacks_key d) ->
  Forall2 presents windows (window_of_dict <$> windows).
Proof.
  intros Hall. apply Forall2_fmap_r, Forall_Forall2_diag, Forall_forall.
  intros d Hd. specialize (Hall d Hd). unfold lacks_key, presents, window_of_dict in *.
  simpl. destruct (d !! "start"%string), (d !! "length"%string); simpl; try done;
    exfalso; apply Hall; auto.
Qed.

(** Whatever the score arithmetic, the dict-access resolver answers true
    only for the index of a dict of the list whose window, from its start
    to its start plus its length minus one, contains the position. *)
Theorem new_check_true_covers (windows : list (gmap string Z)) (cur_span_index : nat)
    (position : Z) :
  _new_check_is_max_context (F:=F) windows cur_span_index position = Some true ->
  exists d start length,
    windows !! cur_span_index = Some d /\
    d !! "start"%string = Some start /\ d !! "length"%string = Some length /\
    start <= position <= start + length - 1.
Proof.
  intros Htrue.
  assert (Hkeys : forall d, d ∈ windows -> ~ lacks_key d).
  { intros d Hd Hlack.
    assert (Hnone : _new_check_is_max_context (F:=F) windows cur_span_index position = None)
      by (apply new_check_None_iff; eauto).
    congruence. }
  pose proof (presents_window_of_dict windows Hkeys) as HP.
  rewrite (new_check_presents position _ _ cur_span_index HP) in Htrue.
  injection Htrue as Htrue. apply check_true_covers in Htrue as (sp & Hsp & Hc).
  rewrite list_lookup_fmap in Hsp.
  destruct (windows !! cur_span_index) as [d|] eqn:Hd; [|done].
  simpl in Hsp. injection Hsp as <-.
  assert (Hin : d ∈ windows) by (apply list_elem_of_lookup; eauto).
  apply Hkeys in Hin. unfold lacks_key in Hin.
  destruct (d !! "start"%string) as [s|] eqn:Hs; [|exfalso; auto].
  destruct (d !! "length"%string) as [l|] eqn:Hl; [|exfalso; auto].
  exists d, s, l. repeat split; try done; unfold covers, window_of_dict in Hc;
    rewrite Hs, Hl in Hc; simpl in Hc; lia.
Qed.

(** With a single window the answer for index 0 is whether the window
    covers the position: an uncovered position gets false, and so does
    every other index. *)
Theorem check_single_window (sp : DocSpan.t) (cur_span_index : nat) (position : Z) :
  _check_is_max_context (F:=F) [sp] cur_span_index position
  = bool_decide (cur_span_index = 0%nat /\ covers sp position).
Proof.
  unfold _check_is_max_context.
  change (enumerate_from 0 [sp]) with [(0%nat, sp)]. cbn [check_loop].
  rewrite covers_dec_step. cbn [fst].
  destruct (decide (covers sp position)) as [Hc|Hc].
  - destruct cur_span_index.
    + by rewrite bool_decide_eq_true_2.
    + rewrite bool_decide_eq_false_2; [done|]. by intros [? _].
  - rewrite bool_decide_eq_false_2; [done|]. by intros [_ ?].
Qed.

End MaxContextEdges.

Lemma new_check_true_covers_witness :
  exists d start length,
    (span_as_dict <$> [DocSpan.mk 0 4; DocSpan.mk 2 4]) !! 1%nat = Some d /\
    d !! "start"%string = Some start /\ d !! "length"%string = Some length /\
    start <= 3 <= start + length - 1.
Proof.
  apply (new_check_true_covers (F:=Q) (span_as_dict <$> [DocSpan.mk 0 4; DocSpan.mk 2 4]) 1 3).
  vm_compute. reflexivity.
Defined.

(** ** Slicing loop: termination and edge cases *)

Section SlicingLoop.
Variable tokenizer : Tokenizer.t.
Variables (doc_tokens : list string) (truncated_query : list Z).
Variables (max_seq_length doc_stride : Z).

Local Abbreviation n := (Py.len doc_tokens).
Local Abbreviation budget :=
  (max_seq_length - Py.len truncated_query - sequence_pair_added_tokens tokenizer).
Local Abbreviation loop :=
  (slicing_loop tokenizer doc_tokens truncated_query max_seq_length doc_stride).
Local Abbreviation new_span :=
  (make_span tokenizer doc_tokens truncated_query max_seq_length doc_stride).
Local Abbreviation made :=
  (made_by_loop tokenizer doc_tokens truncated_query max_seq_length doc_stride).

Lemma made_snoc spans sdt :
  made spans -> Py.len spans * doc_stride < n -> made (spans ++ [new_span spans sdt]).
Proof.
  intros Hmade Hlt k sp Hk. apply lookup_snoc_Some in Hk as [[Hk Hklt]|[-> ->]].
  - destruct (Hmade k sp Hk) as (Hin & sdt' & ->). split; [done|].
    exists sdt'. by rewrite take_app_le by lia.
  - split; [done|]. exists sdt. by rewrite take_app_length.
Qed.

Lemma slicing_loop_made fuel :
  forall spans sdt spans',
    made spans -> loop fuel spans sdt = Some spans' -> made spans'.
Proof.
  induction fuel as [|fuel IH]; intros spans sdt spans' Hmade Hloop.
  - simpl in Hloop. destruct (decide _); [done|]. by injection Hloop as <-.
  - destruct (decide (Py.len spans * doc_stride < n)) as [Hlt|Hge].
    2:{ rewrite slicing_loop_done in Hloop by done. by injection Hloop as <-. }
    rewrite slicing_loop_step in Hloop by done.
    pose proof (made_snoc spans sdt Hmade Hlt) as Hmade'.
    destruct (Span.overflowing_tokens (new_span spans sdt)) as [[|o ov]|].
    + by injection Hloop as <-.
    + eapply IH; eauto.
    + by injection Hloop as <-.
Qed.

Lemma slicing_loop_nonempty fuel :
  forall spans sdt spans',
    loop fuel spans sdt = Some spans' ->
    (length spans <= length spans')%nat /\
    (Py.len spans * doc_stride < n -> (length spans < length spans')%nat).
Proof.
  induction fuel as [|fuel IH]; intros spans sdt spans' Hloop.
  - simpl in Hloop. destruct (decide _); [done|]. injection Hloop as <-. split; [done|lia].
  - destruct (decide (Py.len spans * doc_stride < n)) as [Hlt|Hge].
    2:{ rewrite slicing_loop_done in Hloop by done. injection Hloop as <-.
        split; [done|lia]. }
    rewrite slicing_loop_step in Hloop by done.
    assert (Hlen : length (spans ++ [new_span spans sdt]) = S (length spans))
      by (rewrite length_app; simpl; lia).
    destruct (Span.overflowing_tokens (new_span spans sdt)) as [[|o ov]|].
    + injection Hloop as <-. rewrite Hlen. split; lia.
    + apply IH in Hloop as [Hle _]. rewrite Hlen in Hle. split; lia.
    + injection Hloop as <-. rewrite Hlen. split; lia.
Qed.

Lemma slicing_loop_total fuel :
  0 < doc_stride ->
  forall spans sdt,
    n - Py.len spans * doc_stride <= Z.of_nat fuel ->
    is_Some (loop fuel spans sdt).
Proof.
  intros Hpos. induction fuel as [|fuel IH]; intros spans sdt Hfuel.
  - rewrite slicing_loop_done by lia. by eexists.
  - destruct (decide (Py.len spans * doc_stride < n)) as [Hlt|Hge].
    2:{ rewrite slicing_loop_done by done. by eexists. }
    rewrite slicing_loop_step by done.
    destruct (Span.overflowing_tokens (new_span spans sdt)) as [[|o ov]|];
      [by eexists| |by eexists].
    apply IH. rewrite len_app. change (Py.len [new_span spans sdt]) with 1. lia.
Qed.

(** With a positive [doc_stride] the loop stops within [len(doc_tokens)]
    iterations whatever the tokenizer reports.  Window [k] starts at
    [k * doc_stride], inside the context, its length is the smaller of
    the tokens left from there and the budget, and [paragraph_len] is
    that length; a non-empty context has at least one window. *)
Theorem slicing_loop_terminates (fuel : nat) :
  0 < doc_stride ->
  n <= Z.of_nat fuel ->
  exists spans,
    slicing_loop tokenizer doc_tokens truncated_query max_seq_length doc_stride
      fuel [] (Tokens doc_tokens) = Some spans /\
    (0 < n -> spans <> []) /\
    forall k sp, spans !! k = Some sp ->
      Span.start sp = Z.of_nat k * doc_stride /\
      Span.start sp < n /\
      Span.length sp = Z.min (n - Z.of_nat k * doc_stride) budget /\
      Span.paragraph_len sp = Span.length sp.
Proof.
  intros Hpos Hfuel.
  destruct (slicing_loop_total fuel Hpos [] (Tokens doc_tokens)) as [spans Hloop].
  { change (Py.len (@nil Span.t)) with 0. lia. }
  exists spans. split; [exact Hloop|]. split.
  - intros Hn. apply slicing_loop_nonempty in Hloop as [_ Hlt].
    change (Py.len (@nil Span.t)) with 0 in Hlt. simpl in Hlt.
    intros ->. simpl in Hlt. lia.
  - intros k sp Hk.
    assert (Hmade : made spans).
    { eapply slicing_loop_made; [|exact Hloop]. intros k' sp' Hk'.
      by rewrite lookup_nil in Hk'. }
    destruct (Hmade k sp Hk) as (Hin & sdt & ->).
    assert (Hlen : Py.len (take k spans) = Z.of_nat k).
    { unfold Py.len. rewrite length_take. apply lookup_lt_Some in Hk. lia. }
    split; [by rewrite new_span_start, Hlen|].
    split; [by rewrite new_span_start, Hlen|].
    split; [by rewrite new_span_length, Hlen|reflexivity].
Qed.

(** With [doc_stride = 0] and a tokenizer that truncates simply, a
    context longer than the budget keeps the loop running for ever: every
    iteration reports the whole context as overflowing, and the loop is
    out of fuel for every bound. *)
Theorem slicing_loop_zero_stride_diverges (fuel : nat) :
  simple_truncation tokenizer ->
  doc_stride = 0 ->
  0 < n -> budget < n ->
  slicing_loop tokenizer doc_tokens truncated_query max_seq_length doc_stride
    fuel [] (Tokens doc_tokens) = None.
Proof.
  intros Htrunc Hzero Hn Hover.
  assert (Hgen : forall spans sdt, pair_len sdt = n -> loop fuel spans sdt = None).
  { induction fuel as [|fuel' IH]; intros spans sdt Hlen.
    - simpl. rewrite decide_True by lia. done.
    - rewrite slicing_loop_step by lia. rewrite new_span_overflow.
      destruct (Htrunc truncated_query sdt max_seq_length
                  (max_seq_length - doc_stride - Py.len truncated_query
                   - sequence_pair_added_tokens tokenizer)) as [_ Hov].
      destruct Hov as (ov & -> & Hlenov); [lia|].
      destruct ov as [|o ov].
      { exfalso. change (Py.len (@nil Z)) with 0 in Hlenov. lia. }
      apply IH. unfold pair_len. lia. }
  apply Hgen. reflexivity.
Qed.

End SlicingLoop.

Lemma slicing_loop_terminates_witness :
  exists spans,
    slicing_loop (Toy.tokenizer "right") (Toy.tokenize "uvwxyzuvwxyz")
      (Toy.encode (Some "abc"%string) 64) 10 6 12 []
      (Tokens (Toy.tokenize "uvwxyzuvwxyz")) = Some spans /\
    spans <> [].
Proof.
  destruct (slicing_loop_terminates (Toy.tokenizer "right") (Toy.tokenize "uvwxyzuvwxyz")
              (Toy.encode (Some "abc"%string) 64) 10 6 12)
    as (spans & Hloop & Hne & _).
  - lia.
  - vm_compute. discriminate.
  - exists spans. split; [exact Hloop|]. apply Hne. vm_compute. reflexivity.
Defined.

Lemma slicing_loop_zero_stride_diverges_witness :
  slicing_loop (Toy.tokenizer "right") (Toy.tokenize "uvwxyzuvwxyz")
    (Toy.encode (Some "abc"%string) 64) 10 0 1000 []
    (Tokens (Toy.tokenize "uvwxyzuvwxyz")) = None.
Proof.
  apply (slicing_loop_zero_stride_diverges (Toy.tokenizer "right")
           (Toy.tokenize "uvwxyzuvwxyz") (Toy.encode (Some "abc"%string) 64) 10 0 1000).
  - apply toy_simple_truncation.
  - reflexivity.
  - vm_compute. reflexivity.
  - vm_compute. reflexivity.
Defined.

(** ** An empty context *)

(** A context without tokens has no window and so no feature: the
    conversion returns the empty list, for every stride and every bound
    on the loop, provided that in training mode an answerable example
    comes with its answer text. *)
Theorem convert_empty_context {F : Type} `{ScoreArith F} (tokenizer : Tokenizer.t)
    (fuel : nat) (example : AlibabaExample.t)
    (max_seq_length doc_stride max_query_length : Z) (is_training : bool) :
  Tokenizer.tokenize tokenizer (AlibabaExample.context_text example) = [] ->
  (is_training = false \/ AlibabaExample.is_impossible example = true \/
   is_Some (AlibabaExample.answer_text example)) ->
  convert_example_to_features (F:=F) tokenizer fuel example max_seq_length doc_stride
    max_query_length is_training = Some [].
Proof.
  intros Hempty Hanswer.
  unfold convert_example_to_features, example_spans.
  rewrite Hempty.
  assert (Htok : is_Some (answer_token_span tokenizer example is_training [])).
  { unfold answer_token_span.
    destruct Hanswer as [-> | [-> | [a ->]]]; simpl; try by eexists.
    - rewrite andb_false_r. by eexists.
    - destruct (is_training && negb _); by eexists. }
  destruct Htok as [tp ->]. simpl.
  rewrite slicing_loop_done by (change (Py.len (@nil Span.t)) with 0;
                                change (Py.len (@nil string)) with 0; lia).
  reflexivity.
Qed.

Lemma convert_empty_context_witness :
  convert_example_to_features (F:=Q) (Toy.tokenizer "right") 10
    (AlibabaExample.mk 7 (Some "abc"%string) EmptyString None "t"%string true false [] 0 0)
    12 4 64 true = Some [].
Proof.
  apply (convert_empty_context (F:=Q)); [reflexivity | right; left; reflexivity].
Defined.

(** ** The max-context pass *)

Lemma foldl_insert_key_lookup {V} (a : Z) (f : Z -> V) (js : list Z) :
  forall (m : gmap Z V) (key : Z),
    foldl (fun m j => <[a + j := f j]> m) m js !! key
    = if decide (key - a ∈ js) then Some (f (key - a)) else m !! key.
Proof.
  induction js as [|x js IH]; intros m key; cbn [foldl].
  - destruct (decide (key - a ∈ [])) as [Hin|_]; [|done].
    by apply elem_of_nil in Hin.
  - rewrite IH. destruct (decide (key - a ∈ js)) as [Hin|Hnin].
    + rewrite decide_True; [done|]. by right.
    + destruct (decide (key - a = x)) as [Heq|Hne].
      * rewrite decide_True by (rewrite Heq; left).
        replace (a + x) with key by lia. rewrite lookup_insert_eq. by rewrite Heq.
      * rewrite decide_False.
        -- rewrite lookup_insert_ne by lia. done.
        -- intros Hc. apply elem_of_cons in Hc as [Hc|Hc]; contradiction.
Qed.

Lemma as_dict_presents sp : presents (Span.as_dict sp) (Span.doc_span sp).
Proof.
  unfold presents, Span.as_dict, Span.doc_span. simpl. split.
  - by rewrite lookup_insert_eq.
  - rewrite lookup_insert_ne by done. by rewrite lookup_insert_eq.
Qed.

Section MaxContextPass.
Context {F : Type} `{ScoreArith F}.
Variables (tokenizer : Tokenizer.t) (doc_stride : Z).

Local Abbreviation marked_map := (marked_map (F:=F) tokenizer doc_stride).
Local Abbreviation marked_span := (marked_span (F:=F) tokenizer doc_stride).

Lemma new_check_spans spans i position :
  _new_check_is_max_context (F:=F) (Span.as_dict <$> spans) i position
  = Some (_check_is_max_context (Span.doc_span <$> spans) i position).
Proof.
  apply new_check_presents, Forall2_fmap, Forall_Forall2_diag, Forall_forall.
  intros sp _. apply as_dict_presents.
Qed.

(** One iteration of the inner loop, on a list that holds at [i] the
    window [sp0] with the map [m]. *)
Lemma mark_token_step windows i sp0 m s j :
  Span.doc_span <$> s = windows ->
  s !! i = Some (with_max_context m sp0) ->
  mark_token (F:=F) tokenizer doc_stride i s j
  = Some (<[i := with_max_context (marked_map windows i sp0 m [j]) sp0]> s).
Proof.
  intros HD Hi. unfold mark_token. rewrite new_check_spans, HD. simpl.
  rewrite Hi. simpl. do 2 f_equal.
  unfold Span.set_max_context, with_max_context, marked_map, key_base. simpl.
  destruct (bool_decide _); reflexivity.
Qed.

Lemma mark_span_inner windows i sp0 js :
  forall m s,
    Span.doc_span <$> s = windows ->
    s !! i = Some (with_max_context m sp0) ->
    Py.for_each (mark_token (F:=F) tokenizer doc_stride i) s js
    = Some (<[i := with_max_context (marked_map windows i sp0 m js) sp0]> s).
Proof.
  induction js as [|j js IH]; intros m s HD Hi.
  - simpl. f_equal. symmetry. by apply list_insert_id.
  - cbn [Py.for_each]. rewrite (mark_token_step windows i sp0 m s j HD Hi). simpl.
    rewrite (IH (marked_map windows i sp0 m [j])).
    + by rewrite list_insert_insert_eq.
    + rewrite list_fmap_insert. rewrite <- HD. apply list_insert_id.
      rewrite list_lookup_fmap, Hi. reflexivity.
    + apply list_lookup_insert_eq. by apply lookup_lt_Some in Hi.
Qed.

Lemma with_max_context_id sp : with_max_context (Span.token_is_max_context sp) sp = sp.
Proof. by destruct sp. Qed.

(** The inner loop for window [i] replaces it by its marked version. *)
Lemma mark_span_marked s i sp :
  s !! i = Some sp ->
  mark_span (F:=F) tokenizer doc_stride s i
  = Some (<[i := marked_span (Span.doc_span <$> s) i sp]> s).
Proof.
  intros Hi. unfold mark_span. rewrite Hi. simpl.
  apply (mark_span_inner (Span.doc_span <$> s) i sp (Py.zrange (Span.paragraph_len sp))
           (Span.token_is_max_context sp) s eq_refl).
  by rewrite with_max_context_id.
Qed.

Lemma doc_span_marked windows i sp :
  Span.doc_span (marked_span windows i sp) = Span.doc_span sp.
Proof. reflexivity. Qed.

(** The outer loop over the windows [a, ..., a + k - 1]. *)
Lemma mark_all_outer windows k :
  forall a s,
    Span.doc_span <$> s = windows ->
    (a + k <= length s)%nat ->
    exists s',
      Py.for_each (mark_span (F:=F) tokenizer doc_stride) s (seq a k) = Some s' /\
      length s' = length s /\
      forall i, s' !! i = if decide (a <= i < a + k)%nat
                          then marked_span windows i <$> s !! i
                          else s !! i.
Proof.
  induction k as [|k IH]; intros a s HD Hlen.
  - exists s. split; [done|]. split; [done|]. intros i.
    rewrite decide_False by lia. done.
  - destruct (lookup_lt_is_Some_2 s a) as [sp Hsp]; [lia|].
    cbn [seq Py.for_each]. rewrite (mark_span_marked s a sp Hsp), HD. simpl.
    destruct (IH (S a) (<[a := marked_span windows a sp]> s)) as (s' & Hs' & Hl & Hlook).
    + rewrite list_fmap_insert, doc_span_marked. rewrite <- HD. apply list_insert_id.
      by rewrite list_lookup_fmap, Hsp.
    + rewrite length_insert. lia.
    + exists s'. split; [exact Hs'|]. split; [by rewrite Hl, length_insert|].
      intros i. rewrite Hlook.
      destruct (decide (i = a)) as [->|Hne].
      * rewrite decide_False by lia. rewrite decide_True by lia.
        rewrite list_lookup_insert_eq by lia. by rewrite Hsp.
      * rewrite list_lookup_insert_ne by done.
        destruct (decide (S a <= i < S a + k)%nat);
          [rewrite decide_True by lia|rewrite decide_False by lia]; done.
Qed.

(** The result of the max-context pass, window by window. *)
Lemma mark_all_marked (spans : list Span.t) :
  exists spans',
    mark_all (F:=F) tokenizer doc_stride spans = Some spans' /\
    length spans' = length spans /\
    forall i sp, spans !! i = Some sp ->
      exists sp',
        spans' !! i = Some sp' /\
        Span.erase sp' = Span.erase sp /\
        (forall j, 0 <= j < Span.paragraph_len sp ->
           Span.token_is_max_context sp' !! (key_base tokenizer sp + j)
           = _new_check_is_max_context (F:=F) (Span.as_dict <$> spans) i
               (Z.of_nat i * doc_stride + j)) /\
        (forall key, ~ 0 <= key - key_base tokenizer sp < Span.paragraph_len sp ->
           Span.token_is_max_context sp' !! key = Span.token_is_max_context sp !! key).
Proof.
  destruct (mark_all_outer (Span.doc_span <$> spans) (length spans) 0 spans eq_refl)
    as (spans' & Hm & Hl & Hlook); [lia|].
  exists spans'. split; [exact Hm|]. split; [exact Hl|].
  intros i sp Hi. exists (marked_span (Span.doc_span <$> spans) i sp).
  split; [|split; [reflexivity|split]].
  - rewrite Hlook, decide_True, Hi; [done|]. apply lookup_lt_Some in Hi. lia.
  - intros j Hj. rewrite new_check_spans. simpl. unfold marked_map.
    rewrite (foldl_insert_key_lookup (key_base tokenizer sp)
               (fun j => _check_is_max_context (F:=F) (Span.doc_span <$> spans) i
                           (Z.of_nat i * doc_stride + j))).
    rewrite decide_True by (apply elem_of_zrange; lia).
    do 2 f_equal. lia.
  - intros key Hkey. simpl. unfold marked_map.
    rewrite (foldl_insert_key_lookup (key_base tokenizer sp)
               (fun j => _check_is_max_context (F:=F) (Span.doc_span <$> spans) i
                           (Z.of_nat i * doc_stride + j))).
    rewrite decide_False; [done|]. by rewrite elem_of_zrange.
Qed.

(** The max-context pass never raises.  It leaves every window in place
    up to its [token_is_max_context] map, and in that map the key of the
    context token [j] of window [i] (the token's offset, preceded by the
    query prefix unless padding is on the left) holds the answer of the
    resolver for window [i] at position [i * doc_stride + j]; the other
    keys are untouched. *)
Theorem mark_all_flags (spans : list Span.t) :
  exists spans',
    mark_all (F:=F) tokenizer doc_stride spans = Some spans' /\
    length spans' = length spans /\
    forall i sp, spans !! i = Some sp ->
      exists sp',
        spans' !! i = Some sp' /\
        Span.erase sp' = Span.erase sp /\
        (forall j, 0 <= j < Span.paragraph_len sp ->
           Span.token_is_max_context sp' !! (key_base tokenizer sp + j)
           = _new_check_is_max_context (F:=F) (Span.as_dict <$> spans) i
               (Z.of_nat i * doc_stride + j)) /\
        (forall key, ~ 0 <= key - key_base tokenizer sp < Span.paragraph_len sp ->
           Span.token_is_max_context sp' !! key = Span.token_is_max_context sp !! key).
Proof. apply mark_all_marked. Qed.

End MaxContextPass.

(** ** Ownership without the order of scores *)

Section OwnerExists.
Context {F : Type} `{ScoreArith F}.

Lemma covered_inv_step seen position st sp :
  covered_inv (F:=F) seen position st ->
  covered_inv (seen ++ [sp]) position
    (max_context_step position st (length seen) (DocSpan.start sp) (DocSpan.length sp)).
Proof.
  intros [Hboth Hnone]. rewrite covers_dec_step.
  assert (Hkeep : ~ covers sp position -> covered_inv (F:=F) (seen ++ [sp]) position st).
  { intros Hc. split; [exact Hboth|]. intros Hn w s Hw.
    apply lookup_snoc_Some in Hw as [[Hw _]|[-> ->]]; [by eapply Hnone|done]. }
  destruct (decide (covers sp position)) as [Hc|Hc]; [|by apply Hkeep].
  destruct st as [[sc|] [b|]]; simpl in *.
  - destruct (fgt (score_of sp position) sc); split; simpl; try done.
  - exfalso. destruct Hboth as [_ Hb]. by specialize (Hb eq_refl).
  - exfalso. destruct Hboth as [Hb _]. by specialize (Hb eq_refl).
  - split; simpl; done.
Qed.

Lemma check_loop_covered_inv position rest :
  forall seen st,
    covered_inv (F:=F) seen position st ->
    covered_inv (seen ++ rest) position
      (check_loop position st (enumerate_from (length seen) rest)).
Proof.
  induction rest as [|sp rest IH]; intros seen st Hinv.
  - by rewrite app_nil_r.
  - rewrite enumerate_from_cons. simpl.
    rewrite cons_middle, app_assoc.
    replace (S (length seen)) with (length (seen ++ [sp]))
      by (rewrite length_app; simpl; lia).
    apply IH, covered_inv_step, Hinv.
Qed.

(** Whatever the score arithmetic, a position covered by some window of
    the list has exactly one owner. *)
Lemma check_owner_exists doc_spans position :
  (exists w sp, doc_spans !! w = Some sp /\ covers sp position) ->
  exists b, forall w,
    _check_is_max_context (F:=F) doc_spans w position = bool_decide (w = b).
Proof.
  intros (w0 & sp0 & Hw0 & Hc0). unfold _check_is_max_context.
  pose proof (check_loop_covered_inv position doc_spans [] (None, None)) as Hinv.
  simpl in Hinv. destruct (check_loop _ _ _) as [bs [b|]].
  - exists b. intros w. simpl. destruct (Nat.eqb_spec w b) as [->|Hne].
    + by rewrite bool_decide_eq_true_2.
    + by rewrite bool_decide_eq_false_2.
  - exfalso. destruct Hinv as [_ Hnone].
    + split; [done|]. intros _ w sp Hw. by rewrite lookup_nil in Hw.
    + eapply Hnone; eauto.
Qed.

End OwnerExists.

(** ** From windows to features *)

Section FeaturesOfExample.
Context {F : Type} `{ScoreArith F}.
Variable tokenizer : Tokenizer.t.
Variables (fuel : nat) (example : AlibabaExample.t).
Variables (max_seq_length doc_stride max_query_length : Z) (is_training : bool).

Local Abbreviation doc_tokens :=
  (Tokenizer.tokenize tokenizer (AlibabaExample.context_text example)).
Local Abbreviation truncated_query :=
  (Tokenizer.encode tokenizer (AlibabaExample.question_text example) max_query_length).
Local Abbreviation doc_offset :=
  (Py.len truncated_query + sequence_added_tokens tokenizer).

(** The stages of the conversion with the result of the max-context
    pass named. *)
Lemma convert_example_marked features :
  convert_example_to_features (F:=F) tokenizer fuel example max_seq_length doc_stride
    max_query_length is_training = Some features ->
  exists tok_position spans spans',
    answer_token_span tokenizer example is_training doc_tokens = Some tok_position /\
    example_spans tokenizer fuel example max_seq_length doc_stride max_query_length
      = Some spans /\
    mark_all (F:=F) tokenizer doc_stride spans = Some spans' /\
    Forall2 (fun sp f =>
               make_feature tokenizer truncated_query example is_training tok_position sp
               = Some f)
            spans' features.
Proof.
  unfold convert_example_to_features. intros Hc.
  destruct (answer_token_span _ _ _ _) as [tok_position|]; [|done]. simpl in Hc.
  destruct (example_spans _ _ _ _ _ _) as [spans|]; [|done]. simpl in Hc.
  destruct (mark_all _ _ _) as [spans'|] eqn:Hmark; [|done]. simpl in Hc.
  exists tok_position, spans, spans'. repeat split; try done. by apply mapM_Some_1.
Qed.

(** Feature [k] is built from window [k] of the slicing loop, made by the
    iteration that saw the [k] windows before it, after the max-context
    pass has filled its map. *)
Lemma convert_example_feature_window features k f :
  convert_example_to_features (F:=F) tokenizer fuel example max_seq_length doc_stride
    max_query_length is_training = Some features ->
  features !! k = Some f ->
  exists tok_position spans spans' sp sp' sdt,
    answer_token_span tokenizer example is_training doc_tokens = Some tok_position /\
    example_spans tokenizer fuel example max_seq_length doc_stride max_query_length
      = Some spans /\
    mark_all (F:=F) tokenizer doc_stride spans = Some spans' /\
    spans !! k = Some sp /\ spans' !! k = Some sp' /\
    Span.erase sp' = Span.erase sp /\
    sp = make_span tokenizer doc_tokens truncated_query max_seq_length doc_stride
           (take k spans) sdt /\
    Z.of_nat k * doc_stride < Py.len doc_tokens /\
    make_feature tokenizer truncated_query example is_training tok_position sp' = Some f.
Proof.
  intros Hc Hk.
  apply convert_example_marked in Hc as (tp & spans & spans' & Htok & Hsp & Hmark & Hfs).
  destruct (Forall2_lookup_r _ _ _ _ _ Hfs Hk) as (sp' & Hk' & Hmk).
  pose proof (mark_all_erase _ _ _ _ Hmark) as Her.
  assert (Hex : exists sp, spans !! k = Some sp /\ Span.erase sp' = Span.erase sp).
  { apply (f_equal (fun l => l !! k)) in Her.
    rewrite !list_lookup_fmap, Hk' in Her. simpl in Her.
    destruct (spans !! k) as [sp|]; [|done]. exists sp. split; [done|].
    simpl in Her. congruence. }
  destruct Hex as (sp & Hspk & Hsame).
  assert (Hmade : made_by_loop tokenizer doc_tokens truncated_query max_seq_length
                    doc_stride spans).
  { unfold example_spans in Hsp. eapply slicing_loop_made; [|exact Hsp].
    intros k' s' Hk0. by rewrite lookup_nil in Hk0. }
  destruct (Hmade k sp Hspk) as (Hin & sdt & Hmk_sp).
  exists tp, spans, spans', sp, sp', sdt. repeat split; done.
Qed.

(** Among the features of one example every context position that lies
    in some window is flagged as max-context in exactly one feature:
    there is a feature [b] whose window holds the position, and each
    feature [k] whose window holds the position carries, at the key of
    that token, the flag [k = b]: true in feature [b], false in the
    others. *)
Theorem features_max_context_partition features (p : Z) :
  convert_example_to_features (F:=F) tokenizer fuel example max_seq_length doc_stride
    max_query_length is_training = Some features ->
  (exists k f, features !! k = Some f /\
     0 <= p - Z.of_nat k * doc_stride < AlibabaFeatures.paragraph_len f) ->
  exists b fb,
    features !! b = Some fb /\
    0 <= p - Z.of_nat b * doc_stride < AlibabaFeatures.paragraph_len fb /\
    forall k f,
      features !! k = Some f ->
      0 <= p - Z.of_nat k * doc_stride < AlibabaFeatures.paragraph_len f ->
      AlibabaFeatures.token_is_max_context f
        !! ((if bool_decide (Tokenizer.padding_side tokenizer = "left"%string)
             then 0 else doc_offset) + (p - Z.of_nat k * doc_stride))
      = Some (bool_decide (k = b)).
Proof.
  intros Hc (k0 & f0 & Hk0 & Hp0).
  assert (Hwin : forall k f, features !! k = Some f ->
            exists spans spans' sp sp',
              example_spans tokenizer fuel example max_seq_length doc_stride
                max_query_length = Some spans /\
              mark_all (F:=F) tokenizer doc_stride spans = Some spans' /\
              spans !! k = Some sp /\ spans' !! k = Some sp' /\
              Span.start sp = Z.of_nat k * doc_stride /\
              Span.length sp = Span.paragraph_len sp /\
              key_base tokenizer sp
              = (if bool_decide (Tokenizer.padding_side tokenizer = "left"%string)
                 then 0 else doc_offset) /\
              AlibabaFeatures.paragraph_len f = Span.paragraph_len sp /\
              AlibabaFeatures.token_is_max_context f = Span.token_is_max_context sp').
  { intros k f Hk.
    destruct (convert_example_feature_window features k f Hc Hk)
      as (tp & spans & spans' & sp & sp' & sdt & _ & Hsp & Hmark & Hspk & Hspk' & Her
          & Hmk & _ & Hf).
    exists spans, spans', sp, sp'. repeat split; try done.
    - rewrite Hmk. simpl. unfold Py.len. rewrite length_take.
      apply lookup_lt_Some in Hspk. f_equal. lia.
    - by rewrite Hmk.
    - by rewrite Hmk.
    - apply make_feature_Some in Hf as (_ & _ & _ & _ & _ & -> & _).
      by apply (f_equal Span.paragraph_len) in Her.
    - by apply make_feature_Some in Hf as (_ & _ & _ & _ & -> & _). }
  destruct (Hwin k0 f0 Hk0)
    as (spans & spans' & sp0 & sp0' & Hsp & Hmark & Hs0 & _ & Hst0 & Hl0 & _ & Hpl0 & _).
  destruct (check_owner_exists (F:=F) (Span.doc_span <$> spans) p) as [b Hb].
  { exists k0, (Span.doc_span sp0). split; [by rewrite list_lookup_fmap, Hs0|].
    unfold covers. simpl. lia. }
  assert (Hflag : forall k f,
            features !! k = Some f ->
            0 <= p - Z.of_nat k * doc_stride < AlibabaFeatures.paragraph_len f ->
            AlibabaFeatures.token_is_max_context f
              !! ((if bool_decide (Tokenizer.padding_side tokenizer = "left"%string)
                   then 0 else doc_offset) + (p - Z.of_nat k * doc_stride))
            = Some (bool_decide (k = b))).
  { intros k f Hk Hp.
    destruct (Hwin k f Hk)
      as (spans1 & spans1' & sp & sp' & Hsp1 & Hmark1 & Hs & Hs' & Hst & Hl & Hkey & Hpl
          & Htmc).
    rewrite Hsp in Hsp1. injection Hsp1 as <-.
    rewrite Hmark in Hmark1. injection Hmark1 as <-.
    destruct (mark_all_marked (F:=F) tokenizer doc_stride spans)
      as (spans2 & Hm2 & _ & Hflags).
    rewrite Hmark in Hm2. injection Hm2 as <-.
    destruct (Hflags k sp Hs) as (sp2 & Hs2 & _ & Hflag & _).
    rewrite Hs' in Hs2. injection Hs2 as <-.
    rewrite Htmc, <- Hkey, Hflag by lia.
    rewrite new_check_spans. f_equal.
    replace (Z.of_nat k * doc_stride + (p - Z.of_nat k * doc_stride)) with p by lia.
    apply Hb. }
  (* the owner is a window that holds the position *)
  assert (Hown : _check_is_max_context (F:=F) (Span.doc_span <$> spans) b p = true).
  { rewrite Hb. by apply bool_decide_eq_true_2. }
  apply check_true_covers in Hown as (w & Hw & Hcw).
  rewrite list_lookup_fmap in Hw.
  destruct (spans !! b) as [spb|] eqn:Hspb; [|done]. simpl in Hw. injection Hw as <-.
  assert (Hfb : exists fb, features !! b = Some fb).
  { apply convert_example_marked in Hc as (tp & spans1 & spans1' & _ & Hsp1 & Hmark1 & Hfs).
    rewrite Hsp in Hsp1. injection Hsp1 as <-.
    rewrite Hmark in Hmark1. injection Hmark1 as <-.
    destruct (mark_all_marked (F:=F) tokenizer doc_stride spans) as (spans2 & Hm2 & Hlen & _).
    rewrite Hmark in Hm2. injection Hm2 as <-.
    apply lookup_lt_is_Some. rewrite <- (Forall2_length _ _ _ Hfs), Hlen.
    by apply lookup_lt_Some in Hspb. }
  destruct Hfb as [fb Hfb].
  destruct (Hwin b fb Hfb)
    as (spans1 & _ & sp & _ & Hsp1 & _ & Hs & _ & Hst & Hl & _ & Hpl & _).
  rewrite Hsp in Hsp1. injection Hsp1 as <-.
  rewrite Hspb in Hs. injection Hs as <-.
  exists b, fb. split; [exact Hfb|]. split; [|exact Hflag].
  unfold covers in Hcw. simpl in Hcw. lia.
Qed.

End FeaturesOfExample.

Lemma features_max_context_partition_witness :
  exists features b fb,
    convert_example_to_features (F:=Q) (Toy.tokenizer "right") 12 long_example 10 3 64 true
      = Some features /\
    features !! b = Some fb /\
    0 <= 4 - Z.of_nat b * 3 < AlibabaFeatures.paragraph_len fb /\
    forall k f, features !! k = Some f ->
      0 <= 4 - Z.of_nat k * 3 < AlibabaFeatures.paragraph_len f ->
      AlibabaFeatures.token_is_max_context f !! (5 + (4 - Z.of_nat k * 3))
      = Some (bool_decide (k = b)).
Proof.
  destruct (convert_example_to_features (F:=Q) (Toy.tokenizer "right") 12 long_example
              10 3 64 true) as [features|] eqn:Hconv;
    [|vm_compute in Hconv; discriminate].
  destruct (features_max_context_partition (F:=Q) (Toy.tokenizer "right") 12 long_example
              10 3 64 true features 4 Hconv) as (b & fb & Hfb & Hin & Hb).
  - vm_compute in Hconv. injection Hconv as <-.
    eexists 1%nat, _. split; [reflexivity|]. simpl. lia.
  - exists features, b, fb. split; [reflexivity|]. split; [exact Hfb|].
    split; [exact Hin | exact Hb].
Defined.

(** ** Relocated spans map back to the answer *)

Lemma improve_answer_span_ordered doc_tokens answer_tokens input_start input_end ts te :
  input_start <= input_end ->
  _improve_answer_span doc_tokens answer_tokens input_start input_end = (ts, te) ->
  ts <= te.
Proof.
  intros Hle. unfold _improve_answer_span, Py.range. rewrite Nat.sub_0_r.
  destruct (scan_starts _ _ _) as [[s e]|] eqn:Hscan.
  - apply scan_starts_up_Some in Hscan as (s' & e' & [= -> ->] & _ & Hb & _); [|lia].
    intros [= <- <-]. lia.
  - by intros [= <- <-].
Qed.

(** In training mode, for an answerable example whose character span is
    in order, every feature that is not marked impossible has its
    [start_position] and [end_position] among the keys of its own
    [token_to_orig_map], and the map sends them to the token span that
    [_improve_answer_span] returned for the example. *)
Theorem relocated_span_round_trip {F : Type} `{ScoreArith F} (tokenizer : Tokenizer.t)
    (fuel : nat) (example : AlibabaExample.t)
    (max_seq_length doc_stride max_query_length : Z)
    (features : list AlibabaFeatures.t) (k : nat) (f : AlibabaFeatures.t) :
  convert_example_to_features (F:=F) tokenizer fuel example max_seq_length doc_stride
    max_query_length true = Some features ->
  AlibabaExample.is_impossible example = false ->
  AlibabaExample.start_position example <= AlibabaExample.end_position example ->
  features !! k = Some f ->
  AlibabaFeatures.is_impossible f = false ->
  exists answer_text ts te,
    AlibabaExample.answer_text example = Some answer_text /\
    _improve_answer_span
      (Tokenizer.tokenize tokenizer (AlibabaExample.context_text example))
      (Tokenizer.tokenize tokenizer answer_text)
      (AlibabaExample.start_position example)
      (AlibabaExample.end_position example) = (ts, te) /\
    AlibabaFeatures.token_to_orig_map f !! AlibabaFeatures.start_position f = Some ts /\
    AlibabaFeatures.token_to_orig_map f !! AlibabaFeatures.end_position f = Some te.
Proof.
  intros Hc Himp Hord Hk Hfimp.
  destruct (convert_example_feature_window tokenizer fuel example max_seq_length
              doc_stride max_query_length true features k f Hc Hk)
    as (tp & spans & spans' & sp & sp' & sdt & Htok & _ & _ & _ & _ & Her & Hmk & _ & Hf).
  apply make_feature_Some in Hf as (_ & _ & Hrel & Htom & _).
  rewrite relocate_erase, Her, <- relocate_erase in Hrel.
  unfold answer_token_span in Htok. rewrite Himp in Htok. simpl in Htok.
  destruct (AlibabaExample.answer_text example) as [answer_text|]; [|done].
  simpl in Htok. injection Htok as <-.
  destruct (_improve_answer_span _ _ _ _) as [ts te] eqn:Himprove.
  pose proof (improve_answer_span_ordered _ _ _ _ _ _ Hord Himprove) as Hle.
  exists answer_text, ts, te. split; [done|]. split; [done|].
  destruct (relocate_training tokenizer
              (Tokenizer.encode tokenizer (AlibabaExample.question_text example)
                 max_query_length)
              (AlibabaExample.is_impossible example) (Some (ts, te)) sp
              (AlibabaFeatures.cls_index f)) as [_ Hposs].
  destruct (Hposs Himp ts te eq_refl) as [Hout Hin].
  assert (Hinside : gold_inside sp ts te).
  { unfold gold_inside.
    destruct (decide (Span.start sp <= ts /\ te <= Span.start sp + Span.length sp - 1))
      as [Hg|Hg]; [done|].
    rewrite (Hout Hg) in Hrel. injection Hrel as _ _ Hi. congruence. }
  rewrite (Hin Hinside) in Hrel. injection Hrel as <- <- _.
  apply (f_equal Span.token_to_orig_map) in Her. simpl in Her.
  rewrite Htom, Her. destruct Hinside as [Hlo Hhi].
  assert (Hplen : Span.paragraph_len sp = Span.length sp) by (by rewrite Hmk).
  assert (Hlk : forall i, 0 <= i < Span.paragraph_len sp ->
            Span.token_to_orig_map sp
              !! (Py.len (Tokenizer.encode tokenizer (AlibabaExample.question_text example)
                            max_query_length)
                  + sequence_added_tokens tokenizer + i)
            = Some (Span.start sp + i)).
  { intros i Hi. rewrite Hmk in Hi |- *. by apply make_span_token_to_orig_map. }
  split.
  - replace (ts - Span.start sp + _) with
      (Py.len (Tokenizer.encode tokenizer (AlibabaExample.question_text example)
                 max_query_length)
       + sequence_added_tokens tokenizer + (ts - Span.start sp)) by lia.
    rewrite Hlk by lia. f_equal. lia.
  - replace (te - Span.start sp + _) with
      (Py.len (Tokenizer.encode tokenizer (AlibabaExample.question_text example)
                 max_query_length)
       + sequence_added_tokens tokenizer + (te - Span.start sp)) by lia.
    rewrite Hlk by lia. f_equal. lia.
Qed.

Lemma relocated_span_round_trip_witness :
  exists features f,
    convert_example_to_features (F:=Q) (Toy.tokenizer "right") 12 long_example 10 3 64 true
      = Some features /\
    features !! 0%nat = Some f /\
    AlibabaFeatures.token_to_orig_map f !! AlibabaFeatures.start_position f = Some 2 /\
    AlibabaFeatures.token_to_orig_map f !! AlibabaFeatures.end_position f = Some 3.
Proof.
  destruct (convert_example_to_features (F:=Q) (Toy.tokenizer "right") 12 long_example
              10 3 64 true) as [features|] eqn:Hconv;
    [|vm_compute in Hconv; discriminate].
  destruct (features !! 0%nat) as [f|] eqn:Hf;
    [|vm_compute in Hconv; injection Hconv as <-; discriminate].
  destruct (relocated_span_round_trip (F:=Q) (Toy.tokenizer "right") 12 long_example
              10 3 64 features 0 f Hconv eq_refl) as (a & ts & te & Ha & Hi & Hs & He).
  - simpl. lia.
  - exact Hf.
  - vm_compute in Hconv. injection Hconv as <-. injection Hf as <-. reflexivity.
  - injection Ha as <-. vm_compute in Hi. injection Hi as <- <-.
    exists features, f. done.
Defined.

(** ** The answer mask and the conversion never fail on well-formed encodings *)

Lemma where_from_lt test l :
  forall k, Forall (fun i => (i < k + length l)%nat) (Np.where_from test k l).
Proof.
  induction l as [|x l IH]; intros k; simpl; [constructor|].
  apply Forall_app. split.
  - destruct (test x); [|constructor]. constructor; [lia|constructor].
  - eapply Forall_impl; [apply (IH (S k))|]. simpl. intros i Hi. lia.
Qed.

Lemma index_Some_lt l x c :
  Py.index l x = Some c -> 0 <= c /\ (Z.to_nat c < length l)%nat.
Proof.
  revert c. induction l as [|y l IH]; intros c; simpl; [done|].
  destruct (Z.eqb y x).
  - intros [= <-]. split; simpl; lia.
  - destruct (Py.index l x) as [c'|]; [|done]. simpl. intros [= <-].
    destruct (IH c' eq_refl). split; [lia|]. rewrite Z2Nat.inj_succ by lia. lia.
Qed.

Lemma index_is_Some l x : x ∈ l -> is_Some (Py.index l x).
Proof.
  induction 1 as [y l|y z l _ IH]; simpl.
  - rewrite Z.eqb_refl. by eexists.
  - destruct (Z.eqb z y); [by eexists|]. destruct IH as [c ->]. by eexists.
Qed.

(** Lines 174-185 raise no IndexError when the token type ids and the
    special-tokens mask are as long as the input ids and the CLS position
    was found in them. *)
Lemma compute_p_mask_is_Some tokenizer truncated_query span cls_index :
  length (Span.token_type_ids span) = length (Span.input_ids span) ->
  length (Tokenizer.get_special_tokens_mask tokenizer (Span.input_ids span))
    = length (Span.input_ids span) ->
  Py.index (Span.input_ids span) (Tokenizer.cls_token_id tokenizer) = Some cls_index ->
  is_Some (compute_p_mask tokenizer truncated_query span cls_index).
Proof.
  intros Htt Hsm Hcls. unfold compute_p_mask.
  set (p0 := Np.fill_from _ _ _).
  assert (Hl0 : length p0 = length (Span.input_ids span)).
  { unfold p0. by rewrite fill_from_length, length_replicate. }
  destruct (remask_is_Some p0
              (Np.where_eq (Span.input_ids span) (Tokenizer.pad_token_id tokenizer))
              (Np.nonzero (Tokenizer.get_special_tokens_mask tokenizer
                             (Span.input_ids span))))
    as (p1 & p2 & H1 & H2).
  - rewrite Hl0. apply (where_from_lt _ _ 0).
  - rewrite Hl0, <- Hsm. apply (where_from_lt _ _ 0).
  - rewrite H1. simpl. rewrite H2. simpl.
    destruct (remask_lookup _ _ _ _ _ H1 H2) as (Hl2 & _).
    apply index_Some_lt in Hcls as [_ Hlt].
    unfold Np.set_at. rewrite decide_True by lia. by eexists.
Qed.

(** Every feature that the conversion returns has a mask as long as its
    token type ids, with no entry but 0 and 1 and with 0 at [cls_index],
    and [cls_index] is a position of the sequence. *)
Theorem feature_p_mask_shape {F : Type} `{ScoreArith F} (tokenizer : Tokenizer.t)
    (fuel : nat) (example : AlibabaExample.t)
    (max_seq_length doc_stride max_query_length : Z) (is_training : bool)
    (features : list AlibabaFeatures.t) (f : AlibabaFeatures.t) :
  convert_example_to_features (F:=F) tokenizer fuel example max_seq_length doc_stride
    max_query_length is_training = Some features ->
  f ∈ features ->
  length (AlibabaFeatures.p_mask f) = length (AlibabaFeatures.token_type_ids f) /\
  (forall x, x ∈ AlibabaFeatures.p_mask f -> x = 0 \/ x = 1) /\
  0 <= AlibabaFeatures.cls_index f < Py.len (AlibabaFeatures.input_ids f) /\
  AlibabaFeatures.p_mask f !! Z.to_nat (AlibabaFeatures.cls_index f) = Some 0.
Proof.
  intros Hc Hf. apply list_elem_of_lookup in Hf as [k Hk].
  destruct (convert_example_feature_window tokenizer fuel example max_seq_length
              doc_stride max_query_length is_training features k f Hc Hk)
    as (tp & spans & spans' & sp & sp' & sdt & _ & _ & _ & _ & _ & _ & _ & _ & Hf).
  pose proof Hf as Hmk. apply make_feature_Some in Hmk as (Hcls & Hpm & _).
  assert (Htt : AlibabaFeatures.token_type_ids f = Span.token_type_ids sp' /\
                AlibabaFeatures.input_ids f = Span.input_ids sp').
  { unfold make_feature in Hf.
    destruct (Py.index _ _); [|done]. simpl in Hf.
    destruct (compute_p_mask _ _ _ _); [|done]. simpl in Hf.
    destruct (relocate _ _ _ _ _ _ _) as [[[? ?] ?]|]; [|done]. simpl in Hf.
    by injection Hf as <-. }
  destruct Htt as [-> ->].
  destruct (compute_p_mask_lookup _ _ _ _ _ Hpm) as (Hlen & _ & _ & _ & Hlook).
  split; [exact Hlen|]. split; [|split].
  - intros x Hx. apply list_elem_of_lookup in Hx as [i Hi].
    assert (Hlt : (i < length (Span.token_type_ids sp'))%nat)
      by (rewrite <- Hlen; by apply lookup_lt_Some in Hi).
    rewrite (Hlook i Hlt) in Hi. injection Hi as <-.
    repeat destruct (decide _); auto.
  - apply index_Some_lt in Hcls. unfold Py.len. lia.
  - by apply (compute_p_mask_cls _ _ _ _ _ Hpm).
Qed.

Lemma feature_p_mask_shape_witness :
  exists features f,
    convert_example_to_features (F:=Q) (Toy.tokenizer "left") 12 long_example 10 3 64 true
      = Some features /\
    features !! 0%nat = Some f /\
    AlibabaFeatures.p_mask f !! Z.to_nat (AlibabaFeatures.cls_index f) = Some 0.
Proof.
  destruct (convert_example_to_features (F:=Q) (Toy.tokenizer "left") 12 long_example
              10 3 64 true) as [features|] eqn:Hconv;
    [|vm_compute in Hconv; discriminate].
  destruct (features !! 0%nat) as [f|] eqn:Hf;
    [|vm_compute in Hconv; injection Hconv as <-; discriminate].
  destruct (feature_p_mask_shape (F:=Q) (Toy.tokenizer "left") 12 long_example
              10 3 64 true features f Hconv) as (_ & _ & _ & Hcls).
  - apply list_elem_of_lookup. by exists 0%nat.
  - by exists features, f.
Defined.

Lemma answer_token_span_is_Some tokenizer example is_training doc_tokens :
  (is_training = false \/ AlibabaExample.is_impossible example = true \/
   is_Some (AlibabaExample.answer_text example)) ->
  exists tok_position,
    answer_token_span tokenizer example is_training doc_tokens = Some tok_position /\
    (is_training && negb (AlibabaExample.is_impossible example) = true ->
     is_Some tok_position).
Proof.
  unfold answer_token_span. intros Hanswer.
  destruct (is_training && negb (AlibabaExample.is_impossible example)) eqn:Hcase.
  - destruct Hanswer as [-> | [Hi | [a Ha]]]; [done| |].
    + rewrite Hi, andb_false_r in Hcase. done.
    + rewrite Ha. simpl. eexists. split; [reflexivity|]. by eexists.
  - eexists. split; [reflexivity|done].
Qed.

Lemma make_feature_is_Some tokenizer truncated_query example is_training tok_position span :
  length (Span.token_type_ids span) = length (Span.input_ids span) ->
  length (Tokenizer.get_special_tokens_mask tokenizer (Span.input_ids span))
    = length (Span.input_ids span) ->
  Tokenizer.cls_token_id tokenizer ∈ Span.input_ids span ->
  (is_training && negb (AlibabaExample.is_impossible example) = true ->
   is_Some tok_position) ->
  is_Some (make_feature tokenizer truncated_query example is_training tok_position span).
Proof.
  intros Htt Hsm Hcls Htok. unfold make_feature.
  destruct (index_is_Some _ _ Hcls) as [cls Hidx]. rewrite Hidx. simpl.
  destruct (compute_p_mask_is_Some tokenizer truncated_query span cls Htt Hsm Hidx)
    as [pm ->]. simpl.
  unfold relocate.
  destruct (is_training && negb (AlibabaExample.is_impossible example)) eqn:Hcase.
  - destruct (Htok eq_refl) as [[ts te] ->]. simpl.
    destruct (negb ((ts >=? _) && _)); simpl; eexists; reflexivity.
  - simpl. eexists; reflexivity.
Qed.

(** The conversion of one example returns a list of features. *)
Lemma convert_example_is_Some {F : Type} `{ScoreArith F} (tokenizer : Tokenizer.t)
    (fuel : nat) (example : AlibabaExample.t)
    (max_seq_length doc_stride max_query_length : Z) (is_training : bool) :
  well_formed tokenizer ->
  0 < doc_stride ->
  Py.len (Tokenizer.tokenize tokenizer (AlibabaExample.context_text example))
    <= Z.of_nat fuel ->
  (is_training = false \/ AlibabaExample.is_impossible example = true \/
   is_Some (AlibabaExample.answer_text example)) ->
  exists features,
    convert_example_to_features (F:=F) tokenizer fuel example max_seq_length doc_stride
      max_query_length is_training = Some features.
Proof.
  intros [Henc Hmask] Hpos Hfuel Hanswer.
  unfold convert_example_to_features.
  destruct (answer_token_span_is_Some tokenizer example is_training
              (Tokenizer.tokenize tokenizer (AlibabaExample.context_text example))
              Hanswer) as (tp & -> & Htp).
  simpl. unfold example_spans.
  set (doc_tokens := Tokenizer.tokenize tokenizer (AlibabaExample.context_text example)) in *.
  set (tq := Tokenizer.encode tokenizer (AlibabaExample.question_text example)
               max_query_length).
  destruct (slicing_loop_total tokenizer doc_tokens tq max_seq_length doc_stride fuel
              Hpos [] (Tokens doc_tokens)) as [spans Hloop].
  { change (Py.len (@nil Span.t)) with 0. lia. }
  rewrite Hloop. simpl.
  destruct (mark_all_marked (F:=F) tokenizer doc_stride spans) as (spans' & -> & Hlen & Hflags).
  simpl. apply mapM_is_Some_2, Forall_lookup. intros k sp' Hk'. simpl.
  destruct (lookup_lt_is_Some_2 spans k) as [sp Hk].
  { rewrite <- Hlen. by apply lookup_lt_Some in Hk'. }
  destruct (Hflags k sp Hk) as (sp2 & Hk2 & Her & _).
  rewrite Hk' in Hk2. injection Hk2 as <-.
  assert (Hmade : made_by_loop tokenizer doc_tokens tq max_seq_length doc_stride spans).
  { eapply slicing_loop_made; [|exact Hloop]. intros k0 s0 Hk0.
    by rewrite lookup_nil in Hk0. }
  destruct (Hmade k sp Hk) as (_ & sdt & Hmk).
  assert (Hids : Span.input_ids sp' = Span.input_ids sp /\
                 Span.token_type_ids sp' = Span.token_type_ids sp).
  { split; [apply (f_equal Span.input_ids) in Her|apply (f_equal Span.token_type_ids) in Her];
      exact Her. }
  destruct Hids as [Hi Ht].
  destruct (Henc tq sdt max_seq_length
              (max_seq_length - doc_stride - Py.len tq
               - sequence_pair_added_tokens tokenizer)) as [Hl Hc].
  apply make_feature_is_Some.
  - rewrite Hi, Ht, Hmk. exact Hl.
  - apply Hmask.
  - rewrite Hi, Hmk. exact Hc.
  - exact Htp.
Qed.

(** With a well-formed tokenizer and a positive [doc_stride] the
    conversion of an example raises nothing and stops within
    [len(doc_tokens)] iterations of the slicing loop, provided that in
    training mode an answerable example comes with its answer text. *)
Theorem convert_example_total {F : Type} `{ScoreArith F} (tokenizer : Tokenizer.t)
    (fuel : nat) (example : AlibabaExample.t)
    (max_seq_length doc_stride max_query_length : Z) (is_training : bool) :
  well_formed tokenizer ->
  0 < doc_stride ->
  Py.len (Tokenizer.tokenize tokenizer (AlibabaExample.context_text example))
    <= Z.of_nat fuel ->
  (is_training = false \/ AlibabaExample.is_impossible example = true \/
   is_Some (AlibabaExample.answer_text example)) ->
  exists features,
    convert_example_to_features (F:=F) tokenizer fuel example max_seq_length doc_stride
      max_query_length is_training = Some features.
Proof. apply convert_example_is_Some. Qed.

Lemma toy_well_formed side : well_formed (Toy.tokenizer side).
Proof.
  split.
  - intros query pair max_length stride. simpl. unfold Toy.encode_plus.
    destruct (bool_decide _); simpl; split.
    + rewrite !length_app, !length_replicate. simpl. rewrite ?length_app. simpl.
      rewrite ?length_app, ?length_replicate. simpl. lia.
    + apply elem_of_app. right. left.
    + rewrite !length_app, !length_replicate. simpl. rewrite ?length_app. simpl.
      rewrite ?length_app, ?length_replicate. simpl. lia.
    + left.
  - intros ids. simpl. unfold Toy.get_special_tokens_mask. by rewrite length_fmap.
Qed.

Lemma convert_example_total_witness :
  exists features,
    convert_example_to_features (F:=Q) (Toy.tokenizer "left") 12 long_example 10 3 64 true
      = Some features.
Proof.
  apply (convert_example_total (F:=Q) (Toy.tokenizer "left") 12 long_example 10 3 64 true).
  - apply toy_well_formed.
  - lia.
  - vm_compute. discriminate.
  - right. right. by eexists.
Defined.

(** ** Example validation: exceptions and what the returned examples satisfy *)

Section CreateExamplesEdges.
Variable is_training : bool.

Lemma build_example_fields title context_text qa ex :
  Processor.build_example is_training title context_text qa = Some ex ->
  AlibabaExample.question_text ex = Raw.question qa /\
  AlibabaExample.context_text ex = context_text /\
  AlibabaExample.is_impossible ex = Raw.is_impossible qa /\
  AlibabaExample.qas_id ex = Raw.id qa /\
  (is_training = false ->
   AlibabaExample.answer_text ex = None /\
   AlibabaExample.start_position ex = 0 /\ AlibabaExample.end_position ex = 0 /\
   (Raw.is_impossible qa = false -> AlibabaExample.answers ex = Raw.answers qa)).
Proof.
  unfold Processor.build_example, AlibabaExample.__init__.
  destruct (Raw.is_impossible qa) eqn:Hi; simpl.
  - intros [= <-]. simpl. repeat split; done.
  - destruct is_training; simpl.
    + destruct (Raw.answers qa) as [|a l]; [done|]. simpl.
      destruct (negb (Answer.text a =? EmptyString)%string); simpl;
        intros [= <-]; simpl; repeat split; done.
    + intros [= <-]. simpl. repeat split; done.
Qed.

Lemma qa_step_None title context_text st qa :
  qa_step is_training title context_text st qa = None <-> raises is_training qa = true.
Proof.
  unfold qa_step, raises, Processor.build_example, AlibabaExample.__init__,
    Processor.record_example, Processor.answer_mismatch.
  destruct (Raw.is_impossible qa), is_training, (Raw.answers qa) as [|a l]; simpl;
    try (destruct (negb (Answer.text a =? EmptyString)%string); simpl);
    destruct (Py.truthy (Raw.question qa)); simpl;
    try (destruct (negb (bool_decide _)); simpl);
    split; done.
Qed.

Lemma qas_loop_unfold title context_text st qa qas :
  Processor.qas_loop is_training title context_text st (qa :: qas)
  = st' ← qa_step is_training title context_text st qa;
    Processor.qas_loop is_training title context_text st' qas.
Proof.
  simpl. unfold qa_step.
  destruct (Processor.build_example _ _ _ _); reflexivity.
Qed.

Lemma qas_loop_None title context_text qas :
  forall st,
    Processor.qas_loop is_training title context_text st qas = None <->
    Exists (fun qa => raises is_training qa = true) qas.
Proof.
  induction qas as [|qa qas IH]; intros st.
  - simpl. split; [done|]. intros Hex. by apply Exists_nil in Hex.
  - rewrite qas_loop_unfold, Exists_cons, <- (qa_step_None title context_text st qa).
    destruct (qa_step _ _ _ _ _) as [st'|]; simpl.
    + rewrite IH. split; [by right|]. by intros [?|?].
    + split; [by left|done].
Qed.

Lemma paragraphs_loop_None title paragraphs :
  forall st,
    Processor.paragraphs_loop is_training title st paragraphs = None <->
    Exists (fun '(_, _, qa) => raises is_training qa = true)
           (Processor.paragraph_qas title paragraphs).
Proof.
  induction paragraphs as [|p ps IH]; intros st.
  - simpl. split; [done|]. intros Hex. by apply Exists_nil in Hex.
  - unfold Processor.paragraph_qas. cbn [mbind list_bind Processor.paragraphs_loop].
    rewrite Exists_app, Exists_fmap.
    destruct (Processor.qas_loop _ _ _ _ _) as [st'|] eqn:Hq; simpl.
    + rewrite IH. split; [by right|]. intros [Hex|Hex]; [|done].
      apply (qas_loop_None title (Raw.context p) (Raw.qas p) st) in Hex. congruence.
    + split; [|done]. intros _. left.
      by apply (qas_loop_None title (Raw.context p) (Raw.qas p) st).
Qed.

Lemma entries_loop_None input_data :
  forall st,
    Processor.entries_loop is_training st input_data = None <->
    Exists (fun '(_, _, qa) => raises is_training qa = true)
           (Processor.all_qas input_data).
Proof.
  induction input_data as [|e es IH]; intros st.
  - simpl. split; [done|]. intros Hex. by apply Exists_nil in Hex.
  - unfold Processor.all_qas. cbn [mbind list_bind Processor.entries_loop].
    rewrite Exists_app.
    destruct (Processor.paragraphs_loop _ _ _ _) as [st'|] eqn:Hp; simpl.
    + rewrite IH. split; [by right|]. intros [Hex|Hex]; [|done].
      apply (paragraphs_loop_None (Raw.title e) (Raw.paragraphs e) st) in Hex. congruence.
    + split; [|done]. intros _. left.
      by apply (paragraphs_loop_None (Raw.title e) (Raw.paragraphs e) st).
Qed.

(** The examples kept so far are all accepted. *)
Lemma record_example_accepted title context_text qa st ex st' :
  Processor.build_example is_training title context_text qa = Some ex ->
  Processor.record_example is_training st ex = Some st' ->
  Forall (accepted is_training) (Processor.examples st) ->
  Forall (accepted is_training) (Processor.examples st').
Proof.
  intros Hb Hr Hall.
  destruct (build_example_fields _ _ _ _ Hb) as (_ & _ & _ & _ & Hdev).
  unfold Processor.record_example in Hr.
  destruct (negb (Py.truthy (AlibabaExample.question_text ex))) eqn:Hq; simpl in Hr.
  { by injection Hr as <-. }
  destruct (Processor.answer_mismatch is_training ex) eqn:Hm; simpl in Hr.
  { by injection Hr as <-. }
  assert (Hacc : accepted is_training ex).
  { split; [by apply negb_false_iff in Hq|]. split.
    - intros -> Hi. unfold Processor.answer_mismatch in Hm. rewrite Hi in Hm.
      simpl in Hm. apply negb_false_iff, bool_decide_eq_true in Hm.
      destruct (AlibabaExample.answer_text ex) as [a|]; [|done].
      exists a. split; [done|]. congruence.
    - intros Hdev'. destruct (Hdev Hdev') as (? & ? & ? & _). done. }
  destruct (if negb (AlibabaExample.is_impossible ex) then _ else _) as [m|];
    [|done]. simpl in Hr. injection Hr as <-. simpl.
  apply Forall_app. split; [done|]. by constructor.
Qed.

Lemma qas_loop_accepted title context_text qas :
  forall st st',
    Processor.qas_loop is_training title context_text st qas = Some st' ->
    Forall (accepted is_training) (Processor.examples st) ->
    Forall (accepted is_training) (Processor.examples st').
Proof.
  induction qas as [|qa qas IH]; intros st st' Hl Hall; simpl in Hl.
  - by injection Hl as <-.
  - destruct (Processor.build_example _ _ _ _) as [ex|] eqn:Hb; [|done]. simpl in Hl.
    destruct (Processor.record_example _ _ _) as [st1|] eqn:Hr; [|done]. simpl in Hl.
    eapply IH; [exact Hl|]. eapply record_example_accepted; eauto.
Qed.

Lemma paragraphs_loop_accepted title paragraphs :
  forall st st',
    Processor.paragraphs_loop is_training title st paragraphs = Some st' ->
    Forall (accepted is_training) (Processor.examples st) ->
    Forall (accepted is_training) (Processor.examples st').
Proof.
  induction paragraphs as [|p ps IH]; intros st st' Hl Hall; simpl in Hl.
  - by injection Hl as <-.
  - destruct (Processor.qas_loop _ _ _ _ _) as [st1|] eqn:Hq; [|done]. simpl in Hl.
    eapply IH; [exact Hl|]. eapply qas_loop_accepted; eauto.
Qed.

Lemma entries_loop_accepted input_data :
  forall st st',
    Processor.entries_loop is_training st input_data = Some st' ->
    Forall (accepted is_training) (Processor.examples st) ->
    Forall (accepted is_training) (Processor.examples st').
Proof.
  induction input_data as [|e es IH]; intros st st' Hl Hall; simpl in Hl.
  - by injection Hl as <-.
  - destruct (Processor.paragraphs_loop _ _ _ _) as [st1|] eqn:Hq; [|done]. simpl in Hl.
    eapply IH; [exact Hl|]. eapply paragraphs_loop_accepted; eauto.
Qed.

End CreateExamplesEdges.

(** [_create_examples] raises exactly when the data holds an answerable
    [qa] with an empty list of answers that, in training mode, is read
    for its first answer, or, in the other mode, has a non-empty question
    and so reaches the [max] over its answers. *)
Theorem create_examples_raises (input_data : list Raw.entry) (set_type : string) :
  Processor._create_examples input_data set_type = None <->
  exists title context_text qa,
    (title, context_text, qa) ∈ Processor.all_qas input_data /\
    Raw.is_impossible qa = false /\
    Raw.answers qa = [] /\
    (set_type = "train"%string \/ Py.truthy (Raw.question qa) = true).
Proof.
  unfold Processor._create_examples, Processor.run.
  set (is_training := bool_decide (set_type = "train"%string)).
  rewrite fmap_None, (entries_loop_None is_training input_data Processor.init_state).
  rewrite Exists_exists. split.
  - intros ([[t c] qa] & Hin & Hr). exists t, c, qa. split; [done|].
    unfold raises in Hr. apply andb_true_iff in Hr as [Hr Hmode].
    apply andb_true_iff in Hr as [Hi Ha].
    apply negb_true_iff in Hi. apply bool_decide_eq_true in Ha.
    split; [done|]. split; [done|].
    apply orb_true_iff in Hmode as [Ht|Hq]; [left|by right].
    by apply bool_decide_eq_true in Ht.
  - intros (t & c & qa & Hin & Hi & Ha & Hmode). exists (t, c, qa). split; [done|].
    unfold raises. rewrite Hi, Ha. simpl.
    destruct Hmode as [Ht|Hq].
    + unfold is_training. by rewrite bool_decide_eq_true_2.
    + rewrite Hq. by rewrite orb_true_r.
Qed.

(** The returned examples are accepted ones. *)
Lemma create_examples_accepted (input_data : list Raw.entry)
    (set_type : string) (examples : list AlibabaExample.t) (example : AlibabaExample.t) :
  Processor._create_examples input_data set_type = Some examples ->
  example ∈ examples ->
  accepted (bool_decide (set_type = "train"%string)) example.
Proof.
  unfold Processor._create_examples, Processor.run. intros Hrun Hin.
  destruct (Processor.entries_loop _ _ _) as [st|] eqn:Hl; [|done].
  simpl in Hrun. injection Hrun as <-.
  pose proof (entries_loop_accepted _ _ _ _ Hl (Forall_nil_2 _)) as Hall.
  by apply (proj1 (Forall_forall _ _) Hall).
Qed.

(** Every example that [_create_examples] returns has a non-empty
    question.  In training mode an answerable one has an answer text, and
    the characters of its context from [start_position] to [end_position]
    are that text; in the other mode it has no answer text and both
    positions are 0. *)
Theorem create_examples_returns_accepted (input_data : list Raw.entry)
    (set_type : string) (examples : list AlibabaExample.t) (example : AlibabaExample.t) :
  Processor._create_examples input_data set_type = Some examples ->
  example ∈ examples ->
  accepted (bool_decide (set_type = "train"%string)) example.
Proof. apply create_examples_accepted. Qed.

Lemma create_examples_returns_accepted_witness :
  exists examples example,
    Processor._create_examples Processor.sample_data "train" = Some examples /\
    example ∈ examples /\ accepted true example.
Proof.
  destruct (Processor._create_examples Processor.sample_data "train") as [examples|]
    eqn:Hrun; [|vm_compute in Hrun; discriminate].
  destruct examples as [|example examples];
    [vm_compute in Hrun; discriminate|].
  exists (example :: examples), example. split; [reflexivity|]. split; [left|].
  apply (create_examples_returns_accepted Processor.sample_data "train"
           (example :: examples) example Hrun). left.
Defined.

(** ** Batch driver: distinct ids and the example behind a feature *)

(** No two returned features share a [unique_id]. *)
Theorem unique_ids_distinct (features : list (list AlibabaFeatures.t)) :
  NoDup (AlibabaFeatures.unique_id <$> number_features features).
Proof.
  pose proof (number_loop_inv features) as Hinv. unfold number_features.
  destruct (foldl number_example ([], 1000000000, 0) features) as [[nf uid] ei].
  destruct Hinv as (_ & _ & _ & Hid & _). simpl.
  apply NoDup_alt. intros i j x Hi Hj.
  rewrite list_lookup_fmap in Hi, Hj.
  destruct (nf !! i) as [fi|] eqn:Hfi; [|done].
  destruct (nf !! j) as [fj|] eqn:Hfj; [|done].
  simpl in Hi, Hj. injection Hi as Hi. injection Hj as Hj.
  rewrite (Hid _ _ Hfi) in Hi. rewrite (Hid _ _ Hfj) in Hj. lia.
Qed.

(** A position below the total number of features lies in the block of
    one example. *)
Lemma offset_decompose fs :
  forall k, (k < offset fs (length fs))%nat ->
    exists j l i, fs !! j = Some l /\ (i < length l)%nat /\ k = (offset fs j + i)%nat.
Proof.
  induction fs as [|l fs IH] using rev_ind; intros k Hk.
  - unfold offset in Hk. simpl in Hk. lia.
  - rewrite offset_snoc in Hk.
    destruct (decide (k < offset fs (length fs))%nat) as [Hlt|Hge].
    + destruct (IH k Hlt) as (j & l0 & i & Hj & Hi & ->).
      exists j, l0, i. split; [by apply lookup_app_l_Some|]. split; [done|].
      rewrite offset_snoc_le; [done|]. apply lookup_lt_Some in Hj. lia.
    + exists (length fs), l, (k - offset fs (length fs))%nat.
      split; [by rewrite lookup_app_r, Nat.sub_diag|]. split; [lia|].
      rewrite offset_snoc_le by lia. lia.
Qed.

(** Every returned feature is a feature of one input example, renumbered. *)
Lemma number_features_origin fs f :
  f ∈ number_features fs ->
  exists j l f0,
    fs !! j = Some l /\ f0 ∈ l /\
    AlibabaFeatures.example_index f = rank fs j /\
    AlibabaFeatures.qas_id f = AlibabaFeatures.qas_id f0.
Proof.
  pose proof (number_loop_inv fs) as Hinv. unfold number_features.
  destruct (foldl number_example ([], 1000000000, 0) fs) as [[nf uid] ei].
  destruct Hinv as (_ & _ & Hlen & _ & _ & _ & Hat). simpl.
  intros Hf. apply list_elem_of_lookup in Hf as [k Hk].
  destruct (offset_decompose fs k) as (j & l & i & Hj & Hi & ->).
  { rewrite <- Hlen. by apply lookup_lt_Some in Hk. }
  destruct (lookup_lt_is_Some_2 l i Hi) as [f0 Hf0].
  rewrite (Hat j l i f0 Hj Hf0) in Hk. injection Hk as <-.
  exists j, l, f0. split; [done|]. split; [|done].
  apply list_elem_of_lookup. by exists i.
Qed.

(** When every example of the batch has a context with at least one
    token, the [example_index] of a returned feature is the position of
    its example in the input: the example found there has the feature's
    [qas_id]. *)
Theorem example_index_finds_example {F : Type} `{ScoreArith F} (tokenizer : Tokenizer.t)
    (fuel : nat) (examples : list AlibabaExample.t)
    (max_seq_length doc_stride max_query_length : Z) (is_training : bool)
    (features : list AlibabaFeatures.t) (f : AlibabaFeatures.t) :
  convert_examples_to_features (F:=F) tokenizer fuel examples max_seq_length doc_stride
    max_query_length is_training = Some features ->
  (forall example, example ∈ examples ->
     Tokenizer.tokenize tokenizer (AlibabaExample.context_text example) <> []) ->
  f ∈ features ->
  exists example,
    examples !! Z.to_nat (AlibabaFeatures.example_index f) = Some example /\
    AlibabaExample.qas_id example = AlibabaFeatures.qas_id f.
Proof.
  unfold convert_examples_to_features. intros Hc Hne Hf.
  destruct (mapM _ examples) as [fls|] eqn:Hm; [|done]. simpl in Hc.
  injection Hc as <-. apply mapM_Some_1 in Hm.
  apply number_features_origin in Hf as (j & l & f0 & Hj & Hf0 & Hidx & Hq).
  destruct (Forall2_lookup_r _ _ _ _ _ Hm Hj) as (example & Hex & Hconv).
  assert (Hrank : rank fls j = Z.of_nat j).
  { apply rank_all_nonempty; [apply lookup_lt_Some in Hj; lia|].
    intros j' l' Hlt Hj' ->.
    destruct (Forall2_lookup_r _ _ _ _ _ Hm Hj') as (ex' & Hex' & Hconv').
    apply convert_example_stages in Hconv' as (tp & spans & spans' & _ & Hsp & Her & Hfs).
    apply Forall2_nil_inv_r in Hfs. subst spans'.
    assert (Hnil : spans = []).
    { destruct spans; [done|]. simpl in Her. done. }
    subst spans. unfold example_spans in Hsp.
    apply slicing_loop_nonempty in Hsp as [_ Hlt'].
    assert (Hin : ex' ∈ examples) by (apply list_elem_of_lookup; eauto).
    specialize (Hne ex' Hin).
    destruct (Tokenizer.tokenize tokenizer (AlibabaExample.context_text ex'))
      as [|t ts]; [done|].
    change (Py.len (@nil Span.t)) with 0 in Hlt'. simpl in Hlt'.
    unfold Py.len in Hlt'. simpl in Hlt'. lia. }
  exists example. rewrite Hidx, Hrank, Nat2Z.id. split; [done|].
  rewrite Hq. symmetry. eapply convert_example_qas_id; eauto.
Qed.

Lemma example_index_finds_example_witness :
  exists features f example,
    convert_examples_to_features (F:=Q) (Toy.tokenizer "right") 12
      [impossible_example; long_example] 10 3 64 true = Some features /\
    features !! 1%nat = Some f /\
    [impossible_example; long_example]
      !! Z.to_nat (AlibabaFeatures.example_index f) = Some example /\
    AlibabaExample.qas_id example = AlibabaFeatures.qas_id f.
Proof.
  destruct (convert_examples_to_features (F:=Q) (Toy.tokenizer "right") 12
              [impossible_example; long_example] 10 3 64 true) as [features|] eqn:Hconv;
    [|vm_compute in Hconv; discriminate].
  destruct (features !! 1%nat) as [f|] eqn:Hf;
    [|vm_compute in Hconv; injection Hconv as <-; discriminate].
  destruct (example_index_finds_example (F:=Q) (Toy.tokenizer "right") 12
              [impossible_example; long_example] 10 3 64 true features f Hconv)
    as (example & Hex & Hq).
  - intros example Hin. apply list_elem_of_In in Hin.
    destruct Hin as [<-|[<-|[]]]; discriminate.
  - apply list_elem_of_lookup. by exists 1%nat.
  - by exists features, f, example.
Defined.

(** ** Which positions the mask leaves eligible *)

(** A position of the sequence is left at 0 exactly when it is the CLS
    position, or lies at or after [len(truncated_query) +
    sequence_added_tokens] and holds neither a pad token nor a token that
    the special-tokens mask marks. *)
Theorem p_mask_zero_iff (tokenizer : Tokenizer.t) (truncated_query : list Z)
    (span : Span.t) (cls_index : Z) (p_mask : list Z) (i : nat) :
  compute_p_mask tokenizer truncated_query span cls_index = Some p_mask ->
  (i < length p_mask)%nat ->
  (p_mask !! i = Some 0) <->
  (i = Z.to_nat cls_index) \/
  ((Z.to_nat (Py.clamp (Py.len (Span.token_type_ids span))
                (Py.len truncated_query + sequence_added_tokens tokenizer)) <= i)%nat /\
   (i ∉ Np.where_eq (Span.input_ids span) (Tokenizer.pad_token_id tokenizer)) /\
   (i ∉ Np.nonzero (Tokenizer.get_special_tokens_mask tokenizer (Span.input_ids span)))).
Proof.
  intros Hc Hi.
  destruct (compute_p_mask_lookup _ _ _ _ _ Hc) as (Hlen & _ & _ & _ & Hlook).
  rewrite Hlen in Hi. rewrite (Hlook i Hi). unfold Py.len.
  destruct (decide (i = Z.to_nat cls_index)) as [->|Hne].
  { split; [by left|done]. }
  destruct (decide (_ \/ _)) as [Hsp|Hsp].
  { split; [done|]. intros [?|(_ & Hp & Hs)]; [done|]. destruct Hsp; contradiction. }
  destruct (decide (_ <= i)%nat) as [Hge|Hlt].
  - split; [|done]. intros _. right. split; [done|]. split; intros ?; apply Hsp; auto.
  - split; [done|]. intros [?|(? & _)]; [done|lia].
Qed.

Lemma p_mask_zero_iff_witness :
  exists span p_mask,
    compute_p_mask (Toy.tokenizer "right") (Toy.encode (Some "abc"%string) 64) span 0
      = Some p_mask /\
    p_mask !! 5%nat = Some 0.
Proof.
  set (e := Toy.encode_plus "right" (Toy.encode (Some "abc"%string) 64)
              (Tokens (Toy.tokenize "xy")) 12 4).
  set (span := Span.mk (Encoding.input_ids e) (Encoding.attention_mask e)
                 (Encoding.token_type_ids e) (Encoding.overflowing_tokens e)
                 2 [] ∅ 5 ∅ 0 2).
  destruct (compute_p_mask (Toy.tokenizer "right") (Toy.encode (Some "abc"%string) 64)
              span 0) as [p_mask|] eqn:Hc; [|vm_compute in Hc; discriminate].
  exists span, p_mask. split; [exact Hc|].
  apply (p_mask_zero_iff (Toy.tokenizer "right") (Toy.encode (Some "abc"%string) 64)
           span 0 p_mask 5 Hc).
  - vm_compute in Hc. injection Hc as <-. simpl. lia.
  - right. vm_compute. split; [lia|]. split; intros Hin; apply list_elem_of_In in Hin;
      simpl in Hin; intuition discriminate.
Defined.

(** ** The map and the length of each feature *)

(** Feature [k] of an example is built from the window that starts at
    context token [k * doc_stride], and its [token_to_orig_map] has
    exactly the [paragraph_len] keys from [len(truncated_query) +
    sequence_added_tokens] on, key number [i] holding [k * doc_stride + i]. *)
Theorem feature_token_to_orig_map {F : Type} `{ScoreArith F} (tokenizer : Tokenizer.t)
    (fuel : nat) (example : AlibabaExample.t)
    (max_seq_length doc_stride max_query_length : Z) (is_training : bool)
    (features : list AlibabaFeatures.t) (k : nat) (f : AlibabaFeatures.t) (key : Z) :
  convert_example_to_features (F:=F) tokenizer fuel example max_seq_length doc_stride
    max_query_length is_training = Some features ->
  features !! k = Some f ->
  let truncated_query :=
    Tokenizer.encode tokenizer (AlibabaExample.question_text example) max_query_length in
  let doc_offset := Py.len truncated_query + sequence_added_tokens tokenizer in
  AlibabaFeatures.paragraph_len f
  = Z.min (Py.len (Tokenizer.tokenize tokenizer (AlibabaExample.context_text example))
           - Z.of_nat k * doc_stride)
          (max_seq_length - Py.len truncated_query - sequence_pair_added_tokens tokenizer) /\
  AlibabaFeatures.token_to_orig_map f !! key
  = if decide (0 <= key - doc_offset < AlibabaFeatures.paragraph_len f)
    then Some (Z.of_nat k * doc_stride + (key - doc_offset))
    else None.
Proof.
  intros Hc Hk truncated_query doc_offset.
  destruct (convert_example_feature_window tokenizer fuel example max_seq_length
              doc_stride max_query_length is_training features k f Hc Hk)
    as (tp & spans & spans' & sp & sp' & sdt & _ & _ & _ & Hspk & _ & Her & Hmk & _ & Hf).
  apply make_feature_Some in Hf as (_ & _ & _ & Htom & _ & Hpl & _).
  assert (Hlen : Py.len (take k spans) = Z.of_nat k).
  { unfold Py.len. rewrite length_take. apply lookup_lt_Some in Hspk. lia. }
  assert (Hpl' : Span.paragraph_len sp' = Span.paragraph_len sp)
    by (by apply (f_equal Span.paragraph_len) in Her).
  assert (Htom' : Span.token_to_orig_map sp' = Span.token_to_orig_map sp)
    by (by apply (f_equal Span.token_to_orig_map) in Her).
  rewrite Hpl, Hpl', Htom, Htom', Hmk. simpl. rewrite Hlen. split; [done|].
  apply build_token_to_orig_map_lookup.
Qed.

Lemma feature_token_to_orig_map_witness :
  exists features f,
    convert_example_to_features (F:=Q) (Toy.tokenizer "right") 12 long_example 10 3 64 true
      = Some features /\
    features !! 2%nat = Some f /\
    AlibabaFeatures.paragraph_len f = 4 /\
    AlibabaFeatures.token_to_orig_map f !! 6 = Some 7.
Proof.
  destruct (convert_example_to_features (F:=Q) (Toy.tokenizer "right") 12 long_example
              10 3 64 true) as [features|] eqn:Hconv;
    [|vm_compute in Hconv; discriminate].
  destruct (features !! 2%nat) as [f|] eqn:Hf;
    [|vm_compute in Hconv; injection Hconv as <-; discriminate].
  destruct (feature_token_to_orig_map (F:=Q) (Toy.tokenizer "right") 12 long_example
              10 3 64 true features 2 f 6 Hconv Hf) as [Hpl Hlook].
  exists features, f. split; [reflexivity|]. split; [exact Hf|].
  assert (Hpl4 : AlibabaFeatures.paragraph_len f = 4) by (rewrite Hpl; vm_compute; reflexivity).
  split; [exact Hpl4|]. rewrite Hlook, Hpl4. vm_compute. reflexivity.
Defined.

(** ** From the raw data to the features *)

(** Validation and conversion compose.  On the examples that
    [_create_examples] returns, the code of the batch driver and of
    [convert_example_to_features] raises nothing in the same mode: no
    answer text is missing where line 95 tokenizes it, [index] finds the
    CLS token, the mask is written inside its bounds and the max-context
    pass finds its keys.  This is for a positive [doc_stride], a bound on
    the slicing loop that is at least the number of tokens of every
    context, and a tokenizer whose calls return well-formed encodings.
    The functions of the tokenizer are total in the model: an exception
    raised inside the tokenizer library, as when [encode_plus] refuses a
    question that encodes to no token, is outside this statement. *)
Theorem created_examples_convert {F : Type} `{ScoreArith F} (tokenizer : Tokenizer.t)
    (fuel : nat) (max_seq_length doc_stride max_query_length : Z)
    (input_data : list Raw.entry) (set_type : string)
    (examples : list AlibabaExample.t) :
  Processor._create_examples input_data set_type = Some examples ->
  well_formed tokenizer ->
  0 < doc_stride ->
  (forall example, example ∈ examples ->
     Py.len (Tokenizer.tokenize tokenizer (AlibabaExample.context_text example))
     <= Z.of_nat fuel) ->
  exists features,
    convert_examples_to_features (F:=F) tokenizer fuel examples max_seq_length doc_stride
      max_query_length (bool_decide (set_type = "train"%string)) = Some features.
Proof.
  intros Hrun Hwf Hpos Hfuel. unfold convert_examples_to_features.
  assert (Hall : is_Some (mapM (fun example =>
                    convert_example_to_features (F:=F) tokenizer fuel example
                      max_seq_length doc_stride max_query_length
                      (bool_decide (set_type = "train"%string))) examples)).
  { apply mapM_is_Some_2, Forall_forall. intros example Hin. simpl.
    destruct (create_examples_accepted input_data set_type examples example
                Hrun Hin) as (_ & Htrain & Hdev).
    destruct (convert_example_is_Some (F:=F) tokenizer fuel example max_seq_length
                doc_stride max_query_length (bool_decide (set_type = "train"%string))
                Hwf Hpos (Hfuel example Hin)) as [features Hf]; [|by eexists].
    destruct (bool_decide (set_type = "train"%string)); [|by left].
    destruct (AlibabaExample.is_impossible example) eqn:Hi; [right; by left|].
    right. right. destruct (Htrain eq_refl eq_refl) as (a & -> & _). by eexists. }
  destruct Hall as [fls ->]. simpl. by eexists.
Qed.

Lemma created_examples_convert_witness :
  exists examples features,
    Processor._create_examples Processor.sample_data "train" = Some examples /\
    convert_examples_to_features (F:=Q) (Toy.tokenizer "right") 30 examples 16 4 64 true
      = Some features.
Proof.
  destruct (Processor._create_examples Processor.sample_data "train") as [examples|]
    eqn:Hrun; [|vm_compute in Hrun; discriminate].
  destruct (created_examples_convert (F:=Q) (Toy.tokenizer "right") 30 16 4 64
              Processor.sample_data "train" examples Hrun) as [features Hf].
  - apply toy_well_formed.
  - lia.
  - intros example Hin. vm_compute in Hrun. injection Hrun as <-.
    apply list_elem_of_In in Hin. destruct Hin as [<-|[]]. vm_compute. discriminate.
  - exists examples, features. split; [reflexivity|exact Hf].
Defined.
